(** * Package statistics: cache store, conditional fetcher and orchestrator

    A shallow embedding of the Go program (packages [cache] and [app]) and
    the properties its specification states about it.

    Conventions of the embedding.
    - A Go [string] is a byte string ([string] of [ascii]).
    - A Go [int] / [int64] is a [Z] with the two's-complement wrap-around
      written out where the program does arithmetic on it.
    - A [map[string]int] is a [gmap string Z]; a missing key reads as 0.
    - A function that returns [(T, error)] returns a [Result T]; a function
      taking a pointer it writes through returns the pointee's final value.
    - Everything outside the process (remote server, cancellation, clock,
      file-system faults, the lock held by other processes) is an [Env] of
      functions of the trace of effects issued so far; the process state is
      a [World]: the files and that trace.
    - Calls to the logger are left out: they change no value the program
      computes with. *)

From Stdlib Require Import ZArith Ascii String List Permutation Sorted Lia.
From Stdlib Require Import DecimalString DecimalPos.
From stdpp Require Import gmap strings list fin_maps.

Set Warnings "-register-all".

Open Scope Z_scope.

(** ** Machine integers *)

Definition wrap_int (z : Z) : Z := (z + 2 ^ 63) mod 2 ^ 64 - 2 ^ 63.

(** ** Package [strings] of the Go library, on byte strings *)

Module strings.

(** The six ASCII white-space bytes: tab, LF, VT, FF, CR and space. *)
Definition asciiSpace (c : ascii) : bool :=
  let n := N_of_ascii c in
  (((9 <=? n) && (n <=? 13)) || (n =? 32))%N.

(** UTF-8 encodings of the white-space runes above U+007F:
    U+0085, U+00A0 (two bytes) and U+1680, U+2000..U+200A, U+2028,
    U+2029, U+202F, U+205F, U+3000 (three bytes). *)
Definition space2 (c1 c2 : ascii) : bool :=
  let a := N_of_ascii c1 in
  let b := N_of_ascii c2 in
  ((a =? 194) && ((b =? 133) || (b =? 160)))%N.

Definition space3 (c1 c2 c3 : ascii) : bool :=
  let a := N_of_ascii c1 in
  let b := N_of_ascii c2 in
  let c := N_of_ascii c3 in
  (((a =? 225) && (b =? 154) && (c =? 128))
   || ((a =? 226) && (b =? 128)
       && (((128 <=? c) && (c <=? 138)) || (c =? 168) || (c =? 169) || (c =? 175)))
   || ((a =? 226) && (b =? 129) && (c =? 159))
   || ((a =? 227) && (b =? 128) && (c =? 128)))%N.

(** [TrimLeftFunc(s, unicode.IsSpace)]: drop leading white-space runes. *)
Fixpoint TrimLeft (s : string) : string :=
  match s with
  | EmptyString => EmptyString
  | String c1 s1 =>
      if asciiSpace c1 then TrimLeft s1
      else match s1 with
           | EmptyString => s
           | String c2 s2 =>
               if space2 c1 c2 then TrimLeft s2
               else match s2 with
                    | EmptyString => s
                    | String c3 s3 =>
                        if space3 c1 c2 c3 then TrimLeft s3 else s
                    end
           end
  end.

Definition isEmpty (s : string) : bool :=
  match s with EmptyString => true | String _ _ => false end.

(** [TrimRightFunc(s, unicode.IsSpace)]: drop the longest suffix made of
    white-space runes. *)
Fixpoint TrimRight (s : string) : string :=
  match s with
  | EmptyString => EmptyString
  | String c s' => if isEmpty (TrimLeft s) then EmptyString else String c (TrimRight s')
  end.

Definition TrimSpace (s : string) : string := TrimRight (TrimLeft s).

Definition HasPrefix (s pre : string) : bool := String.prefix pre s.

Fixpoint Index_from (s substr : string) (i : Z) : Z :=
  if String.prefix substr s then i
  else match s with
       | EmptyString => -1
       | String _ s' => Index_from s' substr (i + 1)
       end.

(** [strings.Index]: position of the first occurrence, or -1. *)
Definition Index (s substr : string) : Z := Index_from s substr 0.

(** [strings.Split] for a one-byte separator. *)
Fixpoint Split (s : string) (sep : ascii) : list string :=
  match s with
  | EmptyString => [EmptyString]
  | String c s' =>
      if Ascii.eqb c sep then EmptyString :: Split s' sep
      else match Split s' sep with
           | h :: t => String c h :: t
           | [] => [String c EmptyString]
           end
  end.

(** [strings.Repeat(s, count)] for a count that is not negative. *)
Fixpoint Repeat (s : string) (count : nat) : string :=
  match count with
  | O => EmptyString
  | S n => s +:+ Repeat s n
  end.

(** [strings.ReplaceAll] for a one-byte pattern. *)
Fixpoint ReplaceAll (s : string) (old : ascii) (new : string) : string :=
  match s with
  | EmptyString => EmptyString
  | String c r =>
      if Ascii.eqb c old then new +:+ ReplaceAll r old new
      else String c (ReplaceAll r old new)
  end.

(** The slice expression [s[n:]]. *)
Fixpoint from (n : nat) (s : string) : string :=
  match n, s with
  | O, _ => s
  | S n', String _ s' => from n' s'
  | S _, EmptyString => EmptyString
  end.

End strings.

(** ** Packages [unicode/utf8] and [fmt], as far as the program uses them *)

Module utf8.

(** The number of bytes the first byte announces: the low bits of the
    table [first], 1 for a byte that starts no sequence. *)
Definition size (c : ascii) : nat :=
  let n := N_of_ascii c in
  if ((194 <=? n) && (n <=? 223))%N then 2
  else if ((224 <=? n) && (n <=? 239))%N then 3
  else if ((240 <=? n) && (n <=? 244))%N then 4
  else 1.

(** The range [acceptRanges] gives for the second byte. *)
Definition accept (c1 c2 : ascii) : bool :=
  let a := N_of_ascii c1 in
  let b := N_of_ascii c2 in
  (if a =? 224 then (160 <=? b) && (b <=? 191)
   else if a =? 237 then (128 <=? b) && (b <=? 159)
   else if a =? 240 then (144 <=? b) && (b <=? 191)
   else if a =? 244 then (128 <=? b) && (b <=? 143)
   else (128 <=? b) && (b <=? 191))%N.

(** A continuation byte, between [locb] and [hicb]. *)
Definition cont (c : ascii) : bool :=
  let n := N_of_ascii c in ((128 <=? n) && (n <=? 191))%N.

(** [utf8.RuneCountInString]: a well-formed sequence counts once, and so
    does every byte that is part of none. *)
Fixpoint RuneCountInString (s : string) : Z :=
  match s with
  | EmptyString => 0
  | String c1 s1 =>
      1 + match size c1, s1 with
          | 2%nat, String c2 s2 =>
              if accept c1 c2 then RuneCountInString s2 else RuneCountInString s1
          | 3%nat, String c2 (String c3 s3) =>
              if accept c1 c2 && cont c3 then RuneCountInString s3 else RuneCountInString s1
          | 4%nat, String c2 (String c3 (String c4 s4)) =>
              if accept c1 c2 && cont c3 && cont c4
              then RuneCountInString s4 else RuneCountInString s1
          | _, _ => RuneCountInString s1
          end
  end.

End utf8.

Module fmt.

Definition newline : string := String (ascii_of_N 10) EmptyString.

(** The verb [%d] on an [int]. *)
Definition d (z : Z) : string := NilZero.string_of_int (Z.to_int z).

(** A verb with the flag [-] and a width: the text, then spaces up to
    the width, counted in runes. *)
Definition left (width : Z) (s : string) : string :=
  s +:+ strings.Repeat " " (Z.to_nat (width - utf8.RuneCountInString s)).

End fmt.

(** ** Errors, time and results *)

(** An [error] value is told apart by the place that made it. *)
Inductive error :=
| ErrExternal (msg : string)        (* made by a library: net/http, os, gzip, bufio, flock *)
| ErrNotExist (path : string)       (* os: the named file does not exist *)
| ErrCanceled                       (* context.Canceled *)
| ErrDeadlineExceeded               (* context.DeadlineExceeded *)
| ErrCorruptCache                   (* "corrupt cache removed" *)
| ErrCacheExpired                   (* "cache expired" *)
| ErrRenameTmp (file : string)      (* "failed to rename tmp cache file: %s" *)
| ErrNotModifiedNoCache             (* "304 received but no cache" *)
| ErrNotFound (url : string)        (* "404: Requested Package Contents Not Found: %s" *)
| ErrHTTPStatus (code : Z) (url : string) (* "HTTP %d at %s" *)
| ErrNilResponse.                   (* not an error value: the panic on a nil response *)

Inductive Result (A : Type) :=
| Ok (a : A)
| Err (e : error).
Arguments Ok {A} a.
Arguments Err {A} e.

Definition is_Ok {A} (r : Result A) : bool :=
  match r with Ok _ => true | Err _ => false end.

(** [time.Time]: an instant, in nanoseconds since 0001-01-01T00:00:00 UTC,
    so that the zero [Time] is 0.  [time.Duration]: an [int64] count of
    nanoseconds. *)
Definition Time := Z.
Definition Duration := Z.

Module time.
Definition Nanosecond : Duration := 1.
Definition Millisecond : Duration := 1000000.
Definition Second : Duration := 1000000000.
Definition Minute : Duration := 60 * Second.
Definition Hour : Duration := 60 * Minute.
Definition minDuration : Duration := - 2 ^ 63.
Definition maxDuration : Duration := 2 ^ 63 - 1.

(** [t.Sub(u)]: the difference, saturated to the range of [Duration]. *)
Definition Sub (t u : Time) : Duration :=
  Z.max minDuration (Z.min maxDuration (t - u)).

End time.

(** ** The world outside the process *)

Inductive Method := HEAD | GET.

Record Request := mkRequest {
  req_Method : Method;
  req_URL : string;
  If_None_Match : option string;
  If_Modified_Since : option string
}.

(** A response body as the gzip reader and the line scanner deliver it:
    the gzip header is rejected, or the scanner yields these lines and then
    stops, at the end of the input or on an error. *)
Inductive Body :=
| BadGzip (e : error)
| Lines (ls : list string) (stop : option error).

Record Response := mkResponse {
  StatusCode : Z;
  hdr_ETag : string;            (* Header.Get("ETag"), empty when absent *)
  hdr_Last_Modified : string;   (* Header.Get("Last-Modified") *)
  ContentLength : Z;
  resp_Body : Body
}.

Inductive FsOp :=
| OpReadFile (path : string)
| OpStat (path : string)
| OpRemove (path : string)
| OpCreate (path : string)
| OpWrite (path data : string)
| OpSync (path : string)
| OpClose (path : string)
| OpRename (old new : string).

Inductive Event :=
| EvFs (op : FsOp)
| EvHTTP (req : Request)
| EvSleep (d : Duration)
| EvScan
| EvTryLock (path : string)
| EvTryLockContext (path : string)
| EvUnlock (path : string).

(** What the outside world answers, given the effects issued so far (the
    newest first). *)
Record Env := mkEnv {
  time_Now : list Event -> Time;
  fs_fault : list Event -> FsOp -> option error;   (* the system refuses the call *)
  client_Do : list Event -> Request -> Result Response;
  ctx_Done : list Event -> option error;           (* the caller's context *)
  flock_TryLock : list Event -> string -> bool * option error;
  flock_TryLockContext : list Event -> string -> bool * option error;
  map_range : gmap string Z -> list (string * Z)   (* the order [range m] yields *)
}.


Record File := mkFile {
  File_data : string;
  modTime : Time
}.

Record World := mkWorld {
  files : gmap string File;
  trace : list Event
}.

Definition emit (ev : Event) (w : World) : World :=
  mkWorld (files w) (ev :: trace w).

Definition set_files (fs : gmap string File) (w : World) : World :=
  mkWorld fs (trace w).

Definition Now (env : Env) (w : World) : Time := time_Now env (trace w).

(** [time.Since(t)] *)
Definition Since (env : Env) (w : World) (t : Time) : Duration :=
  time.Sub (Now env w) t.

Definition Sleep (d : Duration) (w : World) : World := emit (EvSleep d) w.

(** [context.Context]: the caller's context, possibly under a deadline. *)
Record Context := mkContext {
  deadline : option Time
}.

Definition WithTimeout (env : Env) (ctx : Context) (timeout : Duration) (w : World) : Context :=
  let d := Now env w + timeout in
  match deadline ctx with
  | Some d0 => if d0 <? d then ctx else mkContext (Some d)
  | None => mkContext (Some d)
  end.

(** [ctx.Err()] *)
Definition ctx_Err (env : Env) (ctx : Context) (w : World) : option error :=
  match ctx_Done env (trace w) with
  | Some e => Some e
  | None =>
      match deadline ctx with
      | Some d => if d <=? Now env w then Some ErrDeadlineExceeded else None
      | None => None
      end
  end.

(** ** Package [os] on the file map *)

Module os.

(** One call: the system may refuse it; the call is recorded. *)
Definition call (env : Env) (op : FsOp) (w : World) : option error * World :=
  (fs_fault env (trace w) op, emit (EvFs op) w).

Definition ReadFile (env : Env) (name : string) (w : World) : Result string * World :=
  match call env (OpReadFile name) w with
  | (Some e, w) => (Err e, w)
  | (None, w) =>
      match files w !! name with
      | Some f => (Ok (File_data f), w)
      | None => (Err (ErrNotExist name), w)
      end
  end.

Definition Stat (env : Env) (name : string) (w : World) : Result Time * World :=
  match call env (OpStat name) w with
  | (Some e, w) => (Err e, w)
  | (None, w) =>
      match files w !! name with
      | Some f => (Ok (modTime f), w)
      | None => (Err (ErrNotExist name), w)
      end
  end.

Definition Remove (env : Env) (name : string) (w : World) : option error * World :=
  match call env (OpRemove name) w with
  | (Some e, w) => (Some e, w)
  | (None, w) =>
      match files w !! name with
      | Some _ => (None, set_files (delete name (files w)) w)
      | None => (Some (ErrNotExist name), w)
      end
  end.

(** [os.Create]: the file is created, or truncated. *)
Definition Create (env : Env) (name : string) (w : World) : option error * World :=
  match call env (OpCreate name) w with
  | (Some e, w) => (Some e, w)
  | (None, w) => (None, set_files (<[name := mkFile EmptyString (Now env w)]> (files w)) w)
  end.

(** [f.Write(b)] on the handle of [name]: the bytes go to the end. *)
Definition Write (env : Env) (name b : string) (w : World) : option error * World :=
  match call env (OpWrite name b) w with
  | (Some e, w) => (Some e, w)
  | (None, w) =>
      match files w !! name with
      | Some f => (None, set_files (<[name := mkFile (File_data f +:+ b) (Now env w)]> (files w)) w)
      | None => (None, w)
      end
  end.

Definition Sync (env : Env) (name : string) (w : World) : option error * World :=
  call env (OpSync name) w.

Definition Close (env : Env) (name : string) (w : World) : option error * World :=
  call env (OpClose name) w.

Definition Rename (env : Env) (old new : string) (w : World) : option error * World :=
  match call env (OpRename old new) w with
  | (Some e, w) => (Some e, w)
  | (None, w) =>
      match files w !! old with
      | Some f => (None, set_files (<[new := f]> (delete old (files w))) w)
      | None => (Some (ErrNotExist old), w)
      end
  end.

End os.

(** ** Package [cache] *)

Module cache.

Definition DefaultCacheTTL : Duration := 24 * time.Hour.
Definition LockTimeout : Duration := 30 * time.Second.
Definition LockStaleTTL : Duration := 1 * time.Hour.

Record PackageStats := mkPackageStats {
  Name : string;
  FileCount : Z
}.

Record CacheEntry := mkCacheEntry {
  Architecture : string;
  Stats : list PackageStats;
  Timestamp : Time;
  ETag : string;
  LastModified : string;
  URL : string;
  Checksum : string
}.

Definition set_Checksum (sum : string) (e : CacheEntry) : CacheEntry :=
  mkCacheEntry (Architecture e) (Stats e) (Timestamp e) (ETag e) (LastModified e) (URL e) sum.

(** The library functions the package calls on its data: [encoding/json]
    at the two types it serialises, and [crypto/md5] printed with [%x]. *)
Class Codec := {
  json_Marshal_Stats : list PackageStats -> Result string;  (* json.Marshal(entry.Stats) *)
  json_Encode : CacheEntry -> Result string;    (* the bytes enc.Encode(entry) writes, indent of two spaces *)
  json_Unmarshal : string -> Result CacheEntry; (* json.Unmarshal(data, &entry) on a zero entry *)
  md5_hex : string -> string                    (* fmt.Sprintf("%x", md5.Sum(data)) *)
}.

Section WithCodec.
Context `{Codec}.
Variable env : Env.

Definition LoadCache (file : string) (ttl : Duration) (w : World)
  : Result CacheEntry * World :=
  match os.ReadFile env file w with
  | (Err e, w) => (Err e, w)
  | (Ok data, w) =>
      match json_Unmarshal data with
      | Err _ =>
          let '(_, w) := os.Remove env file w in
          (Err ErrCorruptCache, w)
      | Ok entry =>
          if Since env w (Timestamp entry) >? ttl
          then (Err ErrCacheExpired, w)
          else (Ok entry, w)
      end
  end.

(** The loop [for i := 0; i < 5; i++] of [SaveCache], [n] rounds left. *)
Fixpoint rename_retry (tmp file : string) (n : nat) (w : World) : option error * World :=
  match n with
  | O => (Some (ErrRenameTmp file), w)
  | S n' =>
      match os.Rename env tmp file w with
      | (None, w) => (None, w)
      | (Some _, w) => rename_retry tmp file n' (Sleep (100 * time.Millisecond) w)
      end
  end.

(** The deferred function of [SaveCache]. *)
Definition SaveCache_deferred (tmp : string) (w : World) : World :=
  let '(_, w) := os.Close env tmp w in
  let '(_, w) := os.Remove env tmp w in
  w.

(** [SaveCache(file, entry)]: the error returned, the record [entry]
    points to as the call leaves it, and the world. *)
Definition SaveCache (file : string) (entry : CacheEntry) (w : World)
  : option error * CacheEntry * World :=
  match json_Marshal_Stats (Stats entry) with
  | Err e => (Some e, entry, w)
  | Ok data =>
      let entry := set_Checksum (md5_hex data) entry in
      let tmp := file +:+ ".tmp" in
      match os.Create env tmp w with
      | (Some e, w) => (Some e, entry, w)
      | (None, w) =>
          let '(err, w) :=
            match json_Encode entry with
            | Err e => (Some e, w)
            | Ok bytes =>
                match os.Write env tmp bytes w with
                | (Some e, w) => (Some e, w)
                | (None, w) =>
                    match os.Sync env tmp w with
                    | (Some e, w) => (Some e, w)
                    | (None, w) =>
                        match os.Close env tmp w with
                        | (Some e, w) => (Some e, w)
                        | (None, w) => rename_retry tmp file 5 w
                        end
                    end
                end
            end in
          (err, entry, SaveCache_deferred tmp w)
      end
  end.

Definition CleanupStaleLock (file : string) (ttl : Duration) (w : World) : World :=
  match os.Stat env file w with
  | (Ok mtime, w) =>
      if Since env w mtime >? ttl
      then let '(_, w) := os.Remove env file w in w
      else w
  | (Err _, w) => w
  end.

(** [*flock.Flock]: the lock on the file at this path. *)
Definition Flock := string.

(** [f.TryLock()]: the lock file is opened, created if missing. *)
Definition TryLock (f : Flock) (w : World) : bool * option error * World :=
  let '(locked, err) := flock_TryLock env (trace w) f in
  let w := emit (EvTryLock f) w in
  match err, files w !! f with
  | None, None => (locked, err, set_files (<[f := mkFile EmptyString (Now env w)]> (files w)) w)
  | _, _ => (locked, err, w)
  end.

Definition TryLockContext (f : Flock) (lockCtx : Context) (retryDelay : Duration) (w : World)
  : bool * option error * World :=
  let '(locked, err) := flock_TryLockContext env (trace w) f in
  (locked, err, emit (EvTryLockContext f) w).

Definition AcquireLockWithContext (ctx : Context) (file : string) (timeout : Duration)
    (w : World) : option Flock * option error * World :=
  let f := file in
  match TryLock f w with
  | (_, Some e, w) => (None, Some e, w)
  | (true, None, w) => (Some f, None, w)
  | (false, None, w) =>
      let lockCtx := WithTimeout env ctx timeout w in
      match TryLockContext f lockCtx timeout w with
      | (true, None, w) => (Some f, None, w)
      | (_, err, w) => (None, err, w)
      end
  end.

(** [AcquireLock]: the same under [context.Background()]. *)
Definition AcquireLock (file : string) (timeout : Duration) (w : World)
  : option Flock * option error * World :=
  AcquireLockWithContext (mkContext None) file timeout w.

Definition ReleaseLock (f : option Flock) (file : string) (w : World) : World :=
  match f with
  | None => w
  | Some f =>
      let w := emit (EvUnlock f) w in
      let '(_, w) := os.Remove env file w in
      w
  end.

End WithCodec.

End cache.

(** ** Package [app] *)

Module app.
Import cache.

Definition BaseURL_prefix : string := "http://ftp.uk.debian.org/debian/dists/stable/main/Contents-".
Definition BaseURL_suffix : string := ".gz".
Definition MaxRetries : Z := 3.

Record Config := mkConfig {
  cfg_Architecture : string;
  CacheDir : string;
  CacheTTL : Duration;
  ForceRefresh : bool;
  TopCount : Z;
  ShortCacheWindow : Duration;
  DownloadTimeout : Duration
}.

(** [m[pkg]++] *)
Definition incr (m : gmap string Z) (pkg : string) : gmap string Z :=
  <[pkg := wrap_int (default 0 (m !! pkg) + 1)]> m.

Definition ProcessLine (line : string) (m : gmap string Z) : gmap string Z :=
  let line := strings.TrimSpace line in
  if strings.isEmpty line || strings.HasPrefix line "FILE" then m
  else
    let idx := strings.Index line " " in
    if idx =? -1 then m
    else
      fold_left
        (fun m pkg =>
           let pkg := strings.TrimSpace pkg in
           if strings.isEmpty pkg then m else incr m pkg)
        (strings.Split (strings.TrimSpace (strings.from (Z.to_nat (idx + 1)) line)) ",")
        m.

(** The comparison handed to [sort.Slice]. *)
Definition less (a b : PackageStats) : bool := FileCount b <? FileCount a.

(** [sort.Slice] promises a sorted permutation and no stability.  Below
    twelve elements the library runs this insertion sort: each element
    moves left while it is [less] than its left neighbour.  The sorted
    prefix is kept reversed. *)
Fixpoint insert_left (lt : PackageStats -> PackageStats -> bool)
    (x : PackageStats) (racc : list PackageStats) : list PackageStats :=
  match racc with
  | [] => [x]
  | y :: rl => if lt x y then y :: insert_left lt x rl else x :: racc
  end.

Definition sort_Slice (lt : PackageStats -> PackageStats -> bool)
    (l : list PackageStats) : list PackageStats :=
  rev (fold_left (fun racc x => insert_left lt x racc) l []).

(** The body of [SortMap], on the sequence its [range] loop yields. *)
Definition SortMap_range (order : list (string * Z)) : list PackageStats :=
  let stats :=
    fold_left (fun stats kv => stats ++ [mkPackageStats (fst kv) (snd kv)]) order [] in
  sort_Slice less stats.

Definition SortMap (env : Env) (m : gmap string Z) : list PackageStats :=
  SortMap_range (map_range env m).

(** The results [SortMap(m)] can return, over all iteration orders. *)
Definition SortMap_returns (m : gmap string Z) (out : list PackageStats) : Prop :=
  exists order, Permutation order (map_to_list m) /\ out = SortMap_range order.

(** The name [PrintTop] shows: tabs replaced by spaces, then trimmed. *)
Definition cleanName (name : string) : string :=
  strings.TrimSpace (strings.ReplaceAll name (ascii_of_N 9) " ").

(** One line of the table: [Printf("%-5d %-40s %d\n", rank, name, count)]. *)
Definition PrintTop_row (rank : Z) (name : string) (count : Z) : string :=
  fmt.left 5 (fmt.d rank) +:+ " " +:+ fmt.left 40 name +:+ " " +:+ fmt.d count +:+ fmt.newline.

(** The loop of [PrintTop] from index [i], [n] rounds left.  [None] is
    the panic of an index out of range. *)
Fixpoint PrintTop_rows (stats : list PackageStats) (n : nat) (i : Z) : option (list string) :=
  match n with
  | O => Some []
  | S n' =>
      match stats !! Z.to_nat i with
      | None => None
      | Some p =>
          match PrintTop_rows stats n' (i + 1) with
          | Some rows =>
              Some (PrintTop_row (i + 1) (cleanName (Name p)) (FileCount p) :: rows)
          | None => None
          end
      end
  end.

(** [PrintTop(stats, top)]: what it writes to the standard output, one
    element for each call of [fmt]. *)
Definition PrintTop (stats : list PackageStats) (top : Z) : option (list string) :=
  let top := if Z.of_nat (length stats) <? top then Z.of_nat (length stats) else top in
  match PrintTop_rows stats (Z.to_nat top) 0 with
  | Some rows =>
      Some ((fmt.left 5 "Rank" +:+ " " +:+ fmt.left 30 "Package Name" +:+ " " +:+ "Count"
             +:+ fmt.newline)
            :: (strings.Repeat "-" 50 +:+ fmt.newline)
            :: rows)
  | None => None
  end.

Section WithEnv.
Context `{Codec}.
Variable env : Env.

(** The conditional headers both requests carry. *)
Definition conditional (method : Method) (url : string) (cached : option CacheEntry) : Request :=
  match cached with
  | Some c =>
      mkRequest method url
        (if strings.isEmpty (ETag c) then None else Some (ETag c))
        (if strings.isEmpty (LastModified c) then None else Some (LastModified c))
  | None => mkRequest method url None None
  end.

(** [client.Do(req)] *)
Definition Do (req : Request) (w : World) : Result Response * World :=
  (client_Do env (trace w) req, emit (EvHTTP req) w).

Definition HeadRequest (ctx : Context) (url : string) (cached : option CacheEntry)
    (w : World) : Result Response * World :=
  Do (conditional HEAD url cached) w.

(** The loop of [GetRequestWithRetry] from round [i], [n] rounds left;
    [err] is the error of the round before. *)
Fixpoint get_retry (ctx : Context) (url : string) (cached : option CacheEntry)
    (n : nat) (i : Z) (err : option error) (w : World)
  : option Response * option error * World :=
  match n with
  | O => (None, err, w)
  | S n' =>
      match ctx_Err env ctx w with
      | Some e => (None, Some e, w)
      | None =>
          match Do (conditional GET url cached) w with
          | (Ok resp, w) => (Some resp, None, w)
          | (Err e, w) =>
              if i <? MaxRetries - 1 then
                let w := Sleep (time.Second * 2 ^ i) w in
                match ctx_Err env ctx w with
                | Some e' => (None, Some e', w)
                | None => get_retry ctx url cached n' (i + 1) (Some e) w
                end
              else get_retry ctx url cached n' (i + 1) (Some e) w
          end
      end
  end.

Definition GetRequestWithRetry (ctx : Context) (url : string) (cached : option CacheEntry)
    (w : World) : option Response * option error * World :=
  get_retry ctx url cached (Z.to_nat MaxRetries) 0 None w.

(** The scanning loop of [Download]: one [scanner.Scan()] per round. *)
Fixpoint scan (ctx : Context) (ls : list string) (stop : option error)
    (lineCount : Z) (counts : gmap string Z) (w : World)
  : Result (gmap string Z) * World :=
  let w := emit EvScan w in
  match ls with
  | [] =>
      match stop with
      | Some e => (Err e, w)
      | None => (Ok counts, w)
      end
  | line :: ls' =>
      match (if lineCount mod 1000 =? 0 then ctx_Err env ctx w else None) with
      | Some e => (Err e, w)
      | None => scan ctx ls' stop (wrap_int (lineCount + 1)) (ProcessLine line counts) w
      end
  end.

(** [Download], step 2: GET with retries, then the status and the body. *)
Definition Download_get (ctx : Context) (url : string) (cached : option CacheEntry) (w : World)
  : Result (list PackageStats * string * string) * World :=
  match GetRequestWithRetry ctx url cached w with
  | (_, Some err, w) =>
      match cached with
      | Some c => (Ok (Stats c, ETag c, LastModified c), w)
      | None => (Err err, w)
      end
  | (None, None, w) => (Err ErrNilResponse, w)
  | (Some resp, None, w) =>
      if StatusCode resp =? 200 then
        let etag := hdr_ETag resp in
        let lastMod := hdr_Last_Modified resp in
        match resp_Body resp with
        | BadGzip e => (Err e, w)
        | Lines ls stop =>
            match scan ctx ls stop 0 ∅ w with
            | (Err e, w) => (Err e, w)
            | (Ok counts, w) => (Ok (SortMap env counts, etag, lastMod), w)
            end
        end
      else if StatusCode resp =? 304 then
        match cached with
        | Some c => (Ok (Stats c, ETag c, LastModified c), w)
        | None => (Err ErrNotModifiedNoCache, w)
        end
      else if StatusCode resp =? 404 then (Err (ErrNotFound url), w)
      else (Err (ErrHTTPStatus (StatusCode resp) url), w)
  end.

(** [Download], step 1: HEAD; the cached record is returned when the
    remote reports it unchanged. *)
Definition Download (ctx : Context) (url : string) (cached : option CacheEntry) (w : World)
  : Result (list PackageStats * string * string) * World :=
  let '(head, w) := HeadRequest ctx url cached w in
  let unchanged :=
    match head, cached with
    | Ok headResp, Some c =>
        (StatusCode headResp =? 304)
        || (String.eqb (hdr_ETag headResp) (ETag c)
            && String.eqb (hdr_Last_Modified headResp) (LastModified c))
    | _, _ => false
    end in
  match unchanged, cached with
  | true, Some c => (Ok (Stats c, ETag c, LastModified c), w)
  | _, _ => Download_get ctx url cached w
  end.

Definition cacheFile (cfg : Config) : string :=
  CacheDir cfg +:+ "/contents-" +:+ cfg_Architecture cfg +:+ ".json".

Definition lockFile (cfg : Config) : string := cacheFile cfg +:+ ".lock".

(** [fmt.Sprintf(BaseURL, a.cfg.Architecture)] *)
Definition url_of (cfg : Config) : string :=
  BaseURL_prefix +:+ cfg_Architecture cfg +:+ BaseURL_suffix.

(** [AnalyzeWithCache], first part: clean up an old lock, take the lock. *)
Definition acquire (cfg : Config) (ctx : Context) (w : World)
  : option Flock * option error * World :=
  let w := CleanupStaleLock env (lockFile cfg) LockStaleTTL w in
  AcquireLockWithContext env ctx (lockFile cfg) LockTimeout w.

(** Second part: [cached, _ = cache.LoadCache(...)] unless the refresh
    is forced. *)
Definition load_existing (cfg : Config) (w : World) : option CacheEntry * World :=
  if ForceRefresh cfg then (None, w)
  else match LoadCache env (cacheFile cfg) (CacheTTL cfg) w with
       | (Ok entry, w) => (Some entry, w)
       | (Err _, w) => (None, w)
       end.

Definition download_ctx (cfg : Config) (ctx : Context) (w : World) : Context :=
  if DownloadTimeout cfg >? 0
  then WithTimeout env ctx (DownloadTimeout cfg) w
  else ctx.

(** The record built after a download. *)
Definition new_entry (cfg : Config) (stats : list PackageStats) (etag lastMod : string)
    (w : World) : CacheEntry :=
  mkCacheEntry (cfg_Architecture cfg) stats (Now env w) etag lastMod (url_of cfg) EmptyString.

(** Third part: the short cache window, the download, the save. *)
Definition resolve (cfg : Config) (ctx : Context) (cached : option CacheEntry) (w : World)
  : Result (list PackageStats) * World :=
  let recent :=
    match cached with
    | Some c => (ShortCacheWindow cfg >? 0)
                && (Since env w (Timestamp c) <? ShortCacheWindow cfg)
    | None => false
    end in
  match recent, cached with
  | true, Some c => (Ok (Stats c), w)
  | _, _ =>
      match Download (download_ctx cfg ctx w) (url_of cfg) cached w, cached with
      | (Err _, w), Some c => (Ok (Stats c), w)
      | (Err err, w), None => (Err err, w)
      | (Ok (stats, etag, lastMod), w), _ =>
          let '(_, _, w) :=
            SaveCache env (cacheFile cfg) (new_entry cfg stats etag lastMod w) w in
          (Ok stats, w)
      end
  end.

(** The lock is released on every return that follows its acquisition. *)
Definition AnalyzeWithCache (cfg : Config) (ctx : Context) (w : World)
  : Result (list PackageStats) * World :=
  match acquire cfg ctx w with
  | (_, Some err, w) => (Err err, w)
  | (lock, None, w) =>
      let '(cached, w) := load_existing cfg w in
      let '(result, w) := resolve cfg ctx cached w in
      (result, ReleaseLock env lock (lockFile cfg) w)
  end.

End WithEnv.

End app.

(** ** The library codec: a JSON reader and writer, and MD5

    An instance of [cache.Codec] to run the program on concrete files: the
    JSON text [encoding/json] writes for a [CacheEntry] (indented by two
    spaces, HTML-sensitive bytes escaped, RFC 3339 time stamps in UTC), a
    reader for JSON documents with integer numbers, and MD5 (RFC 1321). *)

Module json.
Import cache.

Inductive value :=
| JNull
| JBool (b : bool)
| JNum (z : Z)
| JStr (s : string)
| JArr (l : list value)
| JObj (l : list (string * value)).

Definition quote : ascii := ascii_of_N 34.
Definition backslash : ascii := ascii_of_N 92.
Definition newline : string := String (ascii_of_N 10) EmptyString.

(** *** Writer *)

Definition hex_digit (n : N) : ascii :=
  if (n <? 10)%N then ascii_of_N (48 + n) else ascii_of_N (87 + n).

(** [\u00XX] *)
Definition u00 (n : N) : string :=
  String backslash (String "u" (String "0" (String "0"
    (String (hex_digit (n / 16)) (String (hex_digit (n mod 16)) EmptyString))))).

Definition escape_byte (c : ascii) : string :=
  let n := N_of_ascii c in
  if (n =? 34)%N then String backslash (String quote EmptyString)
  else if (n =? 92)%N then String backslash (String backslash EmptyString)
  else if (n =? 10)%N then String backslash "n"
  else if (n =? 13)%N then String backslash "r"
  else if (n =? 9)%N then String backslash "t"
  else if (n =? 8)%N then String backslash "b"
  else if (n =? 12)%N then String backslash "f"
  else if (n <? 32)%N || (n =? 60)%N || (n =? 62)%N || (n =? 38)%N then u00 n
  else String c EmptyString.

(** UTF-8: a continuation byte, and the well-formed sequences of two,
    three and four bytes. *)
Definition cont (c : ascii) : bool :=
  let n := N_of_ascii c in ((128 <=? n) && (n <=? 191))%N.

Definition utf8_2 (c1 c2 : ascii) : bool :=
  let a := N_of_ascii c1 in ((194 <=? a) && (a <=? 223))%N && cont c2.

Definition utf8_3 (c1 c2 c3 : ascii) : bool :=
  let a := N_of_ascii c1 in
  let b := N_of_ascii c2 in
  (((a =? 224) && (160 <=? b) && (b <=? 191))
   || ((225 <=? a) && (a <=? 236) && cont c2)
   || ((a =? 237) && (128 <=? b) && (b <=? 159))
   || ((238 <=? a) && (a <=? 239) && cont c2))%N
  && cont c3.

Definition utf8_4 (c1 c2 c3 c4 : ascii) : bool :=
  let a := N_of_ascii c1 in
  let b := N_of_ascii c2 in
  (((a =? 240) && (144 <=? b) && (b <=? 191))
   || ((241 <=? a) && (a <=? 243) && cont c2)
   || ((a =? 244) && (128 <=? b) && (b <=? 143)))%N
  && cont c3 && cont c4.

(** U+2028 and U+2029, which the encoder escapes. *)
Definition line_sep (c1 c2 c3 : ascii) : bool :=
  let c := N_of_ascii c3 in
  ((N_of_ascii c1 =? 226) && (N_of_ascii c2 =? 128) && ((c =? 168) || (c =? 169)))%N.

(** [\u202X] *)
Definition u202 (c3 : ascii) : string :=
  String backslash (String "u" (String "2" (String "0" (String "2"
    (String (hex_digit (N_of_ascii c3 mod 16)) EmptyString))))).

(** [\ufffd], written for a byte that is not part of well-formed UTF-8. *)
Definition ufffd : string :=
  String backslash "ufffd".

(** The body of a string literal: bytes below 0x80 by [escape_byte],
    well-formed sequences as they are. *)
Fixpoint escape (s : string) : string :=
  match s with
  | EmptyString => EmptyString
  | String c1 s1 =>
      if (N_of_ascii c1 <? 128)%N then escape_byte c1 +:+ escape s1
      else
        match s1 with
        | String c2 s2 =>
            if utf8_2 c1 c2 then String c1 (String c2 (escape s2))
            else
              match s2 with
              | String c3 s3 =>
                  if utf8_3 c1 c2 c3 then
                    (if line_sep c1 c2 c3 then u202 c3
                     else String c1 (String c2 (String c3 EmptyString)))
                    +:+ escape s3
                  else
                    match s3 with
                    | String c4 s4 =>
                        if utf8_4 c1 c2 c3 c4
                        then String c1 (String c2 (String c3 (String c4 (escape s4))))
                        else ufffd +:+ escape s1
                    | EmptyString => ufffd +:+ escape s1
                    end
              | EmptyString => ufffd +:+ escape s1
              end
        | EmptyString => ufffd +:+ escape s1
        end
  end.

(** Well-formed UTF-8. *)
Fixpoint valid_utf8 (s : string) : bool :=
  match s with
  | EmptyString => true
  | String c1 s1 =>
      if (N_of_ascii c1 <? 128)%N then valid_utf8 s1
      else
        match s1 with
        | String c2 s2 =>
            if utf8_2 c1 c2 then valid_utf8 s2
            else
              match s2 with
              | String c3 s3 =>
                  if utf8_3 c1 c2 c3 then valid_utf8 s3
                  else
                    match s3 with
                    | String c4 s4 => utf8_4 c1 c2 c3 c4 && valid_utf8 s4
                    | EmptyString => false
                    end
              | EmptyString => false
              end
        | EmptyString => false
        end
  end.

Definition write_string (s : string) : string :=
  String quote (escape s +:+ String quote EmptyString).

Definition write_int (z : Z) : string := NilZero.string_of_int (Z.to_int z).

Fixpoint indent (n : nat) : string :=
  match n with O => EmptyString | S n' => "  " +:+ indent n' end.

Definition sep (n : nat) : string := "," +:+ newline +:+ indent n.

Fixpoint concat_str (l : list string) : string :=
  match l with
  | [] => EmptyString
  | s :: l' => s +:+ concat_str l'
  end.

(** The indented text of a value at nesting depth [n]. *)
Fixpoint write (n : nat) (v : value) : string :=
  match v with
  | JNull => "null"
  | JBool true => "true"
  | JBool false => "false"
  | JNum z => write_int z
  | JStr s => write_string s
  | JArr [] => "[]"
  | JArr (x :: l) =>
      "[" +:+ newline +:+ indent (S n) +:+ write (S n) x
      +:+ concat_str (map (fun y => sep (S n) +:+ write (S n) y) l)
      +:+ newline +:+ indent n +:+ "]"
  | JObj [] => "{}"
  | JObj (kx :: l) =>
      "{" +:+ newline +:+ indent (S n) +:+ write_string (fst kx) +:+ ": " +:+ write (S n) (snd kx)
      +:+ concat_str
            (map (fun ky => sep (S n) +:+ write_string (fst ky) +:+ ": " +:+ write (S n) (snd ky)) l)
      +:+ newline +:+ indent n +:+ "}"
  end.

(** *** Reader *)

Definition is_ws (c : ascii) : bool :=
  let n := N_of_ascii c in ((n =? 32) || (n =? 9) || (n =? 10) || (n =? 13))%N.

Fixpoint skip_ws (s : string) : string :=
  match s with
  | String c r => if is_ws c then skip_ws r else s
  | EmptyString => s
  end.

Definition is_digit (c : ascii) : bool :=
  let n := N_of_ascii c in ((48 <=? n) && (n <=? 57))%N.

Definition digit_val (c : ascii) : Z := Z.of_N (N_of_ascii c) - 48.

Fixpoint read_digits (s : string) (acc : Z) : Z * string :=
  match s with
  | String c r => if is_digit c then read_digits r (acc * 10 + digit_val c) else (acc, s)
  | EmptyString => (acc, s)
  end.

Definition starts_digit (s : string) : bool :=
  match s with String c _ => is_digit c | EmptyString => false end.

(** Digits; a fraction or an exponent after them is refused. *)
Definition read_nat (s : string) : option (Z * string) :=
  if starts_digit s then
    let '(z, r) := read_digits s 0 in
    match r with
    | String "." _ | String "e" _ | String "E" _ => None
    | _ => Some (z, r)
    end
  else None.

(** An integer literal. *)
Definition read_int (s : string) : option (Z * string) :=
  match s with
  | String "-" r =>
      match read_nat r with
      | Some (z, r') => Some (- z, r')
      | None => None
      end
  | _ => read_nat s
  end.

Definition hex_val (c : ascii) : option N :=
  let n := N_of_ascii c in
  if ((48 <=? n) && (n <=? 57))%N then Some (n - 48)%N
  else if ((97 <=? n) && (n <=? 102))%N then Some (n - 87)%N
  else if ((65 <=? n) && (n <=? 70))%N then Some (n - 55)%N
  else None.

(** UTF-8 of a code point below U+10000. *)
Definition utf8 (r : N) : string :=
  if (r <? 128)%N then String (ascii_of_N r) EmptyString
  else if (r <? 2048)%N then
    String (ascii_of_N (192 + r / 64)) (String (ascii_of_N (128 + r mod 64)) EmptyString)
  else
    String (ascii_of_N (224 + r / 4096))
      (String (ascii_of_N (128 + (r / 64) mod 64))
         (String (ascii_of_N (128 + r mod 64)) EmptyString)).

(** The rest of a string literal, after its opening quote. *)
Fixpoint read_string (s : string) : option (string * string) :=
  match s with
  | EmptyString => None
  | String c r =>
      if Ascii.eqb c quote then Some (EmptyString, r)
      else if Ascii.eqb c backslash then
        match r with
        | String e r1 =>
            let lit (b : N) :=
              match read_string r1 with
              | Some (t, r2) => Some (String (ascii_of_N b) t, r2)
              | None => None
              end in
            if Ascii.eqb e quote then lit 34%N
            else if Ascii.eqb e backslash then lit 92%N
            else if Ascii.eqb e "/" then lit 47%N
            else if Ascii.eqb e "n" then lit 10%N
            else if Ascii.eqb e "r" then lit 13%N
            else if Ascii.eqb e "t" then lit 9%N
            else if Ascii.eqb e "b" then lit 8%N
            else if Ascii.eqb e "f" then lit 12%N
            else if Ascii.eqb e "u" then
              match r1 with
              | String h1 (String h2 (String h3 (String h4 r2))) =>
                  match hex_val h1, hex_val h2, hex_val h3, hex_val h4, read_string r2 with
                  | Some a, Some b, Some c', Some d, Some (t, r3) =>
                      Some (utf8 (((a * 16 + b) * 16 + c') * 16 + d) +:+ t, r3)
                  | _, _, _, _, _ => None
                  end
              | _ => None
              end
            else None
        | EmptyString => None
        end
      else if (N_of_ascii c <? 32)%N then None
      else match read_string r with
           | Some (t, r') => Some (String c t, r')
           | None => None
           end
  end.

Definition expect (lit : string) (s : string) : option string :=
  if String.prefix lit s then Some (strings.from (String.length lit) s) else None.

(** One value, then the elements of an array after its first, then the
    members of an object after its first. *)
Fixpoint read (fuel : nat) (s : string) : option (value * string) :=
  match fuel with
  | O => None
  | S fuel =>
      match skip_ws s with
      | String "n" _ => option_map (pair JNull) (expect "null" (skip_ws s))
      | String "t" _ => option_map (pair (JBool true)) (expect "true" (skip_ws s))
      | String "f" _ => option_map (pair (JBool false)) (expect "false" (skip_ws s))
      | String "[" r =>
          match skip_ws r with
          | String "]" r' => Some (JArr [], r')
          | _ =>
              match read fuel r with
              | Some (x, r1) =>
                  match read_elems fuel r1 with
                  | Some (l, r2) => Some (JArr (x :: l), r2)
                  | None => None
                  end
              | None => None
              end
          end
      | String "{" r =>
          match skip_ws r with
          | String "}" r' => Some (JObj [], r')
          | _ =>
              match read_member fuel r with
              | Some (kx, r1) =>
                  match read_members fuel r1 with
                  | Some (l, r2) => Some (JObj (kx :: l), r2)
                  | None => None
                  end
              | None => None
              end
          end
      | String c r =>
          if Ascii.eqb c quote then
            match read_string r with
            | Some (t, r') => Some (JStr t, r')
            | None => None
            end
          else
            match read_int (skip_ws s) with
            | Some (z, r') => Some (JNum z, r')
            | None => None
            end
      | EmptyString => None
      end
  end
with read_elems (fuel : nat) (s : string) : option (list value * string) :=
  match fuel with
  | O => None
  | S fuel =>
      match skip_ws s with
      | String "]" r => Some ([], r)
      | String "," r =>
          match read fuel r with
          | Some (x, r1) =>
              match read_elems fuel r1 with
              | Some (l, r2) => Some (x :: l, r2)
              | None => None
              end
          | None => None
          end
      | _ => None
      end
  end
with read_member (fuel : nat) (s : string) : option ((string * value) * string) :=
  match fuel with
  | O => None
  | S fuel =>
      match skip_ws s with
      | String c r =>
          if Ascii.eqb c quote then
            match read_string r with
            | Some (k, r1) =>
                match skip_ws r1 with
                | String ":" r2 =>
                    match read fuel r2 with
                    | Some (x, r3) => Some ((k, x), r3)
                    | None => None
                    end
                | _ => None
                end
            | None => None
            end
          else None
      | EmptyString => None
      end
  end
with read_members (fuel : nat) (s : string) : option (list (string * value) * string) :=
  match fuel with
  | O => None
  | S fuel =>
      match skip_ws s with
      | String "}" r => Some ([], r)
      | String "," r =>
          match read_member fuel r with
          | Some (kx, r1) =>
              match read_members fuel r1 with
              | Some (l, r2) => Some (kx :: l, r2)
              | None => None
              end
          | None => None
          end
      | _ => None
      end
  end.

(** A whole document: one value and nothing but white space after it. *)
Definition parse (s : string) : option value :=
  match read (S (String.length s)) s with
  | Some (v, r) => if strings.isEmpty (skip_ws r) then Some v else None
  | None => None
  end.

End json.

(** *** MD5 (RFC 1321), on 32-bit words as [N] *)

Module md5.

Definition w32 (n : N) : N := (n mod 2 ^ 32)%N.

Definition rotl (x c : N) : N :=
  w32 (N.lor (N.shiftl x c) (N.shiftr (w32 x) (32 - c))).

Definition K : list N :=
  [
    0xd76aa478; 0xe8c7b756; 0x242070db; 0xc1bdceee;
    0xf57c0faf; 0x4787c62a; 0xa8304613; 0xfd469501;
    0x698098d8; 0x8b44f7af; 0xffff5bb1; 0x895cd7be;
    0x6b901122; 0xfd987193; 0xa679438e; 0x49b40821;
    0xf61e2562; 0xc040b340; 0x265e5a51; 0xe9b6c7aa;
    0xd62f105d; 0x02441453; 0xd8a1e681; 0xe7d3fbc8;
    0x21e1cde6; 0xc33707d6; 0xf4d50d87; 0x455a14ed;
    0xa9e3e905; 0xfcefa3f8; 0x676f02d9; 0x8d2a4c8a;
    0xfffa3942; 0x8771f681; 0x6d9d6122; 0xfde5380c;
    0xa4beea44; 0x4bdecfa9; 0xf6bb4b60; 0xbebfbc70;
    0x289b7ec6; 0xeaa127fa; 0xd4ef3085; 0x04881d05;
    0xd9d4d039; 0xe6db99e5; 0x1fa27cf8; 0xc4ac5665;
    0xf4292244; 0x432aff97; 0xab9423a7; 0xfc93a039;
    0x655b59c3; 0x8f0ccc92; 0xffeff47d; 0x85845dd1;
    0x6fa87e4f; 0xfe2ce6e0; 0xa3014314; 0x4e0811a1;
    0xf7537e82; 0xbd3af235; 0x2ad7d2bb; 0xeb86d391
  ]%N.

Definition shifts : list N :=
  [7; 12; 17; 22; 7; 12; 17; 22; 7; 12; 17; 22; 7; 12; 17; 22;
   5; 9; 14; 20; 5; 9; 14; 20; 5; 9; 14; 20; 5; 9; 14; 20;
   4; 11; 16; 23; 4; 11; 16; 23; 4; 11; 16; 23; 4; 11; 16; 23;
   6; 10; 15; 21; 6; 10; 15; 21; 6; 10; 15; 21; 6; 10; 15; 21]%N.

Definition not32 (x : N) : N := (2 ^ 32 - 1 - w32 x)%N.

(** One of the 64 operations of a block, on the state [(A, B, C, D)]. *)
Definition op (M : list N) (i : nat) (st : N * N * N * N) : N * N * N * N :=
  let '(A, B, C, D) := st in
  let '(F, g) :=
    if (i <? 16)%nat then (N.lor (N.land B C) (N.land (not32 B) D), i)
    else if (i <? 32)%nat then (N.lor (N.land D B) (N.land (not32 D) C), ((5 * i + 1) mod 16)%nat)
    else if (i <? 48)%nat then (N.lxor (N.lxor B C) D, ((3 * i + 5) mod 16)%nat)
    else (N.lxor C (N.lor B (not32 D)), ((7 * i) mod 16)%nat) in
  let F := w32 (F + A + nth i K 0 + nth g M 0)%N in
  (D, w32 (B + rotl F (nth i shifts 0))%N, B, C).

Definition block (M : list N) (st : N * N * N * N) : N * N * N * N :=
  let '(A0, B0, C0, D0) := st in
  let '(A, B, C, D) := fold_left (fun st i => op M i st) (seq 0 64) st in
  (w32 (A0 + A), w32 (B0 + B), w32 (C0 + C), w32 (D0 + D))%N.

(** Little-endian 32-bit words of a byte list. *)
Fixpoint words (bs : list N) : list N :=
  match bs with
  | a :: b :: c :: d :: r => (a + 256 * (b + 256 * (c + 256 * d)))%N :: words r
  | _ => []
  end.

Fixpoint le_bytes (n : nat) (x : N) : list N :=
  match n with
  | O => []
  | S n' => (x mod 256)%N :: le_bytes n' (x / 256)%N
  end.

Definition pad (bs : list N) : list N :=
  let len := List.length bs in
  let zeros := ((55 + 64 - len mod 64) mod 64)%nat in
  bs ++ [128%N] ++ repeat 0%N zeros ++ le_bytes 8 (8 * N.of_nat len).

Fixpoint blocks (n : nat) (ws : list N) (st : N * N * N * N) : N * N * N * N :=
  match n with
  | O => st
  | S n' => blocks n' (skipn 16 ws) (block (firstn 16 ws) st)
  end.

Fixpoint bytes_of (s : string) : list N :=
  match s with
  | EmptyString => []
  | String c r => N_of_ascii c :: bytes_of r
  end.

(** [md5.Sum(data)]: the sixteen bytes of the digest. *)
Definition Sum (data : string) : list N :=
  let ws := words (pad (bytes_of data)) in
  let '(A, B, C, D) :=
    blocks (List.length ws / 16) ws
      (0x67452301, 0xefcdab89, 0x98badcfe, 0x10325476)%N in
  le_bytes 4 A ++ le_bytes 4 B ++ le_bytes 4 C ++ le_bytes 4 D.

(** [fmt.Sprintf("%x", sum)] *)
Fixpoint hex (bs : list N) : string :=
  match bs with
  | [] => EmptyString
  | b :: r => String (json.hex_digit (b / 16)) (String (json.hex_digit (b mod 16)) (hex r))
  end.

End md5.

(** *** Time stamps: RFC 3339 in UTC, as [Time.MarshalJSON] writes them *)

Module rfc3339.

(** The proleptic Gregorian calendar in eras of 400 years, which begin on
    a first of March.  Day of the era to year of the era, month and day,
    and back. *)
Definition doe_to_ymd (doe : Z) : Z * Z * Z :=
  let yoe := (doe - doe / 1460 + doe / 36524 - doe / 146096) / 365 in
  let doy := doe - (365 * yoe + yoe / 4 - yoe / 100) in
  let mp := (5 * doy + 2) / 153 in
  let d := doy - (153 * mp + 2) / 5 + 1 in
  let m := if mp <? 10 then mp + 3 else mp - 9 in
  (yoe, m, d).

Definition ymd_to_doe (yoe m d : Z) : Z :=
  let doy := (153 * (if m >? 2 then m - 3 else m + 9) + 2) / 5 + d - 1 in
  yoe * 365 + yoe / 4 - yoe / 100 + doy.

(** Days since 1970-01-01 to year, month, day, and back. *)
Definition civil_from_days (z : Z) : Z * Z * Z :=
  let z := z + 719468 in
  let era := z / 146097 in
  let '(yoe, m, d) := doe_to_ymd (z mod 146097) in
  (yoe + era * 400 + (if m <=? 2 then 1 else 0), m, d).

Definition days_from_civil (y m d : Z) : Z :=
  let y := y - (if m <=? 2 then 1 else 0) in
  (y / 400) * 146097 + ymd_to_doe (y mod 400) m d - 719468.

(** Days from 0001-01-01 to 1970-01-01. *)
Definition unix_epoch_day : Z := 719162.

Fixpoint fixed (width : nat) (z : Z) : string :=
  match width with
  | O => EmptyString
  | S w => fixed w (z / 10) +:+ String (ascii_of_N (48 + Z.to_N (z mod 10))) EmptyString
  end.

Fixpoint strip_zeros (s : string) : string :=
  match s with
  | EmptyString => EmptyString
  | String c r =>
      let r' := strip_zeros r in
      if strings.isEmpty r' && Ascii.eqb c "0" then EmptyString else String c r'
  end.

(** [None] when the year is outside [0, 9999]. *)
Definition format (t : Time) : option string :=
  let secs := t / 1000000000 in
  let nsec := t mod 1000000000 in
  let '(y, m, d) := civil_from_days (secs / 86400 - unix_epoch_day) in
  let rem := secs mod 86400 in
  if (y <? 0) || (9999 <? y) then None
  else
    Some (fixed 4 y +:+ "-" +:+ fixed 2 m +:+ "-" +:+ fixed 2 d +:+ "T"
          +:+ fixed 2 (rem / 3600) +:+ ":" +:+ fixed 2 (rem / 60 mod 60) +:+ ":"
          +:+ fixed 2 (rem mod 60)
          +:+ (if nsec =? 0 then EmptyString else "." +:+ strip_zeros (fixed 9 nsec))
          +:+ "Z").

(** Exactly [n] digits. *)
Fixpoint digits (n : nat) (s : string) (acc : Z) : option (Z * string) :=
  match n with
  | O => Some (acc, s)
  | S n' =>
      match s with
      | String c r =>
          if json.is_digit c then digits n' r (acc * 10 + json.digit_val c) else None
      | EmptyString => None
      end
  end.

Definition lit (c : ascii) (s : string) : option string :=
  match s with
  | String c' r => if Ascii.eqb c c' then Some r else None
  | EmptyString => None
  end.

(** The fraction of a second: nothing, or a point and one to nine digits. *)
Definition fraction (s : string) : option (Z * string) :=
  match s with
  | String "." r =>
      let '(v, r') := json.read_digits r 0 in
      let k := (String.length r - String.length r')%nat in
      if ((1 <=? k) && (k <=? 9))%nat then Some (v * 10 ^ Z.of_nat (9 - k), r') else None
  | _ => Some (0, s)
  end.

(** A time in UTC, written with the zone [Z]. *)
Definition parse (s : string) : option Time :=
  match digits 4 s 0 with
  | Some (y, s) =>
  match lit "-" s with
  | Some s =>
  match digits 2 s 0 with
  | Some (m, s) =>
  match lit "-" s with
  | Some s =>
  match digits 2 s 0 with
  | Some (d, s) =>
  match lit "T" s with
  | Some s =>
  match digits 2 s 0 with
  | Some (hh, s) =>
  match lit ":" s with
  | Some s =>
  match digits 2 s 0 with
  | Some (mi, s) =>
  match lit ":" s with
  | Some s =>
  match digits 2 s 0 with
  | Some (ss, s) =>
  match fraction s with
  | Some (nsec, s) =>
      let day := days_from_civil y m d in
      let '(y', m', d') := civil_from_days day in
      if (y =? y') && (m =? m') && (d =? d') && (hh <? 24) && (mi <? 60) && (ss <? 60)
         && String.eqb s "Z"
      then Some ((((day + unix_epoch_day) * 86400 + hh * 3600 + mi * 60 + ss) * 1000000000) + nsec)
      else None
  | None => None end
  | None => None end
  | None => None end
  | None => None end
  | None => None end
  | None => None end
  | None => None end
  | None => None end
  | None => None end
  | None => None end
  | None => None end
  | None => None end.

End rfc3339.

(** *** [CacheEntry] to JSON and back, by the field tags of the struct *)

Module gojson.
Import cache json.

Definition stat_value (p : PackageStats) : value :=
  JObj [("name"%string, JStr (Name p)); ("file_count"%string, JNum (FileCount p))].

Definition omitempty (key s : string) : list (string * value) :=
  if strings.isEmpty s then [] else [(key, JStr s)].

Definition entry_value (e : CacheEntry) : option value :=
  match rfc3339.format (Timestamp e) with
  | None => None
  | Some ts =>
      Some (JObj ([("architecture"%string, JStr (Architecture e));
                   ("stats"%string, JArr (map stat_value (Stats e)));
                   ("timestamp"%string, JStr ts)]
                  ++ omitempty "etag" (ETag e)
                  ++ omitempty "last_modified" (LastModified e)
                  ++ [("url"%string, JStr (URL e))]
                  ++ omitempty "checksum" (Checksum e)))
  end.

(** The text without white space, as [json.Marshal] writes it. *)
Fixpoint compact (v : value) : string :=
  match v with
  | JNull => "null"
  | JBool true => "true"
  | JBool false => "false"
  | JNum z => write_int z
  | JStr s => write_string s
  | JArr [] => "[]"
  | JArr (x :: l) =>
      "[" +:+ compact x +:+ concat_str (map (fun y => "," +:+ compact y) l) +:+ "]"
  | JObj [] => "{}"
  | JObj (kx :: l) =>
      "{" +:+ write_string (fst kx) +:+ ":" +:+ compact (snd kx)
      +:+ concat_str (map (fun ky => "," +:+ write_string (fst ky) +:+ ":" +:+ compact (snd ky)) l)
      +:+ "}"
  end.

Definition Marshal_Stats (stats : list PackageStats) : Result string :=
  Ok (compact (JArr (map stat_value stats))).

(** [enc.Encode(entry)] with an empty prefix and a two-space indent: the text and a newline. *)
Definition Encode (e : CacheEntry) : Result string :=
  match entry_value e with
  | Some v => Ok (write 0 v +:+ newline)
  | None => Err (ErrExternal "Time.MarshalJSON: year outside of range [0,9999]")
  end.

Definition type_error : error := ErrExternal "json: cannot unmarshal value into Go struct field".

(** A string field: [null] leaves it as it is. *)
Definition string_field (v : value) (old : string) : Result string :=
  match v with
  | JStr s => Ok s
  | JNull => Ok old
  | _ => Err type_error
  end.

Definition in_int64 (z : Z) : bool := (- 2 ^ 63 <=? z) && (z <? 2 ^ 63).

Definition stat_member (kv : string * value) (r : Result PackageStats) : Result PackageStats :=
  match r with
  | Err e => Err e
  | Ok p =>
      if String.eqb (fst kv) "name" then
        match string_field (snd kv) (Name p) with
        | Ok s => Ok (mkPackageStats s (FileCount p))
        | Err e => Err e
        end
      else if String.eqb (fst kv) "file_count" then
        match snd kv with
        | JNum z => if in_int64 z then Ok (mkPackageStats (Name p) z) else Err type_error
        | JNull => Ok p
        | _ => Err type_error
        end
      else Ok p
  end.

Definition stat_of (v : value) : Result PackageStats :=
  let zero := mkPackageStats EmptyString 0 in
  match v with
  | JObj members => fold_left (fun r kv => stat_member kv r) members (Ok zero)
  | JNull => Ok zero
  | _ => Err type_error
  end.

Fixpoint stats_of (l : list value) : Result (list PackageStats) :=
  match l with
  | [] => Ok []
  | v :: l' =>
      match stat_of v, stats_of l' with
      | Ok p, Ok ps => Ok (p :: ps)
      | Err e, _ => Err e
      | _, Err e => Err e
      end
  end.

Definition entry_member (kv : string * value) (r : Result CacheEntry) : Result CacheEntry :=
  match r with
  | Err e => Err e
  | Ok c =>
      let k := fst kv in
      let v := snd kv in
      let str (old : string) (set : string -> CacheEntry) : Result CacheEntry :=
        match string_field v old with
        | Ok s => Ok (set s)
        | Err e => Err e
        end in
      if String.eqb k "architecture" then
        str (Architecture c) (fun s =>
          mkCacheEntry s (Stats c) (Timestamp c) (ETag c) (LastModified c) (URL c) (Checksum c))
      else if String.eqb k "stats" then
        match v with
        | JArr l =>
            match stats_of l with
            | Ok ps =>
                Ok (mkCacheEntry (Architecture c) ps (Timestamp c) (ETag c) (LastModified c)
                      (URL c) (Checksum c))
            | Err e => Err e
            end
        | JNull => Ok c
        | _ => Err type_error
        end
      else if String.eqb k "timestamp" then
        match v with
        | JStr s =>
            match rfc3339.parse s with
            | Some t =>
                Ok (mkCacheEntry (Architecture c) (Stats c) t (ETag c) (LastModified c)
                      (URL c) (Checksum c))
            | None => Err (ErrExternal "parsing time")
            end
        | JNull => Ok c
        | _ => Err type_error
        end
      else if String.eqb k "etag" then
        str (ETag c) (fun s =>
          mkCacheEntry (Architecture c) (Stats c) (Timestamp c) s (LastModified c) (URL c) (Checksum c))
      else if String.eqb k "last_modified" then
        str (LastModified c) (fun s =>
          mkCacheEntry (Architecture c) (Stats c) (Timestamp c) (ETag c) s (URL c) (Checksum c))
      else if String.eqb k "url" then
        str (URL c) (fun s =>
          mkCacheEntry (Architecture c) (Stats c) (Timestamp c) (ETag c) (LastModified c) s (Checksum c))
      else if String.eqb k "checksum" then
        str (Checksum c) (fun s =>
          mkCacheEntry (Architecture c) (Stats c) (Timestamp c) (ETag c) (LastModified c) (URL c) s)
      else Ok c
  end.

Definition zero_entry : CacheEntry :=
  mkCacheEntry EmptyString [] 0 EmptyString EmptyString EmptyString EmptyString.

(** [json.Unmarshal(data, &entry)] on a zero [entry]. *)
Definition Unmarshal (data : string) : Result CacheEntry :=
  match parse data with
  | None => Err (ErrExternal "invalid character")
  | Some (JObj members) => fold_left (fun r kv => entry_member kv r) members (Ok zero_entry)
  | Some JNull => Ok zero_entry
  | Some _ => Err type_error
  end.

#[global] Instance codec : Codec := {
  json_Marshal_Stats := Marshal_Stats;
  json_Encode := Encode;
  json_Unmarshal := Unmarshal;
  md5_hex := fun data => md5.hex (md5.Sum data)
}.

End gojson.


(** * Definitions used to state the properties *)

(** Whether a byte occurs in a string. *)
Fixpoint contains (c : ascii) (s : string) : bool :=
  match s with
  | EmptyString => false
  | String c' r => Ascii.eqb c c' || contains c r
  end.

(** Descending by count. *)
Definition descending (a b : cache.PackageStats) : Prop :=
  cache.FileCount b <= cache.FileCount a.

Definition ascending (a b : cache.PackageStats) : Prop :=
  cache.FileCount a <= cache.FileCount b.

Definition entry_of (kv : string * Z) : cache.PackageStats :=
  cache.mkPackageStats (fst kv) (snd kv).

(** The specification's finaliser: a stable sort by count, descending, of
    the entries in the order of their insertion.  An entry goes in front
    of the first later one whose count is not larger. *)
Fixpoint insert_stable (x : cache.PackageStats) (l : list cache.PackageStats)
  : list cache.PackageStats :=
  match l with
  | [] => [x]
  | y :: l' =>
      if cache.FileCount y <=? cache.FileCount x then x :: l else y :: insert_stable x l'
  end.

Definition stable_descending (l : list cache.PackageStats) : list cache.PackageStats :=
  fold_right insert_stable [] l.

(** The finaliser as the specification words it: whatever the iteration
    order, the result is the stable sort of the entries as inserted. *)
Definition ties_by_insertion_order : Prop :=
  forall (inserted : list (string * Z)) (out : list cache.PackageStats),
    NoDup (map fst inserted) ->
    app.SortMap_returns (list_to_map inserted) out ->
    out = stable_descending (map entry_of inserted).

(** A record is serialised without loss when reading back what
    [enc.Encode] wrote for it gives the record again. *)
Definition lossless `{cache.Codec} (e : cache.CacheEntry) : Prop :=
  forall bytes, cache.json_Encode e = Ok bytes -> cache.json_Unmarshal bytes = Ok e.

(** The system refuses no file operation. *)
Definition no_faults (env : Env) : Prop :=
  forall tr op, fs_fault env tr op = None.

(** Number of full requests in a trace. *)
Fixpoint gets (tr : list Event) : nat :=
  match tr with
  | [] => O
  | EvHTTP req :: tr' =>
      match req_Method req with
      | GET => S (gets tr')
      | HEAD => gets tr'
      end
  | _ :: tr' => gets tr'
  end.

(** * Concrete worlds

    The worlds of the package's tests: a clock that stands at
    2025-09-10T00:04:55Z, a file system that refuses nothing, a lock that
    is free, and a remote that cannot be reached. *)

Definition t_2025 : Time := 63893059495000000000.

Definition env_offline : Env :=
  mkEnv (fun _ => t_2025)
        (fun _ _ => None)
        (fun _ _ => Err (ErrExternal "dial tcp: lookup invalid-host.local: no such host"))
        (fun _ => None)
        (fun _ _ => (true, None))
        (fun _ _ => (true, None))
        map_to_list.

(** The same, on a file system that refuses every call. *)
Definition env_readonly : Env :=
  mkEnv (fun _ => t_2025)
        (fun _ _ => Some (ErrExternal "read-only file system"))
        (fun _ _ => Err (ErrExternal "dial tcp: lookup invalid-host.local: no such host"))
        (fun _ => None)
        (fun _ _ => (true, None))
        (fun _ _ => (true, None))
        map_to_list.

Definition empty_world : World := mkWorld ∅ [].

Definition world_with (path content : string) : World :=
  mkWorld (<[path := mkFile content t_2025]> ∅) [].

(** The entry of [TestLoadCache], captured now. *)
Definition entry_pkg1 : cache.CacheEntry :=
  cache.mkCacheEntry "amd64" [cache.mkPackageStats "pkg1" 15] t_2025
    EmptyString EmptyString EmptyString EmptyString.

(** The entry of [TestLoadCacheExpired], captured two hours ago. *)
Definition entry_old : cache.CacheEntry :=
  cache.mkCacheEntry "amd64" [cache.mkPackageStats "pkg1" 1] (t_2025 - 2 * time.Hour)
    EmptyString EmptyString EmptyString EmptyString.

(** What [enc.Encode] writes for a record, empty if it has no encoding. *)
Definition encoded (e : cache.CacheEntry) : string :=
  match gojson.Encode e with
  | Ok bytes => bytes
  | Err _ => EmptyString
  end.

(** What [json.Marshal] writes for the statistics of a record. *)
Definition compact_stats (e : cache.CacheEntry) : string :=
  gojson.compact (json.JArr (map gojson.stat_value (cache.Stats e))).

(** The errors [GetRequestWithRetry] returns: the error of a failed
    request, or the error of the context. *)
Definition fetch_error (env : Env) (ctx : Context) (url : string)
    (cached : option cache.CacheEntry) (e : error) : Prop :=
  (exists tr, client_Do env tr (app.conditional GET url cached) = Err e)
  \/ (exists w, ctx_Err env ctx w = Some e).




(** A context without a deadline. *)
Definition ctx_background : Context := mkContext None.

(** The cached record and the remote of [TestDownloadCacheMatch]: the
    probe answers 200 with the validator and the modification time of the
    record. *)
Definition entry_cached : cache.CacheEntry :=
  cache.mkCacheEntry EmptyString [cache.mkPackageStats "cached-pkg" 100] 0
    "same-etag" "same-lastmod" EmptyString EmptyString.

Definition env_same : Env :=
  mkEnv (fun _ => t_2025)
        (fun _ _ => None)
        (fun _ req =>
           match req_Method req with
           | HEAD => Ok (mkResponse 200 "same-etag" "same-lastmod" 0 (Lines [] None))
           | GET => Err (ErrExternal "should not make GET request")
           end)
        (fun _ => None)
        (fun _ _ => (true, None))
        (fun _ _ => (true, None))
        map_to_list.

(** The cached record of [TestDownloadNetworkFallback]. *)
Definition entry_fallback : cache.CacheEntry :=
  cache.mkCacheEntry EmptyString [cache.mkPackageStats "fallback-pkg" 75] 0
    EmptyString EmptyString EmptyString EmptyString.

(** The configuration [ParseFlags] builds for the architecture amd64. *)
Definition cfg_amd64 : app.Config :=
  app.mkConfig "amd64" "/cache" (24 * time.Hour) false 10 time.Hour (10 * time.Minute).




(** A file system that carries out every call but the removal of a file:
    a directory the process may not write to. *)
Definition env_undeletable : Env :=
  mkEnv (fun _ => t_2025)
        (fun _ op =>
           match op with
           | OpRemove _ => Some (ErrExternal "operation not permitted")
           | _ => None
           end)
        (fun _ _ => Err (ErrExternal "dial tcp: lookup invalid-host.local: no such host"))
        (fun _ => None)
        (fun _ _ => (true, None))
        (fun _ _ => (true, None))
        map_to_list.

(** The file of [TestLoadCacheCorrupt]. *)
Definition world_corrupt : World := world_with "corrupt.json" "invalid json".

(** One round of the loop of [ProcessLine], on one field of the line. *)
Definition count_package (m : gmap string Z) (pkg : string) : gmap string Z :=
  let pkg := strings.TrimSpace pkg in
  if strings.isEmpty pkg then m else app.incr m pkg.

(** The aggregation of the lines of a body, taken in order. *)
Definition aggregate (ls : list string) (counts : gmap string Z) : gmap string Z :=
  fold_left (fun m line => app.ProcessLine line m) ls counts.

(** Whether the short cache window of [AnalyzeWithCache] applies to the
    record that was loaded. *)
Definition recent (env : Env) (cfg : app.Config) (cached : option cache.CacheEntry)
    (w : World) : bool :=
  match cached with
  | Some c => (app.ShortCacheWindow cfg >? 0)
              && (Since env w (cache.Timestamp c) <? app.ShortCacheWindow cfg)
  | None => false
  end.



Fixpoint renames (tr : list Event) : nat :=
  match tr with
  | [] => O
  | EvFs (OpRename _ _) :: tr' => S (renames tr')
  | _ :: tr' => renames tr'
  end.


Fixpoint pauses (tr : list Event) : list Duration :=
  match tr with
  | [] => []
  | EvSleep d :: tr' => d :: pauses tr'
  | _ :: tr' => pauses tr'
  end.


(** A file system that refuses every rename. *)
Definition env_norename : Env :=
  mkEnv (fun _ => t_2025)
        (fun _ op =>
           match op with
           | OpRename _ _ => Some (ErrExternal "cross-device link")
           | _ => None
           end)
        (fun _ _ => Err (ErrExternal "dial tcp: lookup invalid-host.local: no such host"))
        (fun _ => None)
        (fun _ _ => (true, None))
        (fun _ _ => (true, None))
        map_to_list.


(** A lock file written two hours ago. *)
Definition world_old_lock : World :=
  mkWorld (<["test.lock" := mkFile "lock" (t_2025 - 2 * time.Hour)]> ∅) [].

(** The statistics of [TestPrintTop]. *)
Definition stats_two : list cache.PackageStats :=
  [cache.mkPackageStats "pkg1" 100; cache.mkPackageStats "pkg2" 50].

(** The steps of [SaveCache] between the creation of the temporary file
    and the deferred call: encode, write, sync, close, rename. *)
Definition SaveCache_body `{cache.Codec} (env : Env) (file : string) (entry : cache.CacheEntry)
    (w : World) : option error * World :=
  let tmp := file +:+ ".tmp" in
  match cache.json_Encode entry with
  | Err e => (Some e, w)
  | Ok bytes =>
      match os.Write env tmp bytes w with
      | (Some e, w) => (Some e, w)
      | (None, w) =>
          match os.Sync env tmp w with
          | (Some e, w) => (Some e, w)
          | (None, w) =>
              match os.Close env tmp w with
              | (Some e, w) => (Some e, w)
              | (None, w) => cache.rename_retry env tmp file 5 w
              end
          end
      end
  end.

(** A remote that refuses the probe and answers every full request 404. *)
Definition env_no_probe : Env :=
  mkEnv (fun _ => t_2025)
        (fun _ _ => None)
        (fun _ req =>
           match req_Method req with
           | HEAD => Err (ErrExternal "HEAD not allowed")
           | GET => Ok (mkResponse 404 EmptyString EmptyString 0 (Lines [] None))
           end)
        (fun _ => None)
        (fun _ _ => (true, None))
        (fun _ _ => (true, None))
        map_to_list.

(** A caller that cancels right after the first round of the scanner. *)
Definition env_cancel_late : Env :=
  mkEnv (fun _ => t_2025)
        (fun _ _ => None)
        (fun _ _ => Err ErrCanceled)
        (fun tr => match tr with [EvScan] => None | _ => Some ErrCanceled end)
        (fun _ _ => (true, None))
        (fun _ _ => (true, None))
        map_to_list.

(** The configuration of [cfg_amd64] with the refresh forced. *)
Definition cfg_forced : app.Config :=
  app.mkConfig "amd64" "/cache" (24 * time.Hour) true 10 time.Hour (10 * time.Minute).

(** A cache file written just now. *)
Definition world_fresh : World :=
  world_with (app.cacheFile cfg_amd64) (encoded entry_pkg1).

(** * Definitions used to state the properties of the codec *)

(** One era of the calendar is checked day by day. *)
Definition era_ok (doe : Z) : bool :=
  let '(yoe, m, d) := rfc3339.doe_to_ymd doe in
  (rfc3339.ymd_to_doe yoe m d =? doe) && (0 <=? yoe) && (yoe <? 400)
  && (1 <=? m) && (m <=? 12) && (1 <=? d) && (d <=? 31).

Fixpoint all_from (P : Z -> bool) (n : nat) (z : Z) : bool :=
  match n with
  | O => true
  | S n' => if P z then all_from P n' (z + 1) else false
  end.

Definition digit_char (z : Z) : ascii := ascii_of_N (48 + Z.to_N z).

Definition nondigit_head (s : string) : Prop :=
  match s with
  | String c _ => json.is_digit c = false
  | EmptyString => True
  end.

(** The first byte of the decimal text of a positive number. *)
Definition digit_head (s : string) : Prop :=
  match s with
  | String c _ => json.is_digit c = true
  | EmptyString => False
  end.

(** What may follow a value in the text the writer produces. *)
Definition value_end (rest : string) : Prop :=
  match rest with
  | EmptyString => True
  | String c _ => c = ","%char \/ c = ascii_of_N 10
  end.

Definition lift (c : ascii) (o : option (string * string)) : option (string * string) :=
  match o with
  | Some (u, r) => Some (String c u, r)
  | None => None
  end.

(** The fuel the reader needs for a value. *)
Fixpoint json_size (v : json.value) : nat :=
  match v with
  | json.JArr l => S (S (list_sum (map json_size l)))
  | json.JObj l => S (S (list_sum (map (fun kx => S (json_size (snd kx))) l)))
  | _ => 1
  end.

(** The strings of a value are well-formed UTF-8. *)
Fixpoint json_ok (v : json.value) : bool :=
  match v with
  | json.JStr s => json.valid_utf8 s
  | json.JArr l => forallb json_ok l
  | json.JObj l => forallb (fun kx => json.valid_utf8 (fst kx) && json_ok (snd kx)) l
  | _ => true
  end.

Definition head_is (c : ascii) (s : string) : bool :=
  match s with
  | String c' _ => Ascii.eqb c c'
  | EmptyString => false
  end.

(** The first byte of the text of a value. *)
Definition value_head (c : ascii) : bool :=
  json.is_digit c || Ascii.eqb c "-" || Ascii.eqb c json.quote || Ascii.eqb c "["
  || Ascii.eqb c "{" || Ascii.eqb c "n" || Ascii.eqb c "t" || Ascii.eqb c "f".

(** The text of the elements of an array after the first, of a member, and
    of the members of an object after the first. *)
Definition elems_text (n : nat) (l : list json.value) : string :=
  json.concat_str (map (fun y => json.sep (S n) +:+ json.write (S n) y) l).

Definition member_text (n : nat) (kx : string * json.value) : string :=
  json.write_string (fst kx) +:+ ": " +:+ json.write n (snd kx).

Definition members_text (n : nat) (l : list (string * json.value)) : string :=
  json.concat_str (map (fun ky => json.sep (S n) +:+ member_text (S n) ky) l).

Definition member_ok (kx : string * json.value) : bool :=
  json.valid_utf8 (fst kx) && json_ok (snd kx).

Definition member_size (kx : string * json.value) : nat := S (json_size (snd kx)).

Fixpoint ascii_only (s : string) : bool :=
  match s with
  | EmptyString => true
  | String c r => (N_of_ascii c <? 128)%N && ascii_only r
  end.

(** The year of a time lies in [0, 9999], the range of [Time.MarshalJSON]. *)
Definition year_ok (t : Time) : bool :=
  match rfc3339.format t with
  | Some _ => true
  | None => false
  end.

Definition valid_stat (p : cache.PackageStats) : bool :=
  json.valid_utf8 (cache.Name p) && gojson.in_int64 (cache.FileCount p).

(** A valid record, one the library serialises without loss: its strings
    are well-formed UTF-8, its counts fit an [int64], and the year of its
    time stamp lies in [0, 9999]. *)
Definition valid_record (e : cache.CacheEntry) : bool :=
  json.valid_utf8 (cache.Architecture e)
  && forallb valid_stat (cache.Stats e)
  && year_ok (cache.Timestamp e)
  && json.valid_utf8 (cache.ETag e)
  && json.valid_utf8 (cache.LastModified e)
  && json.valid_utf8 (cache.URL e)
  && json.valid_utf8 (cache.Checksum e).


(** * The codec reads back what it writes *)

Ltac split_bools :=
  repeat match goal with
         | H : (_ && _) = true |- _ => apply andb_true_iff in H as [? ?]
         | H : (_ || _) = true |- _ => apply orb_true_iff in H as [? | ?]
         | H : (_ <=? _)%N = true |- _ => apply N.leb_le in H
         | H : (_ =? _)%N = true |- _ => apply N.eqb_eq in H
         end.

Section CalendarFacts.
Import rfc3339.

Lemma all_from_spec (P : Z -> bool) (n : nat) (z : Z) :
  all_from P n z = true -> forall k, z <= k < z + Z.of_nat n -> P k = true.
Proof.
  revert z. induction n as [|n IH]; intros z Ha k Hk; [lia|].
  cbn [all_from] in Ha. destruct (P z) eqn:Hz; [|discriminate].
  destruct (Z.eq_dec k z) as [->|Hne]; [exact Hz|].
  apply (IH (z + 1) Ha). lia.
Qed.

Lemma era_checked : all_from era_ok (Z.to_nat 146097) 0 = true.
Proof. vm_cast_no_check (eq_refl true). Qed.

Lemma days_from_civil_from_days (z : Z) :
  let '(y, m, d) := civil_from_days z in
  days_from_civil y m d = z /\ 1 <= m <= 12 /\ 1 <= d <= 31.
Proof.
  unfold civil_from_days.
  pose proof (Z.mod_pos_bound (z + 719468) 146097 eq_refl) as Hdoe.
  pose proof (Z.div_mod (z + 719468) 146097 ltac:(lia)) as Hz.
  set (doe := (z + 719468) mod 146097) in *.
  set (era := (z + 719468) / 146097) in *.
  assert (Hok : era_ok doe = true).
  { apply (all_from_spec era_ok (Z.to_nat 146097) 0 era_checked).
    rewrite Z2Nat.id by lia. lia. }
  unfold era_ok in Hok. destruct (doe_to_ymd doe) as [[yoe m] d].
  rewrite !andb_true_iff in Hok.
  destruct Hok as ((((((H1 & H2) & H3) & H4) & H5) & H6) & H7).
  apply Z.eqb_eq in H1. apply Z.leb_le in H2, H4, H5, H6, H7. apply Z.ltb_lt in H3.
  split; [|lia].
  unfold days_from_civil.
  replace (yoe + era * 400 + (if m <=? 2 then 1 else 0) - (if m <=? 2 then 1 else 0))
    with (yoe + era * 400) by lia.
  rewrite Z.div_add, Z.mod_add, Z.div_small, Z.mod_small, H1 by lia. lia.
Qed.


End CalendarFacts.

Section DigitFacts.
Import rfc3339.
Lemma append_cons (c : ascii) (a b : string) : String c a +:+ b = String c (a +:+ b).
Proof. reflexivity. Qed.

Lemma append_assoc (a b c : string) : (a +:+ b) +:+ c = a +:+ (b +:+ c).
Proof.
  induction a as [|x a IH]; [reflexivity|]. rewrite !append_cons, IH. reflexivity.
Qed.

Lemma append_nil_l (b : string) : EmptyString +:+ b = b.
Proof. reflexivity. Qed.

Lemma length_append (s t : string) :
  String.length (s +:+ t) = (String.length s + String.length t)%nat.
Proof.
  induction s as [|c s IH]; [reflexivity|].
  rewrite append_cons. cbn [String.length]. rewrite IH. reflexivity.
Qed.

Lemma digit_char_ok (z : Z) :
  0 <= z < 10 -> json.is_digit (digit_char z) = true /\ json.digit_val (digit_char z) = z.
Proof.
  intros Hz.
  assert (H : z = 0 \/ z = 1 \/ z = 2 \/ z = 3 \/ z = 4 \/ z = 5 \/ z = 6 \/ z = 7 \/ z = 8 \/ z = 9)
    by lia.
  repeat (destruct H as [-> | H]; [split; reflexivity|]). subst z. split; reflexivity.
Qed.

Lemma fixed_S (w : nat) (z : Z) :
  fixed (S w) z = fixed w (z / 10) +:+ String (digit_char (z mod 10)) EmptyString.
Proof. reflexivity. Qed.

Lemma length_fixed (w : nat) (z : Z) : String.length (fixed w z) = w.
Proof.
  revert z. induction w as [|w IH]; intros z; [reflexivity|].
  rewrite fixed_S, length_append, IH. simpl. lia.
Qed.

Lemma digits_snoc (w : nat) (s : string) (acc : Z) :
  digits (S w) s acc
  = match digits w s acc with
    | Some (v, String c r) =>
        if json.is_digit c then Some (v * 10 + json.digit_val c, r) else None
    | _ => None
    end.
Proof.
  revert s acc. induction w as [|w IH]; intros s acc.
  - cbn [digits]. destruct s as [|c r]; [reflexivity|]. destruct (json.is_digit c); reflexivity.
  - change (digits (S (S w)) s acc)
      with (match s with
            | String c r =>
                if json.is_digit c then digits (S w) r (acc * 10 + json.digit_val c) else None
            | EmptyString => None
            end).
    destruct s as [|c r]; [reflexivity|].
    destruct (json.is_digit c) eqn:Hc; [|cbn [digits]; rewrite Hc; reflexivity].
    rewrite IH. cbn [digits]. rewrite Hc. reflexivity.
Qed.

Lemma digits_fixed (w : nat) (z acc : Z) (rest : string) :
  0 <= z < 10 ^ Z.of_nat w ->
  digits w (fixed w z +:+ rest) acc = Some (acc * 10 ^ Z.of_nat w + z, rest).
Proof.
  revert z acc rest. induction w as [|w IH]; intros z acc rest Hz.
  - cbn in Hz. cbn [digits fixed]. rewrite append_nil_l. f_equal. f_equal. cbn. lia.
  - rewrite digits_snoc, fixed_S, append_assoc, append_cons, append_nil_l.
    assert (Hp : 10 ^ Z.of_nat (S w) = 10 * 10 ^ Z.of_nat w).
    { rewrite Nat2Z.inj_succ, Z.pow_succ_r by lia. reflexivity. }
    rewrite IH by (rewrite Hp in Hz; Z.div_mod_to_equations; lia).
    destruct (digit_char_ok (z mod 10)) as [Hd Hv]; [apply Z.mod_pos_bound; lia|].
    rewrite Hd, Hv. f_equal. f_equal. rewrite Hp. Z.div_mod_to_equations. lia.
Qed.

Lemma read_digits_fixed (w : nat) (z acc : Z) (rest : string) :
  0 <= z < 10 ^ Z.of_nat w -> nondigit_head rest ->
  json.read_digits (fixed w z +:+ rest) acc = (acc * 10 ^ Z.of_nat w + z, rest).
Proof.
  intros Hz Hrest.
  assert (Hgen : forall s a, digits w s a = Some (a * 10 ^ Z.of_nat w + z, rest) ->
                 json.read_digits s a = (a * 10 ^ Z.of_nat w + z, rest)).
  { clear Hz. revert z. induction w as [|w IH]; intros z s a.
    - cbn [digits]. intros [= Hv ->]. rewrite <- Hv.
      destruct rest as [|c r]; [reflexivity|]. cbn [json.read_digits]. cbn in Hrest. rewrite Hrest.
      reflexivity.
    - cbn [digits]. destruct s as [|c r]; [discriminate|]. cbn [json.read_digits].
      destruct (json.is_digit c); [|discriminate].
      intros Hd.
      assert (Hp : 10 ^ Z.of_nat (S w) = 10 * 10 ^ Z.of_nat w).
      { rewrite Nat2Z.inj_succ, Z.pow_succ_r by lia. reflexivity. }
      specialize (IH (z + a * 10 ^ Z.of_nat (S w) - (a * 10 + json.digit_val c) * 10 ^ Z.of_nat w)
                    r (a * 10 + json.digit_val c)).
      replace ((a * 10 + json.digit_val c) * 10 ^ Z.of_nat w
               + (z + a * 10 ^ Z.of_nat (S w) - (a * 10 + json.digit_val c) * 10 ^ Z.of_nat w))
        with (a * 10 ^ Z.of_nat (S w) + z) in IH by lia.
      apply IH. exact Hd. }
  apply Hgen. apply digits_fixed. exact Hz.
Qed.


Lemma digit_char_zero (z : Z) :
  0 <= z < 10 -> Ascii.eqb (digit_char z) "0" = (z =? 0).
Proof.
  intros Hz.
  assert (H : z = 0 \/ z = 1 \/ z = 2 \/ z = 3 \/ z = 4 \/ z = 5 \/ z = 6 \/ z = 7 \/ z = 8 \/ z = 9)
    by lia.
  repeat (destruct H as [-> | H]; [reflexivity|]). subst z. reflexivity.
Qed.

Lemma strip_zeros_snoc (a : string) (c : ascii) :
  strip_zeros (a +:+ String c EmptyString)
  = if Ascii.eqb c "0" then strip_zeros a else a +:+ String c EmptyString.
Proof.
  induction a as [|x a IH].
  - rewrite append_nil_l. cbn [strip_zeros strings.isEmpty andb].
    destruct (Ascii.eqb c "0"); reflexivity.
  - rewrite append_cons. cbn [strip_zeros]. rewrite IH.
    destruct (Ascii.eqb c "0"); [reflexivity|].
    replace (strings.isEmpty (a +:+ String c EmptyString)) with false
      by (destruct a; reflexivity).
    reflexivity.
Qed.

Lemma fraction_digits (w : nat) (z acc : Z) (rest : string) :
  0 < z < 10 ^ Z.of_nat w -> nondigit_head rest ->
  exists (k : nat) (v : Z),
    (1 <= k <= w)%nat
    /\ String.length (strip_zeros (fixed w z)) = k
    /\ json.read_digits (strip_zeros (fixed w z) +:+ rest) acc = (acc * 10 ^ Z.of_nat k + v, rest)
    /\ v * 10 ^ Z.of_nat (w - k) = z.
Proof.
  intros Hz Hrest. revert z Hz. induction w as [|w IH]; intros z Hz.
  - cbn in Hz. lia.
  - assert (Hp : 10 ^ Z.of_nat (S w) = 10 * 10 ^ Z.of_nat w).
    { rewrite Nat2Z.inj_succ, Z.pow_succ_r by lia. reflexivity. }
    pose proof (Z.mod_pos_bound z 10 eq_refl) as Hd.
    rewrite fixed_S, strip_zeros_snoc, digit_char_zero by exact Hd.
    destruct (Z.eqb_spec (z mod 10) 0) as [H0|H0].
    + destruct (IH (z / 10)) as (k & v & Hk & Hlen & Hread & Hv).
      { rewrite Hp in Hz. Z.div_mod_to_equations. lia. }
      exists k, v. split; [lia|]. split; [exact Hlen|]. split; [exact Hread|].
      replace (S w - k)%nat with (S (w - k)) by lia.
      rewrite Nat2Z.inj_succ, Z.pow_succ_r by lia.
      rewrite (Z.mul_comm 10), Z.mul_assoc, Hv. Z.div_mod_to_equations. lia.
    + rewrite <- fixed_S. exists (S w), z. split; [lia|].
      split; [apply length_fixed|]. split; [apply read_digits_fixed; [lia | exact Hrest]|].
      rewrite Nat.sub_diag. cbn. lia.
Qed.

Lemma lit_app (c : ascii) (x : string) : lit c (String c EmptyString +:+ x) = Some x.
Proof. rewrite append_cons, append_nil_l. cbn [lit]. rewrite Ascii.eqb_refl. reflexivity. Qed.

Lemma fraction_format (nsec : Z) :
  0 <= nsec < 1000000000 ->
  fraction ((if nsec =? 0 then EmptyString
             else "." +:+ strip_zeros (fixed 9 nsec)) +:+ "Z") = Some (nsec, "Z"%string).
Proof.
  intros Hn. destruct (Z.eqb_spec nsec 0) as [->|Hne]; [reflexivity|].
  destruct (fraction_digits 9 nsec 0 "Z") as (k & v & Hk & Hlen & Hread & Hv);
    [cbn; lia | reflexivity |].
  rewrite append_assoc, append_cons, append_nil_l. cbn [fraction]. rewrite Hread.
  rewrite length_append, Hlen. cbn [String.length].
  replace (k + 1 - 1)%nat with k by lia.
  destruct (Nat.leb_spec 1 k); [|lia]. destruct (Nat.leb_spec k 9); [|lia].
  cbn [andb]. rewrite Z.mul_0_l, Z.add_0_l, Hv. reflexivity.
Qed.

End DigitFacts.

Section TimeFormat.
Import rfc3339.
(** What [format] writes, [parse] reads back. *)
Lemma parse_format (t : Time) (s : string) :
  format t = Some s -> parse s = Some t.
Proof.
  unfold format.
  set (secs := t / 1000000000). set (nsec := t mod 1000000000).
  set (day := secs / 86400). set (rem := secs mod 86400).
  pose proof (days_from_civil_from_days (day - unix_epoch_day)) as Hcal.
  destruct (civil_from_days (day - unix_epoch_day)) as [[y m] d] eqn:Hc.
  destruct Hcal as (Hdays & Hm & Hd).
  destruct (Z.ltb_spec y 0) as [|Hy0]; [discriminate|].
  destruct (Z.ltb_spec 9999 y) as [|Hy9]; [discriminate|].
  change (false || false) with false. intros Hs.
  apply (f_equal (fun o => match o with Some x => x | None => s end)) in Hs.
  cbv beta iota in Hs. subst s.
  pose proof (Z.mod_pos_bound t 1000000000 eq_refl) as Hns. fold nsec in Hns.
  pose proof (Z.mod_pos_bound secs 86400 eq_refl) as Hrem. fold rem in Hrem.
  unfold parse.
  rewrite digits_fixed by (cbn; lia). rewrite lit_app.
  rewrite digits_fixed by (cbn; lia). rewrite lit_app.
  rewrite digits_fixed by (cbn; lia). rewrite lit_app.
  rewrite digits_fixed by (cbn; Z.div_mod_to_equations; lia). rewrite lit_app.
  rewrite digits_fixed by (cbn; Z.div_mod_to_equations; lia). rewrite lit_app.
  rewrite digits_fixed by (cbn; Z.div_mod_to_equations; lia).
  rewrite fraction_format by exact Hns.
  rewrite !Z.mul_0_l, !Z.add_0_l, Hdays, Hc, !Z.eqb_refl.
  replace (rem / 3600 <? 24) with true by (symmetry; apply Z.ltb_lt; Z.div_mod_to_equations; lia).
  replace (rem / 60 mod 60 <? 60) with true
    by (symmetry; apply Z.ltb_lt; Z.div_mod_to_equations; lia).
  replace (rem mod 60 <? 60) with true by (symmetry; apply Z.ltb_lt; Z.div_mod_to_equations; lia).
  cbn [andb String.eqb]. f_equal.
  unfold rem, day, nsec, secs. Z.div_mod_to_equations. lia.
Qed.

End TimeFormat.

Section JsonStrings.
Import json.

Lemma read_escape_byte (c : ascii) (t : string) :
  (N_of_ascii c <? 128)%N = true ->
  read_string (escape_byte c +:+ t) = lift c (read_string t).
Proof.
  intros Hc. unfold lift.
  destruct c as [[] [] [] [] [] [] [] []]; try discriminate Hc; reflexivity.
Qed.

Lemma read_raw (c : ascii) (t : string) :
  (N_of_ascii c <? 128)%N = false ->
  read_string (String c t) = lift c (read_string t).
Proof.
  intros Hc. unfold lift.
  destruct c as [[] [] [] [] [] [] [] []]; try discriminate Hc; reflexivity.
Qed.

Lemma cont_high (c : ascii) : cont c = true -> (N_of_ascii c <? 128)%N = false.
Proof.
  unfold cont. intros Hc. apply andb_true_iff in Hc as [Hc _].
  apply N.leb_le in Hc. apply N.ltb_ge. exact Hc.
Qed.

Lemma read_line_sep (c1 c2 c3 : ascii) (t : string) :
  line_sep c1 c2 c3 = true ->
  read_string (u202 c3 +:+ t)
  = match read_string t with
    | Some (u, r) => Some (String c1 (String c2 (String c3 u)), r)
    | None => None
    end.
Proof.
  unfold line_sep. intros H.
  apply andb_true_iff in H as [H H3]. apply andb_true_iff in H as [H1 H2].
  apply N.eqb_eq in H1, H2.
  rewrite <- (ascii_N_embedding c1), <- (ascii_N_embedding c2), H1, H2.
  apply orb_true_iff in H3 as [H3 | H3]; apply N.eqb_eq in H3;
    rewrite <- (ascii_N_embedding c3), H3; reflexivity.
Qed.

(** A string literal is read back as the string it was written for. *)
Lemma read_string_escape_len (n : nat) (s rest : string) :
  (String.length s <= n)%nat -> valid_utf8 s = true ->
  read_string (escape s +:+ String quote rest) = Some (s, rest).
Proof.
  revert s. induction n as [|n IH]; intros s Hn Hv.
  { destruct s; [|cbn in Hn; lia]. cbn [escape]. rewrite append_nil_l.
    cbn [read_string]. rewrite Ascii.eqb_refl. reflexivity. }
  destruct s as [|c1 s1].
  { cbn [escape]. rewrite append_nil_l. cbn [read_string]. rewrite Ascii.eqb_refl. reflexivity. }
  cbn [String.length] in Hn. cbn [escape valid_utf8] in *.
  destruct (N_of_ascii c1 <? 128)%N eqn:H1.
  { rewrite append_assoc, read_escape_byte, IH by (lia || assumption). reflexivity. }
  destruct s1 as [|c2 s2]; [discriminate|]. cbn [String.length] in Hn.
  destruct (utf8_2 c1 c2) eqn:H2.
  { rewrite !append_cons, (read_raw c1), (read_raw c2), IH; try (lia || assumption); [reflexivity|].
    apply cont_high. unfold utf8_2 in H2. apply andb_true_iff in H2 as [_ H2]. exact H2. }
  destruct s2 as [|c3 s3]; [discriminate|]. cbn [String.length] in Hn.
  destruct (utf8_3 c1 c2 c3) eqn:H3.
  { destruct (line_sep c1 c2 c3) eqn:Hls.
    - rewrite append_assoc, (read_line_sep c1 c2 c3), IH by (lia || assumption). reflexivity.
    - assert (Hc3 : cont c3 = true).
      { unfold utf8_3 in H3. apply andb_true_iff in H3 as [_ H3]. exact H3. }
      assert (Hc2 : (N_of_ascii c2 <? 128)%N = false).
      { clear Hc3. unfold utf8_3, cont in H3. cbv zeta in H3. apply N.ltb_ge.
        split_bools; lia. }
      rewrite !append_cons, append_nil_l, (read_raw c1), (read_raw c2), (read_raw c3), IH;
        try (lia || assumption); [reflexivity|].
      apply cont_high. exact Hc3. }
  destruct s3 as [|c4 s4]; [discriminate|]. cbn [String.length] in Hn.
  apply andb_true_iff in Hv as [H4 Hv]. rewrite H4.
  assert (Hc : (N_of_ascii c2 <? 128)%N = false /\ cont c3 = true /\ cont c4 = true).
  { unfold utf8_4 in H4. apply andb_true_iff in H4 as [H4 Hc4].
    apply andb_true_iff in H4 as [H4 Hc3]. split; [|split; assumption].
    unfold cont in H4. cbv zeta in H4. apply N.ltb_ge.
    clear Hc3 Hc4 Hv. split_bools; lia. }
  destruct Hc as (Hc2 & Hc3 & Hc4).
  rewrite !append_cons, (read_raw c1), (read_raw c2), (read_raw c3), (read_raw c4), IH;
    try (lia || assumption); [reflexivity | |]; apply cont_high; assumption.
Qed.

Lemma read_string_escape (s rest : string) :
  valid_utf8 s = true ->
  read_string (escape s +:+ String quote rest) = Some (s, rest).
Proof. apply (read_string_escape_len (String.length s)). lia. Qed.

End JsonStrings.

Section JsonNumbers.
Import json.

Lemma value_end_nondigit (rest : string) : value_end rest -> nondigit_head rest.
Proof. destruct rest as [|c r]; [easy|]. intros [-> | ->]; reflexivity. Qed.

Lemma read_digits_acc (d : Decimal.uint) (p : positive) (rest : string) :
  nondigit_head rest ->
  read_digits (NilEmpty.string_of_uint d +:+ rest) (Z.pos p)
  = (Z.pos (Pos.of_uint_acc d p), rest).
Proof.
  intros Hrest. revert p.
  induction d as [|d IH|d IH|d IH|d IH|d IH|d IH|d IH|d IH|d IH|d IH]; intros p;
    cbn [NilEmpty.string_of_uint Pos.of_uint_acc];
    [ rewrite append_nil_l; destruct rest as [|c r]; [reflexivity|];
      cbn [read_digits]; cbn in Hrest; rewrite Hrest; reflexivity
    | rewrite append_cons; cbn [read_digits];
      change (is_digit _) with true; cbv iota; rewrite <- IH; f_equal .. ].
  all: unfold digit_val; cbn; lia.
Qed.

Lemma read_digits_uint (d : Decimal.uint) (rest : string) :
  nondigit_head rest ->
  read_digits (NilEmpty.string_of_uint d +:+ rest) 0 = (Z.of_N (Pos.of_uint d), rest).
Proof.
  intros Hrest.
  induction d as [|d IH|d IH|d IH|d IH|d IH|d IH|d IH|d IH|d IH|d IH];
    cbn [NilEmpty.string_of_uint Pos.of_uint].
  - rewrite append_nil_l. destruct rest as [|c r]; [reflexivity|].
    cbn [read_digits]. cbn in Hrest. rewrite Hrest. reflexivity.
  - rewrite append_cons. cbn [read_digits]. change (is_digit _) with true. cbv iota.
    exact IH.
  - rewrite append_cons. cbn [read_digits]. change (is_digit _) with true. cbv iota.
    exact (read_digits_acc d 1 rest Hrest).
  - rewrite append_cons. cbn [read_digits]. change (is_digit _) with true. cbv iota.
    exact (read_digits_acc d 2 rest Hrest).
  - rewrite append_cons. cbn [read_digits]. change (is_digit _) with true. cbv iota.
    exact (read_digits_acc d 3 rest Hrest).
  - rewrite append_cons. cbn [read_digits]. change (is_digit _) with true. cbv iota.
    exact (read_digits_acc d 4 rest Hrest).
  - rewrite append_cons. cbn [read_digits]. change (is_digit _) with true. cbv iota.
    exact (read_digits_acc d 5 rest Hrest).
  - rewrite append_cons. cbn [read_digits]. change (is_digit _) with true. cbv iota.
    exact (read_digits_acc d 6 rest Hrest).
  - rewrite append_cons. cbn [read_digits]. change (is_digit _) with true. cbv iota.
    exact (read_digits_acc d 7 rest Hrest).
  - rewrite append_cons. cbn [read_digits]. change (is_digit _) with true. cbv iota.
    exact (read_digits_acc d 8 rest Hrest).
  - rewrite append_cons. cbn [read_digits]. change (is_digit _) with true. cbv iota.
    exact (read_digits_acc d 9 rest Hrest).
Qed.

Lemma to_uint_head (p : positive) (rest : string) :
  digit_head (NilEmpty.string_of_uint (Pos.to_uint p) +:+ rest).
Proof.
  pose proof (Unsigned.to_uint_nonnil p) as Hn.
  destruct (Pos.to_uint p); [contradiction | reflexivity ..].
Qed.

Lemma to_uint_text (p : positive) :
  NilZero.string_of_uint (Pos.to_uint p) = NilEmpty.string_of_uint (Pos.to_uint p).
Proof.
  pose proof (Unsigned.to_uint_nonnil p) as Hn.
  destruct (Pos.to_uint p); [contradiction | reflexivity ..].
Qed.

Lemma read_nat_uint (p : positive) (rest : string) :
  value_end rest ->
  read_nat (NilEmpty.string_of_uint (Pos.to_uint p) +:+ rest) = Some (Z.pos p, rest).
Proof.
  intros Hend. unfold read_nat.
  pose proof (to_uint_head p rest) as Hh.
  destruct (NilEmpty.string_of_uint (Pos.to_uint p) +:+ rest) as [|c r] eqn:Ht; [contradiction|].
  cbn [starts_digit]. cbn in Hh. rewrite Hh. rewrite <- Ht.
  rewrite (read_digits_uint _ rest (value_end_nondigit rest Hend)), DecimalPos.Unsigned.of_to.
  destruct rest as [|x rest']; [reflexivity|].
  destruct Hend as [-> | ->]; reflexivity.
Qed.

Lemma read_int_write_int (z : Z) (rest : string) :
  value_end rest -> read_int (write_int z +:+ rest) = Some (z, rest).
Proof.
  intros Hend. unfold write_int, NilZero.string_of_int.
  destruct z as [|p|p]; cbn [Z.to_int].
  - destruct rest as [|x rest']; [reflexivity|]. destruct Hend as [-> | ->]; reflexivity.
  - rewrite to_uint_text. unfold read_int.
    pose proof (to_uint_head p rest) as Hh.
    pose proof (read_nat_uint p rest Hend) as Hr.
    destruct (NilEmpty.string_of_uint (Pos.to_uint p) +:+ rest) as [|c r] eqn:Ht; [contradiction|].
    assert (Hc : c <> "-"%char) by (intros ->; discriminate Hh).
    rewrite <- Hr. clear -Hc. destruct c as [[] [] [] [] [] [] [] []]; try reflexivity.
    contradiction Hc. reflexivity.
  - rewrite to_uint_text, append_cons. unfold read_int.
    rewrite (read_nat_uint p rest Hend). reflexivity.
Qed.

End JsonNumbers.

Section JsonRead.
Import json.

Lemma skip_ws_idem (s : string) : skip_ws (skip_ws s) = skip_ws s.
Proof.
  induction s as [|c r IH]; [reflexivity|]. cbn [skip_ws].
  destruct (is_ws c) eqn:Hc; [exact IH|]. cbn [skip_ws]. rewrite Hc. reflexivity.
Qed.

Lemma skip_ws_indent (n : nat) (s : string) : skip_ws (indent n +:+ s) = skip_ws s.
Proof.
  induction n as [|n IH]; [reflexivity|].
  cbn [indent]. rewrite append_assoc, !append_cons, append_nil_l. exact IH.
Qed.

Lemma skip_ws_newline (n : nat) (s : string) :
  skip_ws (newline +:+ indent n +:+ s) = skip_ws s.
Proof. unfold newline. rewrite append_cons, append_nil_l. apply skip_ws_indent. Qed.

Lemma value_head_plain (c : ascii) :
  value_head c = true ->
  is_ws c = false /\ Ascii.eqb "]" c = false /\ Ascii.eqb "}" c = false.
Proof.
  destruct c as [[] [] [] [] [] [] [] []]; intros H; try discriminate H; repeat split.
Qed.

Lemma skip_ws_head (c : ascii) (t : string) :
  value_head c = true -> skip_ws (String c t) = String c t.
Proof.
  intros H. apply value_head_plain in H as [H _]. cbn [skip_ws]. rewrite H. reflexivity.
Qed.

(** The reader looks at its input from the first byte that is not white
    space. *)
Lemma read_skip (f : nat) (s : string) : read f (skip_ws s) = read f s.
Proof. destruct f; [reflexivity|]. cbn [read]. rewrite skip_ws_idem. reflexivity. Qed.

Lemma read_elems_skip (f : nat) (s : string) : read_elems f (skip_ws s) = read_elems f s.
Proof. destruct f; [reflexivity|]. cbn [read_elems]. rewrite skip_ws_idem. reflexivity. Qed.

Lemma read_member_skip (f : nat) (s : string) : read_member f (skip_ws s) = read_member f s.
Proof. destruct f; [reflexivity|]. cbn [read_member]. rewrite skip_ws_idem. reflexivity. Qed.

Lemma read_members_skip (f : nat) (s : string) : read_members f (skip_ws s) = read_members f s.
Proof. destruct f; [reflexivity|]. cbn [read_members]. rewrite skip_ws_idem. reflexivity. Qed.

(** The cases of the reader, by the first byte. *)
Lemma read_literal (f : nat) (v : value) (lit : string) (r : string) :
  (lit = "null"%string /\ v = JNull) \/ (lit = "true"%string /\ v = JBool true)
  \/ (lit = "false"%string /\ v = JBool false) ->
  read (S f) (lit +:+ r) = Some (v, r).
Proof.
  intros [[-> ->] | [[-> ->] | [-> ->]]]; destruct r; reflexivity.
Qed.

Lemma read_quoted (f : nat) (r : string) :
  read (S f) (String quote r)
  = match read_string r with
    | Some (t, r') => Some (JStr t, r')
    | None => None
    end.
Proof. reflexivity. Qed.

Lemma read_number (f : nat) (c : ascii) (t : string) :
  is_digit c = true \/ c = "-"%char ->
  read (S f) (String c t)
  = match read_int (String c t) with
    | Some (z, r') => Some (JNum z, r')
    | None => None
    end.
Proof.
  intros Hc.
  destruct c as [[] [] [] [] [] [] [] []];
    try reflexivity; destruct Hc as [Hc | Hc]; discriminate Hc.
Qed.

Lemma read_array (f : nat) (r : string) :
  head_is "]" (skip_ws r) = false ->
  read (S f) (String "[" r)
  = match read f r with
    | Some (x, r1) =>
        match read_elems f r1 with
        | Some (l, r2) => Some (JArr (x :: l), r2)
        | None => None
        end
    | None => None
    end.
Proof.
  intros Hh. change (read (S f) (String "[" r))
    with (match skip_ws r with
          | String "]" r' => Some (JArr [], r')
          | _ =>
              match read f r with
              | Some (x, r1) =>
                  match read_elems f r1 with
                  | Some (l, r2) => Some (JArr (x :: l), r2)
                  | None => None
                  end
              | None => None
              end
          end).
  destruct (skip_ws r) as [|c t]; [reflexivity|].
  destruct c as [[] [] [] [] [] [] [] []]; try reflexivity. discriminate Hh.
Qed.

Lemma read_object (f : nat) (r : string) :
  head_is "}" (skip_ws r) = false ->
  read (S f) (String "{" r)
  = match read_member f r with
    | Some (kx, r1) =>
        match read_members f r1 with
        | Some (l, r2) => Some (JObj (kx :: l), r2)
        | None => None
        end
    | None => None
    end.
Proof.
  intros Hh. change (read (S f) (String "{" r))
    with (match skip_ws r with
          | String "}" r' => Some (JObj [], r')
          | _ =>
              match read_member f r with
              | Some (kx, r1) =>
                  match read_members f r1 with
                  | Some (l, r2) => Some (JObj (kx :: l), r2)
                  | None => None
                  end
              | None => None
              end
          end).
  destruct (skip_ws r) as [|c t]; [reflexivity|].
  destruct c as [[] [] [] [] [] [] [] []]; try reflexivity. discriminate Hh.
Qed.

Lemma read_elems_close (f : nat) (r : string) : read_elems (S f) (String "]" r) = Some ([], r).
Proof. reflexivity. Qed.

Lemma read_elems_comma (f : nat) (r : string) :
  read_elems (S f) (String "," r)
  = match read f r with
    | Some (x, r1) =>
        match read_elems f r1 with
        | Some (l, r2) => Some (x :: l, r2)
        | None => None
        end
    | None => None
    end.
Proof. reflexivity. Qed.

Lemma read_members_close (f : nat) (r : string) :
  read_members (S f) (String "}" r) = Some ([], r).
Proof. reflexivity. Qed.

Lemma read_members_comma (f : nat) (r : string) :
  read_members (S f) (String "," r)
  = match read_member f r with
    | Some (kx, r1) =>
        match read_members f r1 with
        | Some (l, r2) => Some (kx :: l, r2)
        | None => None
        end
    | None => None
    end.
Proof. reflexivity. Qed.

Lemma read_member_quoted (f : nat) (r : string) :
  read_member (S f) (String quote r)
  = match read_string r with
    | Some (k, r1) =>
        match skip_ws r1 with
        | String ":" r2 =>
            match read f r2 with
            | Some (x, r3) => Some ((k, x), r3)
            | None => None
            end
        | _ => None
        end
    | None => None
    end.
Proof. reflexivity. Qed.

End JsonRead.

Section JsonWrite.
Import json.

Lemma json_size_pos (v : value) : (1 <= json_size v)%nat.
Proof. destruct v; cbn [json_size]; lia. Qed.

Lemma write_string_app (s rest : string) :
  write_string s +:+ rest = String quote (escape s +:+ String quote rest).
Proof.
  unfold write_string. rewrite append_cons, append_assoc, append_cons, append_nil_l. reflexivity.
Qed.

Lemma write_int_head (z : Z) (rest : string) :
  exists c t, write_int z +:+ rest = String c t /\ (is_digit c = true \/ c = "-"%char).
Proof.
  unfold write_int, NilZero.string_of_int. destruct z as [|p|p]; cbn [Z.to_int].
  - eexists _, _. split; [reflexivity | left; reflexivity].
  - rewrite to_uint_text. pose proof (to_uint_head p rest) as Hh.
    destruct (NilEmpty.string_of_uint (Pos.to_uint p) +:+ rest) as [|c t]; [contradiction|].
    exists c, t. split; [reflexivity | left; exact Hh].
  - rewrite append_cons. eexists _, _. split; [reflexivity | right; reflexivity].
Qed.

Lemma write_array_app (n : nat) (x : value) (l : list value) (rest : string) :
  write n (JArr (x :: l)) +:+ rest
  = String "[" (newline +:+ indent (S n)
                +:+ write (S n) x
                +:+ elems_text n l +:+ newline +:+ indent n +:+ String "]" rest).
Proof.
  cbn [write]. fold (elems_text n l).
  rewrite !append_assoc, !append_cons, !append_nil_l. reflexivity.
Qed.

Lemma write_object_app (n : nat) (kx : string * value) (l : list (string * value))
    (rest : string) :
  write n (JObj (kx :: l)) +:+ rest
  = String "{" (newline +:+ indent (S n)
                +:+ member_text (S n) kx
                +:+ members_text n l +:+ newline +:+ indent n +:+ String "}" rest).
Proof.
  cbn [write]. fold (member_text (S n)). unfold members_text, member_text.
  rewrite !append_assoc, !append_cons, !append_nil_l. reflexivity.
Qed.

Lemma elems_text_cons (n : nat) (y : value) (l : list value) (rest : string) :
  elems_text n (y :: l) +:+ rest
  = String "," (newline +:+ indent (S n) +:+ write (S n) y +:+ elems_text n l +:+ rest).
Proof.
  unfold elems_text, sep. cbn [map concat_str].
  rewrite !append_assoc, !append_cons, !append_nil_l. reflexivity.
Qed.

Lemma members_text_cons (n : nat) (ky : string * value) (l : list (string * value))
    (rest : string) :
  members_text n (ky :: l) +:+ rest
  = String "," (newline +:+ indent (S n) +:+ member_text (S n) ky +:+ members_text n l +:+ rest).
Proof.
  unfold members_text, sep. cbn [map concat_str].
  rewrite !append_assoc, !append_cons, !append_nil_l. reflexivity.
Qed.

Lemma elems_text_end (n : nat) (l : list value) (k : nat) (rest : string) :
  value_end (elems_text n l +:+ newline +:+ indent k +:+ rest).
Proof.
  destruct l as [|y l].
  - unfold elems_text, newline. cbn [map concat_str]. rewrite append_nil_l, append_cons.
    right. reflexivity.
  - rewrite elems_text_cons. left. reflexivity.
Qed.

Lemma members_text_end (n : nat) (l : list (string * value)) (k : nat) (rest : string) :
  value_end (members_text n l +:+ newline +:+ indent k +:+ rest).
Proof.
  destruct l as [|y l].
  - unfold members_text, newline. cbn [map concat_str]. rewrite append_nil_l, append_cons.
    right. reflexivity.
  - rewrite members_text_cons. left. reflexivity.
Qed.

(** The first byte of the text of a value. *)
Lemma write_head (v : value) (n : nat) (rest : string) :
  exists c t, write n v +:+ rest = String c t /\ value_head c = true.
Proof.
  destruct v as [| [] | z | s | [|x l] | [|kx l]];
    try (eexists _, _; split; [reflexivity | reflexivity]).
  destruct (write_int_head z rest) as (c & t & Heq & Hc). exists c, t.
  split; [exact Heq|]. unfold value_head. destruct Hc as [-> | ->]; [|reflexivity].
  reflexivity.
Qed.

Lemma read_indented (f n : nat) (s : string) :
  read f (newline +:+ indent n +:+ s) = read f s.
Proof. rewrite <- read_skip, skip_ws_newline, read_skip. reflexivity. Qed.

Lemma read_member_indented (f n : nat) (s : string) :
  read_member f (newline +:+ indent n +:+ s) = read_member f s.
Proof. rewrite <- read_member_skip, skip_ws_newline, read_member_skip. reflexivity. Qed.

Lemma head_after_indent (c : ascii) (n : nat) (v : value) (k : nat) (rest : string) :
  c = "]"%char \/ c = "}"%char ->
  head_is c (skip_ws (newline +:+ indent n +:+ write k v +:+ rest)) = false.
Proof.
  intros Hc. rewrite skip_ws_newline.
  destruct (write_head v k rest) as (c' & t & -> & Hh).
  rewrite (skip_ws_head _ _ Hh). cbn [head_is].
  apply value_head_plain in Hh as (_ & H1 & H2). destruct Hc as [-> | ->]; assumption.
Qed.

Lemma head_after_indent_member (n : nat) (kx : string * value) (k : nat) (rest : string) :
  head_is "}" (skip_ws (newline +:+ indent n +:+ member_text k kx +:+ rest)) = false.
Proof.
  rewrite skip_ws_newline. unfold member_text. rewrite append_assoc, write_string_app.
  reflexivity.
Qed.

(** Reading back what was written: a value, the elements of an array after
    the first, a member, the members of an object after the first. *)
Lemma read_write_all (f : nat) :
  (forall v n rest,
     json_ok v = true -> (json_size v <= f)%nat -> value_end rest ->
     read f (write n v +:+ rest) = Some (v, rest))
  /\ (forall l n rest,
        forallb json_ok l = true -> (S (list_sum (map json_size l)) <= f)%nat ->
        read_elems f (elems_text n l +:+ newline +:+ indent n +:+ String "]" rest)
        = Some (l, rest))
  /\ (forall kx n rest,
        member_ok kx = true -> (member_size kx <= f)%nat -> value_end rest ->
        read_member f (member_text n kx +:+ rest) = Some (kx, rest))
  /\ (forall l n rest,
        forallb member_ok l = true -> (S (list_sum (map member_size l)) <= f)%nat ->
        read_members f (members_text n l +:+ newline +:+ indent n +:+ String "}" rest)
        = Some (l, rest)).
Proof.
  induction f as [|f (IHv & IHe & IHm & IHms)].
  { split; [|split; [|split]].
    - intros v n rest _ Hs. pose proof (json_size_pos v). lia.
    - intros l n rest _ Hs. lia.
    - intros kx n rest _ Hs. unfold member_size in Hs. lia.
    - intros l n rest _ Hs. lia. }
  split; [|split; [|split]].
  - intros v n rest Hok Hs Hend.
    destruct v as [| b | z | s | [|x l] | [|kx l]].
    + apply read_literal. left. split; reflexivity.
    + destruct b; apply read_literal; right; [left | right]; split; reflexivity.
    + cbn [write]. destruct (write_int_head z rest) as (c & t & Heq & Hc).
      pose proof (read_int_write_int z rest Hend) as Hr. rewrite Heq in *.
      rewrite (read_number f c t Hc), Hr. reflexivity.
    + cbn [write]. rewrite write_string_app, read_quoted, read_string_escape by exact Hok.
      reflexivity.
    + reflexivity.
    + cbn [json_ok forallb] in Hok. apply andb_true_iff in Hok as [Hx Hl].
      cbn [json_size map list_sum fold_right] in Hs. pose proof (json_size_pos x).
      rewrite write_array_app.
      rewrite read_array by (apply head_after_indent; left; reflexivity).
      rewrite read_indented, IHv; [| exact Hx | lia | apply elems_text_end].
      rewrite IHe; [reflexivity | exact Hl | unfold list_sum; lia].
    + reflexivity.
    + cbn [json_ok forallb] in Hok. apply andb_true_iff in Hok as [Hx Hl].
      cbn [json_size map list_sum fold_right] in Hs. pose proof (json_size_pos (snd kx)).
      rewrite write_object_app.
      rewrite read_object by apply head_after_indent_member.
      rewrite read_member_indented, IHm;
        [| exact Hx | unfold member_size; lia | apply members_text_end].
      rewrite IHms; [reflexivity | exact Hl |].
      change (fun kx0 : string * value => S (json_size (snd kx0))) with member_size in Hs.
      unfold list_sum. lia.
  - intros l n rest Hok Hs. destruct l as [|y l].
    + unfold elems_text. cbn [map concat_str]. rewrite append_nil_l.
      rewrite <- read_elems_skip, skip_ws_newline. reflexivity.
    + cbn [forallb] in Hok. apply andb_true_iff in Hok as [Hy Hl].
      cbn [map list_sum fold_right] in Hs. pose proof (json_size_pos y).
      rewrite elems_text_cons, read_elems_comma, read_indented.
      rewrite IHv; [| exact Hy | lia | apply elems_text_end].
      rewrite IHe; [reflexivity | exact Hl | unfold list_sum; lia].
  - intros [k x] n rest Hok Hs Hend. unfold member_ok in Hok. cbn [fst snd] in Hok.
    apply andb_true_iff in Hok as [Hk Hx]. unfold member_size in Hs. cbn [snd] in Hs.
    unfold member_text. cbn [fst snd].
    rewrite append_assoc, write_string_app, read_member_quoted, read_string_escape by exact Hk.
    rewrite append_assoc.
    change (skip_ws (": " +:+ write n x +:+ rest))
      with (String ":" (String " " (write n x +:+ rest))).
    cbv iota beta.
    rewrite <- (read_skip f (String " " (write n x +:+ rest))).
    change (skip_ws (String " " (write n x +:+ rest))) with (skip_ws (write n x +:+ rest)).
    rewrite read_skip, IHv; [reflexivity | exact Hx | lia | exact Hend].
  - intros l n rest Hok Hs. destruct l as [|y l].
    + unfold members_text. cbn [map concat_str]. rewrite append_nil_l.
      rewrite <- read_members_skip, skip_ws_newline. reflexivity.
    + cbn [forallb] in Hok. apply andb_true_iff in Hok as [Hy Hl].
      cbn [map list_sum fold_right] in Hs. unfold member_size at 1 in Hs.
      rewrite members_text_cons, read_members_comma, read_member_indented.
      rewrite IHm; [| exact Hy | unfold member_size; lia | apply members_text_end].
      rewrite IHms; [reflexivity | exact Hl | unfold list_sum; lia].
Qed.

End JsonWrite.

Section JsonParse.
Import json.

Lemma json_size_length_bound (k : nat) (v : value) (n : nat) :
  (json_size v <= k)%nat -> (json_size v <= String.length (write n v))%nat.
Proof.
  revert v n. induction k as [|k IH]; intros v n Hk.
  { pose proof (json_size_pos v). lia. }
  destruct v as [| [] | z | s | [|x l] | [|kx l]]; try (cbn; lia).
  - cbn [json_size write]. destruct (write_int_head z EmptyString) as (c & t & Heq & _).
    apply (f_equal String.length) in Heq. rewrite length_append in Heq.
    cbn [String.length] in Heq. lia.
  - cbn [json_size map list_sum fold_right] in Hk |- *.
    assert (Hl : forall l' : list value,
              (list_sum (map json_size l') <= k)%nat ->
              (list_sum (map json_size l') <= String.length (elems_text n l'))%nat).
    { induction l' as [|y l' IHl]; intros Hs; [cbn; lia|].
      cbn [map list_sum fold_right] in Hs |- *.
      pose proof (elems_text_cons n y l' EmptyString) as He.
      apply (f_equal String.length) in He.
      rewrite !length_append in He. cbn [String.length] in He. rewrite !length_append in He.
      cbn [String.length] in He.
      pose proof (IH y (S n) ltac:(unfold list_sum in *; lia)).
      specialize (IHl ltac:(unfold list_sum in *; lia)). unfold list_sum in *. lia. }
    pose proof (write_array_app n x l EmptyString) as He.
    apply (f_equal String.length) in He.
    rewrite !length_append in He. cbn [String.length] in He. rewrite !length_append in He.
    cbn [String.length] in He.
    pose proof (IH x (S n) ltac:(unfold list_sum in *; lia)).
    specialize (Hl l ltac:(unfold list_sum in *; lia)). unfold list_sum in *. lia.
  - cbn [json_size map list_sum fold_right] in Hk |- *.
    change (fun kx0 : string * value => S (json_size (snd kx0))) with member_size in *.
    assert (Hm : forall ky : string * value,
              (member_size ky <= k)%nat ->
              (member_size ky <= String.length (member_text (S n) ky))%nat).
    { intros ky Hs. unfold member_size, member_text in *. rewrite !length_append.
      unfold write_string.
      change (String.length (String quote ?x)) with (S (String.length x)).
      pose proof (IH (snd ky) (S n) ltac:(lia)). lia. }
    assert (Hl : forall l' : list (string * value),
              (list_sum (map member_size l') <= k)%nat ->
              (list_sum (map member_size l') <= String.length (members_text n l'))%nat).
    { induction l' as [|y l' IHl]; intros Hs; [cbn; lia|].
      cbn [map list_sum fold_right] in Hs |- *.
      pose proof (members_text_cons n y l' EmptyString) as He.
      apply (f_equal String.length) in He.
      rewrite !length_append in He. cbn [String.length] in He. rewrite !length_append in He.
      cbn [String.length] in He.
      pose proof (Hm y ltac:(unfold list_sum in *; lia)).
      specialize (IHl ltac:(unfold list_sum in *; lia)). unfold list_sum in *. lia. }
    pose proof (write_object_app n kx l EmptyString) as He.
    apply (f_equal String.length) in He.
    rewrite !length_append in He. cbn [String.length] in He. rewrite !length_append in He.
    cbn [String.length] in He.
    pose proof (Hm kx ltac:(unfold list_sum, member_size in *; lia)).
    specialize (Hl l ltac:(unfold list_sum in *; lia)).
    unfold list_sum, member_size in *. lia.
Qed.

(** A document the writer produced parses to the value it was written
    for. *)
Lemma parse_write (v : value) :
  json_ok v = true -> parse (write 0 v +:+ newline) = Some v.
Proof.
  intros Hok. unfold parse.
  destruct (read_write_all (S (String.length (write 0 v +:+ newline)))) as [Hv _].
  rewrite Hv; [reflexivity | exact Hok | | right; reflexivity].
  rewrite length_append.
  pose proof (json_size_length_bound (json_size v) v 0 ltac:(lia)). lia.
Qed.

Lemma ascii_only_valid (s : string) : ascii_only s = true -> valid_utf8 s = true.
Proof.
  induction s as [|c r IH]; [reflexivity|]. cbn [ascii_only valid_utf8].
  intros H. apply andb_true_iff in H as [-> H]. exact (IH H).
Qed.

Lemma ascii_only_app (a b : string) : ascii_only (a +:+ b) = ascii_only a && ascii_only b.
Proof.
  induction a as [|c a IH]; [reflexivity|].
  rewrite append_cons. cbn [ascii_only]. rewrite IH, andb_assoc. reflexivity.
Qed.

End JsonParse.

Section EntryCodec.
Import cache json gojson.

Lemma digit_ascii (c : ascii) : is_digit c = true -> (N_of_ascii c <? 128)%N = true.
Proof.
  unfold is_digit. cbv zeta. intros H. apply andb_true_iff in H as [_ H].
  apply N.leb_le in H. apply N.ltb_lt. lia.
Qed.

Lemma fixed_ascii (w : nat) (z : Z) : ascii_only (rfc3339.fixed w z) = true.
Proof.
  revert z. induction w as [|w IH]; intros z; [reflexivity|].
  rewrite fixed_S, ascii_only_app, IH. cbn [ascii_only andb].
  destruct (digit_char_ok (z mod 10)) as [Hd _]; [apply Z.mod_pos_bound; lia|].
  rewrite (digit_ascii _ Hd). reflexivity.
Qed.

Lemma strip_zeros_ascii (s : string) :
  ascii_only s = true -> ascii_only (rfc3339.strip_zeros s) = true.
Proof.
  induction s as [|c r IH]; [reflexivity|]. cbn [ascii_only rfc3339.strip_zeros].
  intros H. apply andb_true_iff in H as [Hc Hr].
  destruct (strings.isEmpty _ && _); [reflexivity|].
  cbn [ascii_only]. rewrite Hc, (IH Hr). reflexivity.
Qed.

Lemma format_ascii (t : Time) (ts : string) :
  rfc3339.format t = Some ts -> ascii_only ts = true.
Proof.
  unfold rfc3339.format.
  destruct (rfc3339.civil_from_days _) as [[y m] d].
  destruct (_ || _); [discriminate|]. intros Hs.
  apply (f_equal (fun o => match o with Some x => x | None => ts end)) in Hs.
  cbv beta iota in Hs. subst ts.
  rewrite !ascii_only_app, !fixed_ascii.
  destruct (_ =? 0); [reflexivity|].
  rewrite ascii_only_app, strip_zeros_ascii by apply fixed_ascii. reflexivity.
Qed.

Lemma stats_of_values (stats : list PackageStats) :
  forallb valid_stat stats = true -> stats_of (map stat_value stats) = Ok stats.
Proof.
  induction stats as [|[name count] stats IH]; [reflexivity|].
  cbn [forallb map stats_of]. intros H. apply andb_true_iff in H as [Hp Hl].
  rewrite (IH Hl). unfold valid_stat in Hp. cbn [Name FileCount] in Hp.
  apply andb_true_iff in Hp as [_ Hc].
  unfold stat_of, stat_value. cbn [Name FileCount fold_left].
  change (stat_member ("name"%string, JStr name) (Ok (mkPackageStats EmptyString 0)))
    with (Ok (A := PackageStats) (mkPackageStats name 0)).
  change (stat_member ("file_count"%string, JNum count) (Ok (mkPackageStats name 0)))
    with (if in_int64 count then Ok (mkPackageStats name count) else Err type_error).
  rewrite Hc. reflexivity.
Qed.

Lemma stats_values_ok (stats : list PackageStats) :
  forallb valid_stat stats = true -> forallb json_ok (map stat_value stats) = true.
Proof.
  induction stats as [|[name count] stats IH]; [reflexivity|].
  cbn [forallb map]. intros H. apply andb_true_iff in H as [Hp Hl].
  rewrite (IH Hl), andb_true_r. unfold valid_stat in Hp. cbn [Name FileCount] in Hp.
  apply andb_true_iff in Hp as [Hn _].
  unfold stat_value. cbn [Name FileCount json_ok forallb fst snd]. rewrite Hn. reflexivity.
Qed.

Lemma omitempty_ok (key s : string) :
  valid_utf8 key = true -> valid_utf8 s = true -> forallb member_ok (omitempty key s) = true.
Proof.
  intros Hk Hs. unfold omitempty. destruct (strings.isEmpty s); [reflexivity|].
  cbn [forallb]. unfold member_ok. cbn [fst snd json_ok]. rewrite Hk, Hs. reflexivity.
Qed.

(** The members of the object written for a record, read into a zero
    record, give the record. *)
Lemma entry_members (e : CacheEntry) (ts : string) :
  rfc3339.format (Timestamp e) = Some ts ->
  forallb valid_stat (Stats e) = true ->
  fold_left (fun r kv => entry_member kv r)
    ([("architecture"%string, JStr (Architecture e));
      ("stats"%string, JArr (map stat_value (Stats e)));
      ("timestamp"%string, JStr ts)]
     ++ omitempty "etag" (ETag e)
     ++ omitempty "last_modified" (LastModified e)
     ++ [("url"%string, JStr (URL e))]
     ++ omitempty "checksum" (Checksum e))
    (Ok zero_entry)
  = Ok e.
Proof.
  intros Hts Hstats. destruct e as [arch stats t etag lm url ck].
  cbn [Architecture Stats Timestamp ETag LastModified URL Checksum] in *.
  apply parse_format in Hts. apply stats_of_values in Hstats.
  rewrite !fold_left_app. cbn [fold_left].
  change (entry_member ("architecture"%string, JStr arch) (Ok zero_entry))
    with (Ok (mkCacheEntry arch [] 0 EmptyString EmptyString EmptyString EmptyString)).
  change (entry_member ("stats"%string, JArr (map stat_value stats))
            (Ok (mkCacheEntry arch [] 0 EmptyString EmptyString EmptyString EmptyString)))
    with (match stats_of (map stat_value stats) with
          | Ok ps => Ok (mkCacheEntry arch ps 0 EmptyString EmptyString EmptyString EmptyString)
          | Err err => Err err
          end).
  rewrite Hstats.
  change (entry_member ("timestamp"%string, JStr ts)
            (Ok (mkCacheEntry arch stats 0 EmptyString EmptyString EmptyString EmptyString)))
    with (match rfc3339.parse ts with
          | Some t' =>
              Ok (mkCacheEntry arch stats t' EmptyString EmptyString EmptyString EmptyString)
          | None => Err (ErrExternal "parsing time")
          end).
  rewrite Hts.
  destruct etag as [|c1 etag]; destruct lm as [|c2 lm]; destruct ck as [|c3 ck]; reflexivity.
Qed.

Lemma members_ok (e : CacheEntry) (ts : string) :
  valid_record e = true -> rfc3339.format (Timestamp e) = Some ts ->
  forallb member_ok
    ([("architecture"%string, JStr (Architecture e));
      ("stats"%string, JArr (map stat_value (Stats e)));
      ("timestamp"%string, JStr ts)]
     ++ omitempty "etag" (ETag e)
     ++ omitempty "last_modified" (LastModified e)
     ++ [("url"%string, JStr (URL e))]
     ++ omitempty "checksum" (Checksum e)) = true.
Proof.
  unfold valid_record. intros Hv Hts.
  repeat (apply andb_true_iff in Hv as [Hv ?]).
  rewrite !forallb_app, !omitempty_ok by (assumption || reflexivity).
  cbn [forallb]. unfold member_ok. cbn [fst snd json_ok].
  rewrite stats_values_ok by assumption.
  rewrite (ascii_only_valid ts (format_ascii _ _ Hts)).
  repeat match goal with H : valid_utf8 _ = true |- _ => rewrite H; clear H end.
  reflexivity.
Qed.

(** The codec serialises every valid record without loss. *)
Lemma gojson_lossless (e : CacheEntry) :
  valid_record e = true -> lossless (H := gojson.codec) e.
Proof.
  intros Hv bytes. cbn [json_Encode json_Unmarshal codec]. unfold Encode, entry_value.
  destruct (rfc3339.format (Timestamp e)) as [ts|] eqn:Hts.
  2: { unfold valid_record, year_ok in Hv. rewrite Hts in Hv.
       rewrite !andb_false_r in Hv. discriminate. }
  intros Hb.
  apply (f_equal (fun r => match r with Ok x => x | Err _ => bytes end)) in Hb.
  cbv beta iota in Hb. subst bytes. unfold Unmarshal. rewrite parse_write.
  - apply entry_members; [exact Hts|].
    unfold valid_record in Hv. repeat (apply andb_true_iff in Hv as [Hv ?]). assumption.
  - cbn [json_ok]. apply (members_ok e ts Hv Hts).
Qed.

End EntryCodec.

(** * Properties *)

(** ** The line parser *)

Section ProcessLineFacts.
Import strings.

Lemma prefix_space (s : string) :
  String.prefix " " s = match s with String c _ => Ascii.eqb " " c | EmptyString => false end.
Proof.
  destruct s as [|c r]; cbn [String.prefix]; [reflexivity|].
  destruct (ascii_dec " " c) as [<-|Hne].
  - destruct r; reflexivity.
  - symmetry. apply Ascii.eqb_neq. exact Hne.
Qed.

Lemma Index_from_space (s : string) (i : Z) :
  0 <= i ->
  (contains " " s = false -> Index_from s " " i = -1)
  /\ (contains " " s = true -> i <= Index_from s " " i).
Proof.
  revert i. induction s as [|c r IH]; intros i Hi.
  - split; [reflexivity | discriminate].
  - cbn [Index_from contains]. rewrite prefix_space.
    destruct (Ascii.eqb " " c) eqn:E; cbn [orb].
    + split; [discriminate | lia].
    + destruct (IH (i + 1)) as [IH1 IH2]; [lia|].
      split; [exact IH1 | intros Hc; specialize (IH2 Hc); lia].
Qed.

Lemma Index_space_none (s : string) :
  Index s " " = -1 <-> contains " " s = false.
Proof.
  unfold Index. destruct (Index_from_space s 0) as [H1 H2]; [lia|].
  split; [|exact H1].
  intros Hi. destruct (contains " " s); [|reflexivity].
  specialize (H2 eq_refl). lia.
Qed.

Lemma contains_TrimLeft_len (c : ascii) (n : nat) (s : string) :
  (String.length s <= n)%nat -> contains c s = false -> contains c (TrimLeft s) = false.
Proof.
  revert s. induction n as [|n IH]; intros s Hn Hc.
  - destruct s; [reflexivity | simpl in Hn; lia].
  - destruct s as [|c1 s1]; [reflexivity|].
    cbn [contains] in Hc. apply orb_false_iff in Hc as [Hc1 Hs1].
    cbn [String.length] in Hn.
    cbn [TrimLeft]. destruct (asciiSpace c1).
    { apply IH; [lia | exact Hs1]. }
    destruct s1 as [|c2 s2]; [cbn [contains]; rewrite Hc1; reflexivity|].
    cbn [contains] in Hs1. apply orb_false_iff in Hs1 as [Hc2 Hs2].
    cbn [String.length] in Hn.
    destruct (space2 c1 c2).
    { apply IH; [lia | exact Hs2]. }
    destruct s2 as [|c3 s3]; [cbn [contains]; rewrite Hc1, Hc2; reflexivity|].
    cbn [contains] in Hs2. apply orb_false_iff in Hs2 as [Hc3 Hs3].
    cbn [String.length] in Hn.
    destruct (space3 c1 c2 c3).
    { apply IH; [lia | exact Hs3]. }
    cbn [contains]. rewrite Hc1, Hc2, Hc3, Hs3. reflexivity.
Qed.

Lemma contains_TrimRight (c : ascii) (s : string) :
  contains c s = false -> contains c (TrimRight s) = false.
Proof.
  induction s as [|c1 s1 IH]; intros Hc; [reflexivity|].
  cbn [contains] in Hc. apply orb_false_iff in Hc as [Hc1 Hs1].
  cbn [TrimRight]. destruct (isEmpty _); [reflexivity|].
  cbn [contains]. rewrite Hc1, (IH Hs1). reflexivity.
Qed.

Lemma contains_TrimSpace (c : ascii) (s : string) :
  contains c s = false -> contains c (TrimSpace s) = false.
Proof.
  intros Hc. unfold TrimSpace. apply contains_TrimRight.
  apply (contains_TrimLeft_len c (String.length s)); [lia | exact Hc].
Qed.

Lemma HasPrefix_FILE (s : string) :
  HasPrefix s "FILE" = true ->
  exists r, s = String "F" (String "I" (String "L" (String "E" r))).
Proof.
  unfold HasPrefix. intros Hp.
  destruct s as [|c1 s]; [discriminate|]. cbn [String.prefix] in Hp.
  destruct (ascii_dec "F" c1) as [<-|]; [|discriminate].
  destruct s as [|c2 s]; [discriminate|]. cbn [String.prefix] in Hp.
  destruct (ascii_dec "I" c2) as [<-|]; [|discriminate].
  destruct s as [|c3 s]; [discriminate|]. cbn [String.prefix] in Hp.
  destruct (ascii_dec "L" c3) as [<-|]; [|discriminate].
  destruct s as [|c4 s]; [discriminate|]. cbn [String.prefix] in Hp.
  destruct (ascii_dec "E" c4) as [<-|]; [|discriminate].
  exists s. reflexivity.
Qed.

Lemma TrimLeft_letter (c : ascii) (s : string) :
  asciiSpace c = false -> (N_of_ascii c <? 128)%N = true ->
  TrimLeft (String c s) = String c s.
Proof.
  intros Hs Hc. cbn [TrimLeft]. rewrite Hs.
  assert (H2 : forall c2, space2 c c2 = false).
  { intros c2. unfold space2. apply N.ltb_lt in Hc.
    destruct (N.eqb_spec (N_of_ascii c) 194); [lia | reflexivity]. }
  assert (H3 : forall c2 c3, space3 c c2 c3 = false).
  { intros c2 c3. unfold space3. apply N.ltb_lt in Hc.
    destruct (N.eqb_spec (N_of_ascii c) 225); [lia|].
    destruct (N.eqb_spec (N_of_ascii c) 226); [lia|].
    destruct (N.eqb_spec (N_of_ascii c) 227); [lia|]. reflexivity. }
  destruct s as [|c2 s2]; [reflexivity|]. rewrite H2.
  destruct s2 as [|c3 s3]; [reflexivity|]. rewrite H3. reflexivity.
Qed.

Lemma TrimRight_letter (c : ascii) (s : string) :
  asciiSpace c = false -> (N_of_ascii c <? 128)%N = true ->
  TrimRight (String c s) = String c (TrimRight s).
Proof.
  intros Hs Hc. cbn [TrimRight]. rewrite (TrimLeft_letter c s Hs Hc). reflexivity.
Qed.

Lemma TrimSpace_FILE (r : string) :
  HasPrefix (TrimSpace (String "F" (String "I" (String "L" (String "E" r))))) "FILE" = true.
Proof.
  unfold TrimSpace.
  rewrite TrimLeft_letter by reflexivity.
  rewrite !TrimRight_letter by reflexivity.
  unfold HasPrefix. destruct (TrimRight r); reflexivity.
Qed.

End ProcessLineFacts.

(** C8. [ProcessLine] on the line "usr/bin/file1 pkg1,pkg2,pkg3" and an empty
    aggregation gives pkg1, pkg2 and pkg3 a count of one each and nothing
    else; on the empty line, on a line that starts with the header prefix
    FILE, and on a line without a space it leaves every aggregation as it
    is. *)
Theorem ProcessLine_contributions :
  app.ProcessLine "usr/bin/file1 pkg1,pkg2,pkg3" ∅
  = <["pkg1" := 1]> (<["pkg2" := 1]> (<["pkg3" := 1]> ∅))
  /\ (forall m, app.ProcessLine EmptyString m = m)
  /\ (forall line m, strings.HasPrefix line "FILE" = true -> app.ProcessLine line m = m)
  /\ (forall line m, strings.Index line " " = -1 -> app.ProcessLine line m = m).
Proof.
  split; [vm_compute; reflexivity|].
  split; [reflexivity|].
  split.
  - intros line m Hp. destruct (HasPrefix_FILE line Hp) as [r ->].
    unfold app.ProcessLine. rewrite TrimSpace_FILE, orb_true_r. reflexivity.
  - intros line m Hi. unfold app.ProcessLine.
    apply Index_space_none in Hi. apply contains_TrimSpace in Hi.
    apply Index_space_none in Hi. rewrite Hi.
    destruct (_ || _); reflexivity.
Qed.

Lemma ProcessLine_contributions_witness :
  strings.HasPrefix "FILE header" "FILE" = true
  /\ strings.Index "usr/bin/file1pkg1" " " = -1
  /\ app.ProcessLine "FILE header" (<["pkg1" := 1]> ∅) = <["pkg1" := 1]> ∅
  /\ app.ProcessLine "usr/bin/file1pkg1" (<["pkg1" := 1]> ∅) = <["pkg1" := 1]> ∅.
Proof.
  split; [reflexivity|]. split; [reflexivity|].
  destruct ProcessLine_contributions as (_ & _ & Hh & Hn).
  split; [apply Hh; reflexivity | apply Hn; reflexivity].
Defined.

(** ** The aggregation finaliser *)

Section SortMapFacts.
Import cache app.

Lemma fold_left_append (order : list (string * Z)) (acc : list PackageStats) :
  fold_left (fun stats kv => stats ++ [mkPackageStats (fst kv) (snd kv)]) order acc
  = acc ++ map entry_of order.
Proof.
  revert acc. induction order as [|kv order IH]; intros acc; cbn [fold_left map].
  - rewrite app_nil_r. reflexivity.
  - rewrite IH, <- app_assoc. reflexivity.
Qed.

Lemma insert_left_perm (x : PackageStats) (racc : list PackageStats) :
  Permutation (x :: racc) (insert_left less x racc).
Proof.
  induction racc as [|y rl IH]; cbn [insert_left]; [reflexivity|].
  destruct (less x y); [|reflexivity].
  rewrite perm_swap. apply perm_skip. exact IH.
Qed.

Lemma insert_left_sorted (x : PackageStats) (racc : list PackageStats) :
  StronglySorted ascending racc -> StronglySorted ascending (insert_left less x racc).
Proof.
  induction racc as [|y rl IH]; intros Hs; cbn [insert_left].
  - repeat constructor.
  - apply StronglySorted_inv in Hs as [Hrl Hy].
    unfold less. destruct (Z.ltb_spec (FileCount y) (FileCount x)) as [Hlt|Hge].
    + constructor; [exact (IH Hrl)|].
      rewrite <- insert_left_perm. constructor; [unfold ascending; lia | exact Hy].
    + constructor; [constructor; assumption|].
      constructor; [exact Hge|].
      eapply Forall_impl; [exact Hy|]. unfold ascending. intros z Hz. lia.
Qed.

Lemma insertion_rounds (l racc : list PackageStats) :
  StronglySorted ascending racc ->
  StronglySorted ascending (fold_left (fun racc x => insert_left less x racc) l racc)
  /\ Permutation (rev l ++ racc) (fold_left (fun racc x => insert_left less x racc) l racc).
Proof.
  revert racc. induction l as [|x l IH]; intros racc Hs; cbn [fold_left].
  - split; [exact Hs | reflexivity].
  - destruct (IH _ (insert_left_sorted x racc Hs)) as [IH1 IH2].
    split; [exact IH1|].
    rewrite <- IH2, <- insert_left_perm. cbn [rev]. rewrite <- app_assoc. reflexivity.
Qed.

Lemma sorted_snoc (l : list PackageStats) (x : PackageStats) :
  StronglySorted descending l -> Forall (fun y => descending y x) l ->
  StronglySorted descending (l ++ [x]).
Proof.
  induction l as [|y l IH]; intros Hs Hx; cbn [app].
  - repeat constructor.
  - apply StronglySorted_inv in Hs as [Hl Hy]. apply Forall_cons_iff in Hx as [Hyx Hlx].
    constructor; [exact (IH Hl Hlx)|].
    apply Forall_app. split; [exact Hy | constructor; [exact Hyx | constructor]].
Qed.

Lemma sorted_rev (l : list PackageStats) :
  StronglySorted ascending l -> StronglySorted descending (rev l).
Proof.
  induction l as [|x l IH]; intros Hs; cbn [rev]; [constructor|].
  apply StronglySorted_inv in Hs as [Hl Hx].
  apply sorted_snoc; [exact (IH Hl)|].
  apply Forall_rev. exact Hx.
Qed.

Lemma sort_Slice_sorted (l : list PackageStats) :
  StronglySorted descending (sort_Slice less l) /\ Permutation l (sort_Slice less l).
Proof.
  unfold sort_Slice.
  destruct (insertion_rounds l []) as [Hs Hp]; [constructor|].
  split; [apply sorted_rev; exact Hs|].
  rewrite <- Permutation_rev, <- Hp, app_nil_r. apply Permutation_rev.
Qed.

Lemma SortMap_range_sorted (order : list (string * Z)) :
  StronglySorted descending (SortMap_range order)
  /\ Permutation (map entry_of order) (SortMap_range order).
Proof.
  unfold SortMap_range. rewrite fold_left_append. cbn [app]. apply sort_Slice_sorted.
Qed.

Lemma insertion_rounds_sorted (l racc : list PackageStats) :
  StronglySorted descending l ->
  (forall x y, In x l -> In y racc -> FileCount x <= FileCount y) ->
  fold_left (fun racc x => insert_left less x racc) l racc = rev l ++ racc.
Proof.
  revert racc. induction l as [|x l IH]; intros racc Hs Hle; cbn [fold_left rev]; [reflexivity|].
  apply StronglySorted_inv in Hs as [Hl Hx].
  assert (Hins : insert_left less x racc = x :: racc).
  { destruct racc as [|y rl]; [reflexivity|]. cbn [insert_left]. unfold less.
    destruct (Z.ltb_spec (FileCount y) (FileCount x)) as [Hlt|_]; [|reflexivity].
    specialize (Hle x y (or_introl eq_refl) (or_introl eq_refl)). lia. }
  rewrite Hins, IH, <- app_assoc; [reflexivity | exact Hl |].
  intros x' y Hx' [<- | Hy].
  - rewrite Forall_forall in Hx. apply Hx. apply list_elem_of_In. exact Hx'.
  - apply Hle; [right; exact Hx' | exact Hy].
Qed.

(** A slice that is sorted already is left as it is. *)
Lemma sort_Slice_sorted_id (l : list PackageStats) :
  StronglySorted descending l -> sort_Slice less l = l.
Proof.
  intros Hs. unfold sort_Slice.
  rewrite insertion_rounds_sorted; [| exact Hs | intros x y _ []].
  rewrite app_nil_r. apply rev_involutive.
Qed.

(** The results of [SortMap] are the sorted arrangements of the entries. *)
Lemma SortMap_returns_iff (m : gmap string Z) (out : list PackageStats) :
  SortMap_returns m out
  <-> StronglySorted descending out /\ Permutation (map entry_of (map_to_list m)) out.
Proof.
  split.
  - intros (order & Hperm & ->).
    destruct (SortMap_range_sorted order) as [Hs Hp].
    split; [exact Hs|]. rewrite <- Hp. apply Permutation_map. symmetry. exact Hperm.
  - intros [Hs Hp].
    exists (map (fun p => (Name p, FileCount p)) out).
    assert (Hback : forall l : list (string * Z),
               map (fun p => (Name p, FileCount p)) (map entry_of l) = l).
    { induction l as [|[k v] l IH]; cbn; [reflexivity | rewrite IH; reflexivity]. }
    assert (Hforth : map entry_of (map (fun p => (Name p, FileCount p)) out) = out).
    { clear. induction out as [|[k v] l IH]; cbn; [reflexivity | rewrite IH; reflexivity]. }
    split.
    + rewrite <- (Hback (map_to_list m)). apply Permutation_map. symmetry. exact Hp.
    + unfold SortMap_range. rewrite fold_left_append. cbn [app]. rewrite Hforth.
      symmetry. apply sort_Slice_sorted_id. exact Hs.
Qed.

End SortMapFacts.

(** C7, as the code has it.  The results [SortMap] can return, over the
    orders in which the map may be iterated, are the arrangements of the
    entries of the aggregation, each once, that are sorted by count
    descending; the aggregation low:5, high:50 sorts to high, low.
    Nothing is promised on the order of entries with equal counts. *)
Theorem SortMap_sorted_descending :
  (forall m out,
     app.SortMap_returns m out
     <-> StronglySorted descending out /\ Permutation (map entry_of (map_to_list m)) out)
  /\ (forall out,
        app.SortMap_returns (<["low" := 5]> (<["high" := 50]> ∅)) out ->
        out = [cache.mkPackageStats "high" 50; cache.mkPackageStats "low" 5]).
Proof.
  split; [exact SortMap_returns_iff|].
  intros out Hout. apply SortMap_returns_iff in Hout as [Hs Hp].
  vm_compute in Hp.
  apply Permutation_length_2_inv in Hp as [-> | ->].
  - apply StronglySorted_inv in Hs as [_ Hs]. apply Forall_cons_iff in Hs as [Hs _].
    unfold descending in Hs. cbn in Hs. lia.
  - reflexivity.
Qed.

Lemma SortMap_sorted_descending_witness :
  app.SortMap_returns (<["low" := 5]> (<["high" := 50]> ∅))
    (app.SortMap_range [("low"%string, 5); ("high"%string, 50)])
  /\ app.SortMap_range [("low"%string, 5); ("high"%string, 50)]
     = [cache.mkPackageStats "high" 50; cache.mkPackageStats "low" 5].
Proof.
  assert (Hr : app.SortMap_returns (<["low" := 5]> (<["high" := 50]> ∅))
                 (app.SortMap_range [("low"%string, 5); ("high"%string, 50)])).
  { exists [("low"%string, 5); ("high"%string, 50)]. split; [|reflexivity].
    vm_compute. reflexivity. }
  split; [exact Hr|].
  exact (proj2 SortMap_sorted_descending _ Hr).
Defined.

(** C7, as the specification words it, fails: the aggregation a:1, b:1,
    filled in that order, is also returned as b, a. *)
Lemma SortMap_ties_follow_iteration : ~ ties_by_insertion_order.
Proof.
  intros Hclaim.
  specialize (Hclaim [("a"%string, 1); ("b"%string, 1)]
                (app.SortMap_range [("b"%string, 1); ("a"%string, 1)])).
  assert (Hnd : NoDup (map fst [("a"%string, 1); ("b"%string, 1)])).
  { cbn. repeat constructor; cbn; intros Hin.
    - apply list_elem_of_singleton in Hin. discriminate.
    - apply not_elem_of_nil in Hin. exact Hin. }
  specialize (Hclaim Hnd).
  assert (Hr : app.SortMap_returns (list_to_map [("a"%string, 1); ("b"%string, 1)])
                 (app.SortMap_range [("b"%string, 1); ("a"%string, 1)])).
  { exists [("b"%string, 1); ("a"%string, 1)]. split; [|reflexivity].
    vm_compute. first [reflexivity | apply perm_swap]. }
  specialize (Hclaim Hr). vm_compute in Hclaim. discriminate.
Qed.

(** ** The cache store *)

Section CacheFacts.
Import cache.
Context `{Codec}.
Variable env : Env.

Lemma tmp_neq (file : string) : file +:+ ".tmp" <> file.
Proof.
  intros Heq. apply (f_equal String.length) in Heq.
  rewrite length_append in Heq. cbn in Heq. lia.
Qed.

Lemma call_files (op : FsOp) (w : World) : files (snd (os.call env op w)) = files w.
Proof. reflexivity. Qed.

Lemma Rename_inv (old new : string) (w w' : World) (err : option error) :
  os.Rename env old new w = (err, w') ->
  match err with
  | None => exists f, files w !! old = Some f /\ files w' = <[new := f]> (delete old (files w))
  | Some _ => files w' = files w
  end.
Proof.
  unfold os.Rename, os.call. destruct (fs_fault env (trace w) (OpRename old new)).
  - intros [= <- <-]. reflexivity.
  - cbn [files emit]. destruct (files w !! old) as [f|] eqn:Hf.
    + intros [= <- <-]. exists f. split; reflexivity.
    + intros [= <- <-]. reflexivity.
Qed.

Lemma rename_retry_ok (tmp file : string) (n : nat) (w w' : World) :
  rename_retry env tmp file n w = (None, w') ->
  exists f, files w !! tmp = Some f /\ files w' = <[file := f]> (delete tmp (files w)).
Proof.
  revert w. induction n as [|n IH]; intros w; cbn [rename_retry]; [discriminate|].
  destruct (os.Rename env tmp file w) as [[e|] w1] eqn:Hr; apply Rename_inv in Hr.
  - intros Hn. apply IH in Hn. cbn [Sleep emit files] in Hn. rewrite Hr in Hn. exact Hn.
  - intros [= <-]. exact Hr.
Qed.

Lemma Remove_missing (name : string) (w : World) :
  files w !! name = None -> files (snd (os.Remove env name w)) = files w.
Proof.
  intros Hn. unfold os.Remove, os.call.
  destruct (fs_fault env (trace w) (OpRemove name)); [reflexivity|].
  cbn [files emit]. rewrite Hn. reflexivity.
Qed.

Lemma SaveCache_deferred_missing (tmp : string) (w : World) :
  files w !! tmp = None -> files (SaveCache_deferred env tmp w) = files w.
Proof.
  intros Hn. unfold SaveCache_deferred.
  destruct (os.Close env tmp w) as [e1 w1] eqn:Hc.
  assert (Hw1 : files w1 = files w).
  { change w1 with (snd (e1, w1)). rewrite <- Hc. reflexivity. }
  destruct (os.Remove env tmp w1) as [e2 w2] eqn:Hr.
  change w2 with (snd (e2, w2)). rewrite <- Hr, Remove_missing; [exact Hw1|].
  rewrite Hw1. exact Hn.
Qed.

(** What a successful [SaveCache] leaves at [file]: the bytes the encoder
    wrote for the record with its checksum set. *)
Lemma SaveCache_ok_file (file : string) (entry entry' : CacheEntry) (w w' : World) :
  SaveCache env file entry w = (None, entry', w') ->
  exists data bytes f,
    json_Marshal_Stats (Stats entry) = Ok data
    /\ entry' = set_Checksum (md5_hex data) entry
    /\ json_Encode entry' = Ok bytes
    /\ files w' !! file = Some f /\ File_data f = bytes.
Proof.
  unfold SaveCache.
  destruct (json_Marshal_Stats (Stats entry)) as [data|e]; [|discriminate].
  set (e1 := set_Checksum (md5_hex data) entry).
  set (tmp := file +:+ ".tmp").
  unfold os.Create, os.call.
  destruct (fs_fault env (trace w) (OpCreate tmp)); [discriminate|].
  set (w1 := set_files _ _).
  destruct (json_Encode e1) as [bytes|e] eqn:He; [|discriminate].
  unfold os.Write, os.call.
  destruct (fs_fault env (trace w1) (OpWrite tmp bytes)); [discriminate|].
  assert (Htmp : files (emit (EvFs (OpWrite tmp bytes)) w1) !! tmp
                 = Some (mkFile EmptyString (Now env (emit (EvFs (OpCreate tmp)) w)))).
  { subst w1. cbn [files emit set_files]. apply lookup_insert_eq. }
  rewrite Htmp. cbn [File_data]. change (EmptyString +:+ bytes) with bytes.
  set (w2 := set_files _ _).
  unfold os.Sync, os.Close, os.call.
  destruct (fs_fault env (trace w2) (OpSync tmp)); [discriminate|].
  destruct (fs_fault env _ (OpClose tmp)); [discriminate|].
  set (w3 := emit (EvFs (OpClose tmp)) _).
  destruct (rename_retry env tmp file 5 w3) as [[e|] w4] eqn:Hr; [discriminate|].
  intros [= <- <-].
  apply rename_retry_ok in Hr as (f & Hf & Hw4).
  assert (Hf3 : files w3 !! tmp = Some (mkFile bytes (Now env (emit (EvFs (OpWrite tmp bytes)) w1)))).
  { subst w3 w2. cbn [files emit set_files]. apply lookup_insert_eq. }
  rewrite Hf3 in Hf. injection Hf as <-.
  exists data, bytes, (mkFile bytes (Now env (emit (EvFs (OpWrite tmp bytes)) w1))).
  split; [reflexivity|]. split; [reflexivity|]. split; [exact He|].
  split; [|reflexivity].
  rewrite SaveCache_deferred_missing.
  - rewrite Hw4. apply lookup_insert_eq.
  - rewrite Hw4. rewrite lookup_insert_ne by (symmetry; apply tmp_neq).
    apply lookup_delete_eq.
Qed.

(** With no fault and a record that encodes, [SaveCache] succeeds. *)
Lemma SaveCache_no_faults (file : string) (entry : CacheEntry) (w : World) (data bytes : string) :
  no_faults env ->
  json_Marshal_Stats (Stats entry) = Ok data ->
  json_Encode (set_Checksum (md5_hex data) entry) = Ok bytes ->
  exists w', SaveCache env file entry w = (None, set_Checksum (md5_hex data) entry, w').
Proof.
  intros Hnf Hm He. unfold SaveCache. rewrite Hm, He.
  unfold os.Create, os.Write, os.Sync, os.Close, os.call. rewrite !Hnf.
  cbn [files emit set_files]. rewrite lookup_insert_eq.
  rewrite !Hnf. cbn [rename_retry]. unfold os.Rename, os.call. rewrite Hnf.
  cbn [files emit set_files]. rewrite lookup_insert_eq.
  eexists. reflexivity.
Qed.

Lemma LoadCache_reads (file : string) (ttl : Duration) (w : World) (f : File) (entry : CacheEntry) :
  files w !! file = Some f ->
  fs_fault env (trace w) (OpReadFile file) = None ->
  json_Unmarshal (File_data f) = Ok entry ->
  LoadCache env file ttl w
  = (if Since env (emit (EvFs (OpReadFile file)) w) (Timestamp entry) >? ttl
     then Err ErrCacheExpired else Ok entry,
     emit (EvFs (OpReadFile file)) w).
Proof.
  intros Hf Hr Hu. unfold LoadCache, os.ReadFile, os.call. rewrite Hr.
  cbn [files emit]. rewrite Hf, Hu.
  destruct (_ >? _); reflexivity.
Qed.

End CacheFacts.

(** C4, as the code has it.  A file that is read and whose content does
    not parse as a cache record: [LoadCache] returns the corrupt-cache
    error and asks for the removal of the file, whose outcome it discards.
    When the system carries the removal out the file is gone and a second
    [LoadCache] of the same path returns the not-found error; when the
    system refuses it every file stays as it was and a second [LoadCache]
    returns the corrupt-cache error again. *)
Theorem LoadCache_corrupt_removed `{cache.Codec} (env : Env) (file : string)
    (ttl : Duration) (w : World) (f : File) (e : error) :
  files w !! file = Some f ->
  cache.json_Unmarshal (File_data f) = Err e ->
  fs_fault env (trace w) (OpReadFile file) = None ->
  exists w1,
    cache.LoadCache env file ttl w = (Err ErrCorruptCache, w1)
    /\ trace w1 = EvFs (OpRemove file) :: EvFs (OpReadFile file) :: trace w
    /\ (fs_fault env (EvFs (OpReadFile file) :: trace w) (OpRemove file) = None ->
        files w1 = delete file (files w)
        /\ forall ttl',
             fs_fault env (trace w1) (OpReadFile file) = None ->
             exists w2, cache.LoadCache env file ttl' w1 = (Err (ErrNotExist file), w2)
                        /\ files w2 = files w1)
    /\ (fs_fault env (EvFs (OpReadFile file) :: trace w) (OpRemove file) <> None ->
        files w1 = files w
        /\ forall ttl',
             fs_fault env (trace w1) (OpReadFile file) = None ->
             exists w2, cache.LoadCache env file ttl' w1 = (Err ErrCorruptCache, w2)).
Proof.
  intros Hf Hu Hread.
  unfold cache.LoadCache at 1. unfold os.ReadFile, os.call. rewrite Hread.
  cbn [files emit]. rewrite Hf, Hu.
  unfold os.Remove, os.call. cbn [trace emit].
  destruct (fs_fault env (EvFs (OpReadFile file) :: trace w) (OpRemove file)) as [re|] eqn:Hremove.
  - eexists. split; [reflexivity|]. split; [reflexivity|]. split; [discriminate|].
    intros _. split; [reflexivity|].
    intros ttl' Hread'.
    unfold cache.LoadCache, os.ReadFile, os.call. rewrite Hread'.
    cbn [files emit]. rewrite Hf, Hu.
    destruct (os.Remove env file _) as [r w2]. eexists. reflexivity.
  - cbn [files emit]. rewrite Hf.
    eexists. split; [reflexivity|]. split; [reflexivity|]. split; [|intros Hne; contradiction].
    intros _. split; [reflexivity|].
    intros ttl' Hread'.
    unfold cache.LoadCache, os.ReadFile, os.call. rewrite Hread'.
    cbn [files emit set_files]. rewrite lookup_delete_eq.
    eexists. split; reflexivity.
Qed.

Lemma LoadCache_corrupt_removed_witness :
  exists w1,
    cache.LoadCache env_offline "corrupt.json" time.Hour world_corrupt = (Err ErrCorruptCache, w1)
    /\ files w1 = delete "corrupt.json" (files world_corrupt)
    /\ exists w2, cache.LoadCache env_offline "corrupt.json" time.Hour w1
                  = (Err (ErrNotExist "corrupt.json"), w2)
                  /\ files w2 = files w1.
Proof.
  destruct (LoadCache_corrupt_removed (H := gojson.codec) env_offline "corrupt.json" time.Hour
              world_corrupt (mkFile "invalid json" t_2025) (ErrExternal "invalid character"))
    as (w1 & Hload & _ & Hremoved & _).
  - reflexivity.
  - vm_compute. reflexivity.
  - reflexivity.
  - exists w1. split; [exact Hload|].
    destruct (Hremoved eq_refl) as [Hfiles Hsecond].
    split; [exact Hfiles|]. apply Hsecond. reflexivity.
Defined.

(** C4, as the specification words it, fails.  On a file system that
    refuses the removal, [LoadCache] of a file that does not parse returns
    the corrupt-cache error and leaves the file where it was, and a second
    [LoadCache] of the same path returns the corrupt-cache error again,
    not the not-found error. *)
Lemma LoadCache_corrupt_kept :
  let w1 := snd (cache.LoadCache env_undeletable "corrupt.json" time.Hour world_corrupt) in
  fst (cache.LoadCache env_undeletable "corrupt.json" time.Hour world_corrupt)
  = Err ErrCorruptCache
  /\ files w1 !! "corrupt.json" = Some (mkFile "invalid json" t_2025)
  /\ fst (cache.LoadCache env_undeletable "corrupt.json" time.Hour w1) = Err ErrCorruptCache.
Proof.
  cbv zeta. split; [|split]; vm_compute; reflexivity.
Qed.

(** C5. A file that holds a valid record whose age, [time.Since] of its
    time stamp, exceeds the TTL: [LoadCache] returns the expired error, no
    record, and leaves every file as it was. *)
Theorem LoadCache_expired_kept `{cache.Codec} (env : Env) (file : string)
    (ttl : Duration) (w : World) (f : File) (entry : cache.CacheEntry) :
  files w !! file = Some f ->
  cache.json_Unmarshal (File_data f) = Ok entry ->
  fs_fault env (trace w) (OpReadFile file) = None ->
  Since env (emit (EvFs (OpReadFile file)) w) (cache.Timestamp entry) > ttl ->
  exists w1,
    cache.LoadCache env file ttl w = (Err ErrCacheExpired, w1)
    /\ files w1 = files w
    /\ files w1 !! file = Some f.
Proof.
  intros Hf Hu Hread Hold.
  rewrite (LoadCache_reads env file ttl w f entry Hf Hread Hu).
  apply Z.gt_lt, Z.gtb_lt in Hold. rewrite Hold.
  eexists. split; [reflexivity|]. split; [reflexivity | exact Hf].
Qed.

Lemma LoadCache_expired_kept_witness :
  exists w1,
    cache.LoadCache env_offline "expired.json" time.Hour
      (world_with "expired.json" (encoded entry_old)) = (Err ErrCacheExpired, w1)
    /\ files w1 = files (world_with "expired.json" (encoded entry_old))
    /\ files w1 !! "expired.json" = Some (mkFile (encoded entry_old) t_2025).
Proof.
  apply (LoadCache_expired_kept (H := gojson.codec) env_offline "expired.json" time.Hour
           (world_with "expired.json" (encoded entry_old))
           (mkFile (encoded entry_old) t_2025) entry_old).
  - reflexivity.
  - vm_compute. reflexivity.
  - reflexivity.
  - vm_compute. reflexivity.
Defined.

(** Save, then load at once, for any codec.  On a file system that refuses
    nothing a record that encodes is saved without error; and whenever
    [SaveCache] returns no error, a [LoadCache] of the same path in the
    world it leaves, under a TTL not below the record's age, returns the
    record as saved, provided the codec serialises it without loss. *)
Lemma SaveCache_LoadCache_lossless `{cache.Codec} (env : Env) (file : string)
    (entry : cache.CacheEntry) (w : World) (data : string) :
  cache.json_Marshal_Stats (cache.Stats entry) = Ok data ->
  let saved := cache.set_Checksum (cache.md5_hex data) entry in
  (no_faults env -> is_Ok (cache.json_Encode saved) = true ->
   exists w1, cache.SaveCache env file entry w = (None, saved, w1))
  /\ (forall entry' w1 ttl,
        cache.SaveCache env file entry w = (None, entry', w1) ->
        lossless entry' ->
        fs_fault env (trace w1) (OpReadFile file) = None ->
        Since env (emit (EvFs (OpReadFile file)) w1) (cache.Timestamp entry') <= ttl ->
        entry' = saved
        /\ exists w2, cache.LoadCache env file ttl w1 = (Ok saved, w2)).
Proof.
  intros Hm saved. split.
  - intros Hnf Henc. destruct (cache.json_Encode saved) as [bytes|] eqn:He; [|discriminate].
    exact (SaveCache_no_faults env file entry w data bytes Hnf Hm He).
  - intros entry' w1 ttl Hsave Hloss Hread Hage.
    apply SaveCache_ok_file in Hsave as (data' & bytes & f & Hm' & -> & He & Hf & Hd).
    rewrite Hm in Hm'. injection Hm' as <-.
    split; [reflexivity|].
    specialize (Hloss bytes He). rewrite <- Hd in Hloss.
    rewrite (LoadCache_reads env file ttl w1 f _ Hf Hread Hloss).
    destruct (Z.gtb_spec (Since env (emit (EvFs (OpReadFile file)) w1)
                            (cache.Timestamp (cache.set_Checksum (cache.md5_hex data) entry))) ttl)
      as [Hgt|_]; [lia|].
    eexists. reflexivity.
Qed.

Lemma hex_digit_ascii (n : N) :
  (n < 16)%N -> (N_of_ascii (json.hex_digit n) <? 128)%N = true.
Proof.
  intros Hn. rewrite <- (N2Nat.id n).
  assert (Hk : (N.to_nat n < 16)%nat) by lia.
  generalize dependent (N.to_nat n). intros k Hk.
  do 16 (destruct k as [|k]; [reflexivity|]). lia.
Qed.

Lemma le_bytes_small (n : nat) (x : N) : Forall (fun b => (b < 256)%N) (md5.le_bytes n x).
Proof.
  revert x. induction n as [|n IH]; intros x; cbn [md5.le_bytes]; constructor; [|apply IH].
  apply N.mod_lt. discriminate.
Qed.

Lemma hex_ascii (bs : list N) :
  Forall (fun b => (b < 256)%N) bs -> ascii_only (md5.hex bs) = true.
Proof.
  induction 1 as [|b bs Hb _ IH]; [reflexivity|].
  cbn [md5.hex ascii_only]. rewrite IH, !hex_digit_ascii; [reflexivity | |].
  - apply N.mod_lt. discriminate.
  - apply N.Div0.div_lt_upper_bound. exact Hb.
Qed.

Lemma md5_hex_valid (data : string) : json.valid_utf8 (md5.hex (md5.Sum data)) = true.
Proof.
  apply ascii_only_valid, hex_ascii. unfold md5.Sum.
  destruct (md5.blocks _ _ _) as [[[A B] C] D].
  repeat (apply Forall_app; split); apply le_bytes_small.
Qed.

Lemma valid_record_saved (entry : cache.CacheEntry) (data : string) :
  valid_record entry = true ->
  valid_record (cache.set_Checksum (md5.hex (md5.Sum data)) entry) = true.
Proof.
  unfold valid_record. destruct entry as [arch stats t etag lm url ck].
  cbn [cache.set_Checksum cache.Architecture cache.Stats cache.Timestamp cache.ETag
       cache.LastModified cache.URL cache.Checksum].
  intros Hv. apply andb_true_iff in Hv as [Hv _]. rewrite Hv, md5_hex_valid. reflexivity.
Qed.

(** C6. Save, then load at once, with the library codec.  For a valid
    record, on a file system that refuses nothing, [SaveCache] returns no
    error and leaves the record with its checksum set; and whenever
    [SaveCache] returns no error, a [LoadCache] of the same path in the
    world it leaves, under a TTL not below the record's age, returns the
    record as saved, field for field, checksum included. *)
Theorem SaveCache_LoadCache_roundtrip (env : Env) (file : string)
    (entry : cache.CacheEntry) (w : World) :
  valid_record entry = true ->
  let saved := cache.set_Checksum (cache.md5_hex (compact_stats entry)) entry in
  (no_faults env -> exists w1, cache.SaveCache env file entry w = (None, saved, w1))
  /\ (forall entry' w1 ttl,
        cache.SaveCache env file entry w = (None, entry', w1) ->
        fs_fault env (trace w1) (OpReadFile file) = None ->
        Since env (emit (EvFs (OpReadFile file)) w1) (cache.Timestamp entry') <= ttl ->
        entry' = saved
        /\ exists w2, cache.LoadCache env file ttl w1 = (Ok saved, w2)).
Proof.
  intros Hv saved.
  pose proof (valid_record_saved entry (compact_stats entry) Hv) as Hvs.
  destruct (SaveCache_LoadCache_lossless (H := gojson.codec) env file entry w
              (compact_stats entry) eq_refl) as [Hsave Hload].
  split.
  - intros Hnf. apply Hsave; [exact Hnf|].
    cbn [cache.json_Encode gojson.codec]. unfold gojson.Encode, gojson.entry_value.
    unfold valid_record, year_ok in Hvs.
    destruct (rfc3339.format _); [reflexivity|].
    rewrite !andb_false_r in Hvs. discriminate.
  - intros entry' w1 ttl Hs Hread Hage.
    assert (He : entry' = saved).
    { apply SaveCache_ok_file in Hs as (data' & bytes & f & Hm' & -> & _).
      injection Hm' as <-. reflexivity. }
    apply (Hload entry' w1 ttl Hs); [|exact Hread | exact Hage].
    rewrite He. apply gojson_lossless. exact Hvs.
Qed.

Lemma SaveCache_LoadCache_roundtrip_witness :
  exists w1 w2 saved,
    cache.SaveCache env_offline "test.json" entry_pkg1 empty_world = (None, saved, w1)
    /\ cache.Checksum saved = "716c52c553eb4078192d03ea2c191202"
    /\ cache.LoadCache env_offline "test.json" time.Hour w1 = (Ok saved, w2).
Proof.
  destruct (SaveCache_LoadCache_roundtrip env_offline "test.json" entry_pkg1 empty_world)
    as [Hsave Hload]; [vm_compute; reflexivity|].
  destruct Hsave as [w1 Hsave]; [intros tr op; reflexivity|].
  destruct (Hload _ w1 time.Hour Hsave) as [_ [w2 Hw2]].
  - reflexivity.
  - vm_compute. discriminate.
  - exists w1, w2, (cache.set_Checksum (cache.md5_hex (compact_stats entry_pkg1)) entry_pkg1).
    split; [exact Hsave|]. split; [vm_compute; reflexivity | exact Hw2].
Defined.

(** C10. When the statistics serialise, [SaveCache] leaves the caller's
    record with [Checksum] set to the hexadecimal MD5 of the serialised
    statistics and every other field as it was, whatever the file system
    does afterwards and whether or not the save fails; when they do not
    serialise it returns before touching the record or any file. *)
Theorem SaveCache_sets_Checksum `{cache.Codec} (entry : cache.CacheEntry) :
  (forall data, cache.json_Marshal_Stats (cache.Stats entry) = Ok data ->
     forall env file w,
       let entry' := snd (fst (cache.SaveCache env file entry w)) in
       cache.Checksum entry' = cache.md5_hex data
       /\ cache.Architecture entry' = cache.Architecture entry
       /\ cache.Stats entry' = cache.Stats entry
       /\ cache.Timestamp entry' = cache.Timestamp entry
       /\ cache.ETag entry' = cache.ETag entry
       /\ cache.LastModified entry' = cache.LastModified entry
       /\ cache.URL entry' = cache.URL entry)
  /\ (forall e, cache.json_Marshal_Stats (cache.Stats entry) = Err e ->
        forall env file w, cache.SaveCache env file entry w = (Some e, entry, w)).
Proof.
  split.
  - intros data Hm env file w.
    assert (Hs : snd (fst (cache.SaveCache env file entry w))
                 = cache.set_Checksum (cache.md5_hex data) entry).
    { unfold cache.SaveCache. rewrite Hm.
      destruct (os.Create env _ w) as [[e|] w1]; [reflexivity|].
      destruct (match cache.json_Encode _ with Ok _ => _ | Err _ => _ end) as [err w2].
      reflexivity. }
    cbv zeta. rewrite Hs. repeat split.
  - intros e Hm env file w. unfold cache.SaveCache. rewrite Hm. reflexivity.
Qed.

Lemma SaveCache_sets_Checksum_witness :
  cache.SaveCache env_readonly "/invalid/path/cache.json" entry_pkg1 empty_world
  = (Some (ErrExternal "read-only file system"),
     cache.set_Checksum "716c52c553eb4078192d03ea2c191202" entry_pkg1,
     emit (EvFs (OpCreate "/invalid/path/cache.json.tmp")) empty_world)
  /\ cache.Checksum
       (snd (fst (cache.SaveCache env_readonly "/invalid/path/cache.json" entry_pkg1 empty_world)))
     = cache.md5_hex (compact_stats entry_pkg1).
Proof.
  split; [vm_compute; reflexivity|].
  exact (proj1 (proj1 (SaveCache_sets_Checksum (H := gojson.codec) entry_pkg1) (compact_stats entry_pkg1) eq_refl
                  env_readonly "/invalid/path/cache.json" empty_world)).
Defined.

(** ** The conditional fetcher *)

Section DownloadFacts.
Import cache app.
Variable env : Env.

Lemma conditional_Method (method : Method) (url : string) (cached : option CacheEntry) :
  req_Method (conditional method url cached) = method.
Proof. destruct cached; reflexivity. Qed.

(** [GetRequestWithRetry] returns a response or an error, never neither,
    once it makes a round. *)
Lemma get_retry_shape (ctx : Context) (url : string) (cached : option CacheEntry)
    (n : nat) (i : Z) (last : option error) (w w' : World)
    (r : option Response) (err : option error) :
  get_retry env ctx url cached n i last w = (r, err, w') ->
  (exists resp, r = Some resp /\ err = None
                /\ exists tr, client_Do env tr (conditional GET url cached) = Ok resp)
  \/ (r = None /\ exists e, err = Some e
                            /\ (fetch_error env ctx url cached e \/ last = Some e))
  \/ (r = None /\ err = None /\ last = None /\ n = O).
Proof.
  revert i last w. induction n as [|n IH]; intros i last w; cbn [get_retry].
  - intros [= <- <- <-]. destruct last as [e|].
    + right. left. split; [reflexivity|]. exists e. split; [reflexivity | right; reflexivity].
    + right. right. repeat split.
  - destruct (ctx_Err env ctx w) as [e|] eqn:Hctx.
    { intros [= <- <- <-]. right. left. split; [reflexivity|]. exists e.
      split; [reflexivity|]. left. right. exists w. exact Hctx. }
    unfold Do. destruct (client_Do env (trace w) (conditional GET url cached)) as [resp|e] eqn:Hdo.
    { intros [= <- <- <-]. left. exists resp. repeat split. exists (trace w). exact Hdo. }
    assert (Hrec : forall w1,
      get_retry env ctx url cached n (i + 1) (Some e) w1 = (r, err, w') ->
      (exists resp, r = Some resp /\ err = None
                    /\ exists tr, client_Do env tr (conditional GET url cached) = Ok resp)
      \/ (r = None /\ exists e0, err = Some e0
                                 /\ (fetch_error env ctx url cached e0 \/ last = Some e0))
      \/ (r = None /\ err = None /\ last = None /\ S n = O)).
    { intros w1 Hg. destruct (IH _ _ _ Hg) as [Hok | [(-> & e0 & -> & He0) | (_ & _ & Hl & _)]].
      - left. exact Hok.
      - right. left. split; [reflexivity|]. exists e0. split; [reflexivity|]. left.
        destruct He0 as [He0 | [= <-]]; [exact He0|]. left. exists (trace w). exact Hdo.
      - discriminate. }
    destruct (i <? MaxRetries - 1).
    + destruct (ctx_Err env ctx (Sleep _ _)) as [e'|] eqn:Hctx'.
      * intros [= <- <- <-]. right. left. split; [reflexivity|]. exists e'.
        split; [reflexivity|]. left. right. eexists. exact Hctx'.
      * apply Hrec.
    + apply Hrec.
Qed.









End DownloadFacts.

(** C3. With a cached record, when the probe succeeds and reports 304, or
    returns the validator and the modification time of the record,
    [Download] returns the record's items, validator and modification time
    and sends nothing but the probe: no full request. *)
Theorem Download_unchanged_no_GET (env : Env) (ctx : Context) (url : string)
    (c : cache.CacheEntry) (w : World) (headResp : Response) :
  client_Do env (trace w) (app.conditional HEAD url (Some c)) = Ok headResp ->
  StatusCode headResp = 304
  \/ (hdr_ETag headResp = cache.ETag c /\ hdr_Last_Modified headResp = cache.LastModified c) ->
  exists w',
    app.Download env ctx url (Some c) w
    = (Ok (cache.Stats c, cache.ETag c, cache.LastModified c), w')
    /\ trace w' = EvHTTP (app.conditional HEAD url (Some c)) :: trace w
    /\ gets (trace w') = gets (trace w).
Proof.
  intros Hhead Hsame. unfold app.Download, app.HeadRequest, app.Do. rewrite Hhead.
  assert (Hu : (StatusCode headResp =? 304)
               || (String.eqb (hdr_ETag headResp) (cache.ETag c)
                   && String.eqb (hdr_Last_Modified headResp) (cache.LastModified c)) = true).
  { destruct Hsame as [-> | [-> ->]]; [reflexivity|].
    rewrite !String.eqb_refl. apply orb_true_r. }
  rewrite Hu. eexists. split; [reflexivity|]. split; [reflexivity|].
  cbn [trace emit gets]. rewrite conditional_Method. reflexivity.
Qed.

Lemma Download_unchanged_no_GET_witness :
  exists w',
    app.Download env_same ctx_background "http://127.0.0.1" (Some entry_cached) empty_world
    = (Ok ([cache.mkPackageStats "cached-pkg" 100], "same-etag"%string, "same-lastmod"%string), w')
    /\ trace w' = EvHTTP (app.conditional HEAD "http://127.0.0.1" (Some entry_cached)) :: []
    /\ gets (trace w') = O.
Proof.
  apply (Download_unchanged_no_GET env_same ctx_background "http://127.0.0.1" entry_cached
           empty_world (mkResponse 200 "same-etag" "same-lastmod" 0 (Lines [] None))).
  - reflexivity.
  - right. split; reflexivity.
Defined.



(** ** The orchestrator *)

Section OrchestratorFacts.
Import cache app.
Context `{Codec}.
Variable env : Env.

Lemma AnalyzeWithCache_locked (cfg : Config) (ctx : Context) (w w1 w2 : World)
    (lk : option Flock) (cached : option CacheEntry) :
  acquire env cfg ctx w = (lk, None, w1) ->
  load_existing env cfg w1 = (cached, w2) ->
  fst (AnalyzeWithCache env cfg ctx w) = fst (resolve env cfg ctx cached w2).
Proof.
  intros Ha Hl. unfold AnalyzeWithCache. rewrite Ha, Hl.
  destruct (resolve env cfg ctx cached w2). reflexivity.
Qed.


Lemma resolve_None (cfg : Config) (ctx : Context) (w : World) :
  fst (resolve env cfg ctx None w)
  = match fst (Download env (download_ctx env cfg ctx w) (url_of cfg) None w) with
    | Ok (stats, _, _) => Ok stats
    | Err e => Err e
    end.
Proof.
  unfold resolve.
  destruct (Download env (download_ctx env cfg ctx w) (url_of cfg) None w)
    as [[[[stats etag] lastMod]|e] w1]; [|reflexivity].
  destruct (SaveCache env (cacheFile cfg) _ w1) as [[err entry'] w2]. reflexivity.
Qed.

End OrchestratorFacts.




(** ** The invariant on items *)

Section ItemsFacts.
Import cache app.

Lemma incr_keeps (m : gmap string Z) (pkg k : string) :
  is_Some (m !! k) -> is_Some (incr m pkg !! k).
Proof.
  intros Hk. unfold incr. destruct (decide (pkg = k)) as [->|Hne].
  - rewrite lookup_insert_eq. eexists. reflexivity.
  - rewrite lookup_insert_ne by exact Hne. exact Hk.
Qed.

Lemma count_package_keeps (m : gmap string Z) (p k : string) :
  is_Some (m !! k) -> is_Some (count_package m p !! k).
Proof.
  intros Hk. unfold count_package.
  destruct (strings.isEmpty _); [exact Hk | apply incr_keeps; exact Hk].
Qed.

Lemma fold_count_keeps (ps : list string) (m : gmap string Z) (k : string) :
  is_Some (m !! k) -> is_Some (fold_left count_package ps m !! k).
Proof.
  revert m. induction ps as [|p ps IH]; intros m Hk; cbn [fold_left]; [exact Hk|].
  apply IH, count_package_keeps, Hk.
Qed.

(** Fields that leave the empty aggregation empty leave every
    aggregation as it is. *)
Lemma fold_count_nothing (ps : list string) :
  fold_left count_package ps ∅ = ∅ -> forall m, fold_left count_package ps m = m.
Proof.
  induction ps as [|p ps IH]; intros He m; [reflexivity|].
  cbn [fold_left] in *. unfold count_package at 2. unfold count_package at 2 in He.
  destruct (strings.isEmpty (strings.TrimSpace p)); [exact (IH He m)|].
  exfalso.
  assert (Hk : is_Some (fold_left count_package ps (incr ∅ (strings.TrimSpace p))
                          !! strings.TrimSpace p)).
  { apply fold_count_keeps. unfold incr. rewrite lookup_insert_eq. eexists. reflexivity. }
  cbv zeta in He. rewrite He, lookup_empty in Hk. destruct Hk as [x Hx]. discriminate.
Qed.

Lemma ProcessLine_fold (line : string) :
  exists ps, forall m, ProcessLine line m = fold_left count_package ps m.
Proof.
  unfold ProcessLine. cbv zeta.
  destruct (_ || _); [exists []; reflexivity|].
  destruct (_ =? -1); [exists []; reflexivity|].
  eexists. intros m. reflexivity.
Qed.

(** [ProcessLine] drops no name. *)
Lemma ProcessLine_keeps (line : string) (m : gmap string Z) (k : string) :
  is_Some (m !! k) -> is_Some (ProcessLine line m !! k).
Proof.
  destruct (ProcessLine_fold line) as [ps Hps]. rewrite Hps. apply fold_count_keeps.
Qed.

(** A line that contributes no name to the empty aggregation contributes
    none to any. *)
Lemma ProcessLine_nothing (line : string) :
  ProcessLine line ∅ = ∅ -> forall m, ProcessLine line m = m.
Proof.
  destruct (ProcessLine_fold line) as [ps Hps]. rewrite Hps.
  intros He m. rewrite Hps. apply fold_count_nothing, He.
Qed.



Variable env : Env.








Context `{Codec}.




End ItemsFacts.



(** ** More on the cache store *)

Section StoreFacts.
Import cache.
Context `{Codec}.
Variable env : Env.

Lemma Create_other (name p : string) (w : World) :
  p <> name -> files (snd (os.Create env name w)) !! p = files w !! p.
Proof.
  intros Hp. unfold os.Create, os.call.
  destruct (fs_fault env (trace w) (OpCreate name)); [reflexivity|].
  cbn [snd files set_files emit]. apply lookup_insert_ne. congruence.
Qed.

Lemma Write_other (name b p : string) (w : World) :
  p <> name -> files (snd (os.Write env name b w)) !! p = files w !! p.
Proof.
  intros Hp. unfold os.Write, os.call.
  destruct (fs_fault env (trace w) (OpWrite name b)); [reflexivity|].
  cbn [files emit]. destruct (files w !! name); [|reflexivity].
  cbn [snd files set_files emit]. apply lookup_insert_ne. congruence.
Qed.

Lemma Remove_other (name p : string) (w : World) :
  p <> name -> files (snd (os.Remove env name w)) !! p = files w !! p.
Proof.
  intros Hp. unfold os.Remove, os.call.
  destruct (fs_fault env (trace w) (OpRemove name)); [reflexivity|].
  cbn [files emit]. destruct (files w !! name); [|reflexivity].
  cbn [snd files set_files emit]. apply lookup_delete_ne. congruence.
Qed.

Lemma Remove_gone (name : string) (w : World) :
  fs_fault env (trace w) (OpRemove name) = None ->
  files (snd (os.Remove env name w)) !! name = None.
Proof.
  intros Hr. unfold os.Remove, os.call. rewrite Hr.
  cbn [files emit]. destruct (files w !! name) eqn:Hn; [|exact Hn].
  cbn [snd files set_files emit]. apply lookup_delete_eq.
Qed.

Lemma Rename_other (old new p : string) (w : World) :
  p <> old -> p <> new -> files (snd (os.Rename env old new w)) !! p = files w !! p.
Proof.
  intros Ho Hn. destruct (os.Rename env old new w) as [err w'] eqn:Hr.
  apply Rename_inv in Hr. cbn [snd]. destruct err as [e|].
  - rewrite Hr. reflexivity.
  - destruct Hr as (f & _ & ->).
    rewrite lookup_insert_ne by congruence. apply lookup_delete_ne. congruence.
Qed.

Lemma rename_retry_other (tmp file p : string) (n : nat) (w : World) :
  p <> tmp -> p <> file ->
  files (snd (rename_retry env tmp file n w)) !! p = files w !! p.
Proof.
  intros Ht Hf. revert w. induction n as [|n IH]; intros w; cbn [rename_retry]; [reflexivity|].
  pose proof (Rename_other tmp file p w Ht Hf) as Hr.
  destruct (os.Rename env tmp file w) as [[e|] w1]; cbn [snd] in Hr; [|exact Hr].
  rewrite IH. exact Hr.
Qed.

(** A rename loop that gives up has renamed nothing. *)
Lemma rename_retry_gives_up (tmp file : string) (n : nat) (w w' : World) (e : error) :
  rename_retry env tmp file n w = (Some e, w') ->
  e = ErrRenameTmp file /\ files w' = files w.
Proof.
  revert w. induction n as [|n IH]; intros w; cbn [rename_retry].
  - intros [= <- <-]. split; reflexivity.
  - destruct (os.Rename env tmp file w) as [[e1|] w1] eqn:Hr; [|discriminate].
    apply Rename_inv in Hr. intros Hn. apply IH in Hn as [-> Hn].
    split; [reflexivity|]. rewrite Hn. exact Hr.
Qed.

Lemma SaveCache_deferred_other (tmp p : string) (w : World) :
  p <> tmp -> files (SaveCache_deferred env tmp w) !! p = files w !! p.
Proof.
  intros Hp. unfold SaveCache_deferred.
  destruct (os.Close env tmp w) as [e1 w1] eqn:Hc.
  assert (Hw1 : files w1 = files w).
  { change w1 with (snd (e1, w1)). rewrite <- Hc. reflexivity. }
  pose proof (Remove_other tmp p w1 Hp) as Hr.
  destruct (os.Remove env tmp w1) as [e2 w2]. cbn [snd] in Hr. rewrite Hr, Hw1. reflexivity.
Qed.

Lemma SaveCache_deferred_gone (tmp : string) (w : World) :
  (forall tr, fs_fault env tr (OpRemove tmp) = None) ->
  files (SaveCache_deferred env tmp w) !! tmp = None.
Proof.
  intros Hr. unfold SaveCache_deferred.
  destruct (os.Close env tmp w) as [e1 w1].
  pose proof (Remove_gone tmp w1 (Hr _)) as Hg.
  destruct (os.Remove env tmp w1) as [e2 w2]. exact Hg.
Qed.

Lemma SaveCache_unfold (file : string) (entry : CacheEntry) (w : World) :
  SaveCache env file entry w
  = match json_Marshal_Stats (Stats entry) with
    | Err e => (Some e, entry, w)
    | Ok data =>
        let entry := set_Checksum (md5_hex data) entry in
        match os.Create env (file +:+ ".tmp") w with
        | (Some e, w) => (Some e, entry, w)
        | (None, w) =>
            (fst (SaveCache_body env file entry w), entry,
             SaveCache_deferred env (file +:+ ".tmp") (snd (SaveCache_body env file entry w)))
        end
    end.
Proof.
  unfold SaveCache, SaveCache_body.
  destruct (json_Marshal_Stats (Stats entry)) as [data|e]; [|reflexivity].
  cbv zeta. destruct (os.Create env (file +:+ ".tmp") w) as [[e|] w1]; [reflexivity|].
  destruct (json_Encode _); [|reflexivity].
  destruct (os.Write env _ _ w1) as [[e|] w2]; [reflexivity|].
  destruct (os.Sync env _ w2) as [[e|] w3]; [reflexivity|].
  destruct (os.Close env _ w3) as [[e|] w4]; [reflexivity|].
  destruct (rename_retry env _ file 5 w4) as [err w5]. reflexivity.
Qed.

Lemma SaveCache_body_other (file : string) (entry : CacheEntry) (w : World) (p : string) :
  p <> file +:+ ".tmp" -> p <> file ->
  files (snd (SaveCache_body env file entry w)) !! p = files w !! p.
Proof.
  intros Ht Hf. unfold SaveCache_body.
  destruct (json_Encode entry) as [bytes|e]; [|reflexivity].
  pose proof (Write_other (file +:+ ".tmp") bytes p w Ht) as Hw.
  destruct (os.Write env _ bytes w) as [[e|] w2]; cbn [snd] in Hw |- *; [exact Hw|].
  unfold os.Sync, os.Close, os.call.
  destruct (fs_fault env (trace w2) _); [exact Hw|].
  destruct (fs_fault env _ (OpClose _)); [exact Hw|].
  rewrite rename_retry_other by assumption. exact Hw.
Qed.

(** When the body fails, the file at the destination is as before. *)
Lemma SaveCache_body_fails (file : string) (entry : CacheEntry) (w : World) (e : error) :
  fst (SaveCache_body env file entry w) = Some e ->
  files (snd (SaveCache_body env file entry w)) !! file = files w !! file.
Proof.
  unfold SaveCache_body.
  destruct (json_Encode entry) as [bytes|e0]; [|reflexivity].
  pose proof (Write_other (file +:+ ".tmp") bytes file w (not_eq_sym (tmp_neq file))) as Hw.
  destruct (os.Write env _ bytes w) as [[e1|] w2]; cbn [snd] in Hw |- *; [intros _; exact Hw|].
  unfold os.Sync, os.Close, os.call.
  destruct (fs_fault env (trace w2) _); [intros _; exact Hw|].
  destruct (fs_fault env _ (OpClose _)); [intros _; exact Hw|].
  destruct (rename_retry env _ file 5 _) as [[e2|] w5] eqn:Hr; [|discriminate].
  intros _. apply rename_retry_gives_up in Hr as [_ Hr]. cbn [snd]. rewrite Hr. exact Hw.
Qed.

End StoreFacts.

Section StoreFacts2.
Import cache.
Context `{Codec}.
Variable env : Env.

Lemma SaveCache_fails_keeps (file : string) (entry : CacheEntry) (w : World) (e : error) :
  fst (fst (SaveCache env file entry w)) = Some e ->
  files (snd (SaveCache env file entry w)) !! file = files w !! file.
Proof.
  rewrite SaveCache_unfold.
  destruct (json_Marshal_Stats (Stats entry)) as [data|e0]; [|reflexivity].
  cbv zeta.
  pose proof (Create_other env (file +:+ ".tmp") file w (not_eq_sym (tmp_neq file))) as Hc.
  destruct (os.Create env (file +:+ ".tmp") w) as [[e1|] w1]; cbn [fst snd] in Hc |- *;
    [intros _; exact Hc|].
  intros He. rewrite SaveCache_deferred_other by (apply not_eq_sym, tmp_neq).
  rewrite (SaveCache_body_fails env file _ w1 e He). exact Hc.
Qed.

Lemma rename_retry_refused (tmp file : string) (n : nat) (w : World) :
  (forall tr, fs_fault env tr (OpRename tmp file) <> None) ->
  exists w', rename_retry env tmp file n w = (Some (ErrRenameTmp file), w')
             /\ files w' = files w
             /\ renames (trace w') = (renames (trace w) + n)%nat
             /\ pauses (trace w') = repeat (100 * time.Millisecond) n ++ pauses (trace w).
Proof.
  intros Href. revert w. induction n as [|n IH]; intros w; cbn [rename_retry].
  - exists w. split; [reflexivity|]. split; [reflexivity|]. split; [lia | reflexivity].
  - unfold os.Rename, os.call.
    destruct (fs_fault env (trace w) (OpRename tmp file)) as [e|] eqn:Hr;
      [|exfalso; exact (Href _ Hr)].
    destruct (IH (Sleep (100 * time.Millisecond) (emit (EvFs (OpRename tmp file)) w)))
      as (w' & Hw' & Hfiles & Hren & Hp).
    exists w'. split; [exact Hw'|]. split; [exact Hfiles|].
    rewrite Hren, Hp. cbn [Sleep emit trace renames pauses]. split; [lia|].
    cbn [repeat]. rewrite repeat_cons, <- app_assoc. reflexivity.
Qed.

End StoreFacts2.

(** X1. [SaveCache] changes no file but the destination and the temporary
    file beside it: every other path holds after the call, whether it
    succeeds or fails, what it held before. *)
Theorem SaveCache_other_paths `{cache.Codec} (env : Env) (file : string)
    (entry : cache.CacheEntry) (w : World) (p : string) :
  p <> file -> p <> file +:+ ".tmp" ->
  files (snd (cache.SaveCache env file entry w)) !! p = files w !! p.
Proof.
  intros Hf Ht. rewrite SaveCache_unfold.
  destruct (cache.json_Marshal_Stats (cache.Stats entry)) as [data|e]; [|reflexivity].
  cbv zeta. pose proof (Create_other env (file +:+ ".tmp") p w Ht) as Hc.
  destruct (os.Create env (file +:+ ".tmp") w) as [[e|] w1]; cbn [snd] in Hc |- *; [exact Hc|].
  rewrite SaveCache_deferred_other by exact Ht.
  rewrite SaveCache_body_other by assumption. exact Hc.
Qed.

Lemma SaveCache_other_paths_witness :
  files (snd (cache.SaveCache env_offline "test.json" entry_pkg1
                (world_with "other.json" "kept"))) !! "other.json"
  = Some (mkFile "kept" t_2025).
Proof.
  rewrite (SaveCache_other_paths (H := gojson.codec) env_offline "test.json" entry_pkg1
             (world_with "other.json" "kept") "other.json").
  - reflexivity.
  - intros Heq. discriminate Heq.
  - intros Heq. vm_compute in Heq. discriminate Heq.
Defined.

(** X2. A [SaveCache] that returns an error leaves the destination as it
    was: the record is written to the temporary file, and the destination
    changes only by the rename that ends a successful save. *)
Theorem SaveCache_error_keeps_file `{cache.Codec} (env : Env) (file : string)
    (entry : cache.CacheEntry) (w : World) (e : error) :
  fst (fst (cache.SaveCache env file entry w)) = Some e ->
  files (snd (cache.SaveCache env file entry w)) !! file = files w !! file.
Proof. apply SaveCache_fails_keeps. Qed.

Lemma SaveCache_error_keeps_file_witness :
  fst (fst (cache.SaveCache env_norename "test.json" entry_pkg1
              (world_with "test.json" "old content")))
  = Some (ErrRenameTmp "test.json")
  /\ files (snd (cache.SaveCache env_norename "test.json" entry_pkg1
                   (world_with "test.json" "old content"))) !! "test.json"
     = Some (mkFile "old content" t_2025).
Proof.
  assert (He : fst (fst (cache.SaveCache env_norename "test.json" entry_pkg1
                           (world_with "test.json" "old content")))
               = Some (ErrRenameTmp "test.json")) by (vm_compute; reflexivity).
  split; [exact He|].
  rewrite (SaveCache_error_keeps_file (H := gojson.codec) env_norename "test.json" entry_pkg1
             (world_with "test.json" "old content") _ He).
  reflexivity.
Defined.

(** X3. [SaveCache] leaves no temporary file behind: on a file system
    that does not refuse its removal, and with none there before, there is
    no file at the temporary path after the call, whether the save
    succeeds or fails. *)
Theorem SaveCache_leaves_no_tmp `{cache.Codec} (env : Env) (file : string)
    (entry : cache.CacheEntry) (w : World) :
  (forall tr, fs_fault env tr (OpRemove (file +:+ ".tmp")) = None) ->
  files w !! (file +:+ ".tmp") = None ->
  files (snd (cache.SaveCache env file entry w)) !! (file +:+ ".tmp") = None.
Proof.
  intros Hr Hn. rewrite SaveCache_unfold.
  destruct (cache.json_Marshal_Stats (cache.Stats entry)) as [data|e0]; [|exact Hn].
  cbv zeta. unfold os.Create, os.call.
  destruct (fs_fault env (trace w) (OpCreate (file +:+ ".tmp"))); [exact Hn|].
  cbn [snd]. apply SaveCache_deferred_gone, Hr.
Qed.

Lemma SaveCache_leaves_no_tmp_witness :
  files (snd (cache.SaveCache env_norename "test.json" entry_pkg1 empty_world))
    !! ("test.json" +:+ ".tmp") = None
  /\ files (snd (cache.SaveCache env_offline "test.json" entry_pkg1 empty_world))
       !! ("test.json" +:+ ".tmp") = None.
Proof.
  split.
  - apply (SaveCache_leaves_no_tmp (H := gojson.codec) env_norename "test.json" entry_pkg1
             empty_world); [intros tr; reflexivity | reflexivity].
  - apply (SaveCache_leaves_no_tmp (H := gojson.codec) env_offline "test.json" entry_pkg1
             empty_world); [intros tr; reflexivity | reflexivity].
Defined.

(** X4. When the system refuses every rename and nothing else,
    [SaveCache] of a record that serialises tries the rename five times,
    pauses 100 ms after each try, the last one too, and returns the
    rename error; the destination is as it was. *)
Theorem SaveCache_rename_refused `{cache.Codec} (env : Env) (file : string)
    (entry : cache.CacheEntry) (w : World) (data bytes : string) :
  (forall tr old new, fs_fault env tr (OpRename old new) <> None) ->
  (forall tr op, (forall old new, op <> OpRename old new) -> fs_fault env tr op = None) ->
  cache.json_Marshal_Stats (cache.Stats entry) = Ok data ->
  cache.json_Encode (cache.set_Checksum (cache.md5_hex data) entry) = Ok bytes ->
  exists w',
    cache.SaveCache env file entry w
    = (Some (ErrRenameTmp file), cache.set_Checksum (cache.md5_hex data) entry, w')
    /\ renames (trace w') = (renames (trace w) + 5)%nat
    /\ pauses (trace w') = repeat (100 * time.Millisecond) 5 ++ pauses (trace w)
    /\ files w' !! file = files w !! file.
Proof.
  intros Href Hother Hm He.
  assert (Hok : forall tr op, match op with OpRename _ _ => False | _ => True end ->
                              fs_fault env tr op = None).
  { intros tr op Hop. apply Hother. intros old new ->. exact Hop. }
  pose proof (SaveCache_fails_keeps env file entry w (ErrRenameTmp file)) as Hkeep.
  unfold cache.SaveCache in *. rewrite Hm in *. cbv zeta in *. rewrite He in *.
  unfold os.Create, os.Write, os.Sync, os.Close, os.call in *.
  rewrite !Hok in * by exact I. cbn [files emit set_files] in *.
  rewrite lookup_insert_eq in *. rewrite !Hok in * by exact I.
  match goal with
  | |- context [cache.rename_retry env ?t file 5 ?w0] =>
      destruct (rename_retry_refused env t file 5 w0 (fun tr => Href tr t file))
        as (w5 & Hr & Hfiles & Hren & Hp)
  end.
  rewrite Hr in *. unfold cache.SaveCache_deferred, os.Close, os.Remove, os.call in *.
  rewrite !Hok in * by exact I. cbn [files emit] in *.
  destruct (files w5 !! (file +:+ ".tmp")); eexists; (split; [reflexivity|]);
    cbn [trace emit set_files renames pauses] in *; rewrite Hren, Hp;
    (split; [reflexivity|]); (split; [reflexivity|]); apply Hkeep; reflexivity.
Qed.

Lemma SaveCache_rename_refused_witness :
  exists w',
    cache.SaveCache env_norename "test.json" entry_pkg1 empty_world
    = (Some (ErrRenameTmp "test.json"),
       cache.set_Checksum (cache.md5_hex (compact_stats entry_pkg1)) entry_pkg1, w')
    /\ renames (trace w') = 5%nat
    /\ pauses (trace w') = repeat (100 * time.Millisecond) 5
    /\ files w' !! "test.json" = None.
Proof.
  destruct (SaveCache_rename_refused (H := gojson.codec) env_norename "test.json" entry_pkg1
              empty_world (compact_stats entry_pkg1)
              (encoded (cache.set_Checksum (cache.md5_hex (compact_stats entry_pkg1)) entry_pkg1)))
    as (w' & Hs & Hr & Hp & Hf).
  - intros tr old new. discriminate.
  - intros tr op Hop. destruct op; try reflexivity. exfalso. exact (Hop old new eq_refl).
  - reflexivity.
  - vm_compute. reflexivity.
  - exists w'. split; [exact Hs|]. split; [exact Hr|]. split; [|exact Hf].
    rewrite Hp. apply app_nil_r.
Defined.

(** X5. [LoadCache] changes no path but the one it loads, and that one
    only when it returns the corrupt-cache error; the load of a path with
    no file returns an error. *)
Theorem LoadCache_frame `{cache.Codec} (env : Env) (file : string) (ttl : Duration)
    (w : World) :
  (forall p, p <> file ->
     files (snd (cache.LoadCache env file ttl w)) !! p = files w !! p)
  /\ (fst (cache.LoadCache env file ttl w) <> Err ErrCorruptCache ->
      files (snd (cache.LoadCache env file ttl w)) = files w)
  /\ (files w !! file = None ->
      is_Ok (fst (cache.LoadCache env file ttl w)) = false
      /\ (fs_fault env (trace w) (OpReadFile file) = None ->
          fst (cache.LoadCache env file ttl w) = Err (ErrNotExist file))).
Proof.
  unfold cache.LoadCache, os.ReadFile, os.call.
  destruct (fs_fault env (trace w) (OpReadFile file)) as [e|].
  { split; [reflexivity|]. split; [reflexivity|]. intros _. split; [reflexivity | discriminate]. }
  cbn [files emit]. destruct (files w !! file) as [f|] eqn:Hf.
  2: { split; [reflexivity|]. split; [reflexivity|]. intros _. split; reflexivity. }
  destruct (cache.json_Unmarshal (File_data f)) as [entry|e].
  { destruct (_ >? _); (split; [reflexivity|]); (split; [reflexivity | discriminate]). }
  split; [|split; [|discriminate]].
  - intros p Hp.
    pose proof (Remove_other env file p (emit (EvFs (OpReadFile file)) w) Hp) as Hr.
    destruct (os.Remove env file _) as [r w1]. exact Hr.
  - destruct (os.Remove env file _) as [r w1]. intros Hne. contradiction.
Qed.

(** ** The lock *)

Section LockFacts.
Import cache.
Variable env : Env.

Lemma TryLock_other (f p : string) (w : World) :
  p <> f -> files (snd (TryLock env f w)) !! p = files w !! p.
Proof.
  intros Hp. unfold TryLock.
  destruct (flock_TryLock env (trace w) f) as [locked err].
  cbv zeta. destruct err; [reflexivity|].
  destruct (lookup (_ : cache.Flock) _); [reflexivity|].
  cbn [snd files set_files emit]. apply lookup_insert_ne. congruence.
Qed.

Lemma TryLock_file (f : string) (w : World) (locked : bool) (w' : World) :
  TryLock env f w = (locked, None, w') -> is_Some (files w' !! f).
Proof.
  unfold TryLock. destruct (flock_TryLock env (trace w) f) as [l err].
  cbv zeta. destruct err; [discriminate|].
  destruct (lookup (_ : cache.Flock) _) as [x|] eqn:Hf; intros [= _ <-].
  - exists x. exact Hf.
  - cbn [files set_files emit]. rewrite lookup_insert_eq. eexists. reflexivity.
Qed.

Lemma TryLock_reports (f : string) (w : World) :
  fst (TryLock env f w) = flock_TryLock env (trace w) f
  /\ trace (snd (TryLock env f w)) = EvTryLock f :: trace w.
Proof.
  unfold TryLock. destruct (flock_TryLock env (trace w) f) as [l err].
  cbv zeta. destruct err; [split; reflexivity|].
  destruct (lookup (_ : cache.Flock) _); split; reflexivity.
Qed.

Lemma AcquireLockWithContext_other (ctx : Context) (file : string) (timeout : Duration)
    (w : World) (p : string) :
  p <> file ->
  files (snd (AcquireLockWithContext env ctx file timeout w)) !! p = files w !! p.
Proof.
  intros Hp. unfold AcquireLockWithContext.
  pose proof (TryLock_other file p w Hp) as Ht.
  destruct (TryLock env file w) as [[locked err] w1]. cbn [snd] in Ht.
  destruct locked, err; try exact Ht.
  unfold TryLockContext. destruct (flock_TryLockContext env (trace w1) file) as [l2 e2].
  destruct l2, e2; exact Ht.
Qed.

Lemma AcquireLockWithContext_held (ctx : Context) (file : string) (timeout : Duration)
    (w w' : World) (f : Flock) (err : option error) :
  AcquireLockWithContext env ctx file timeout w = (Some f, err, w') ->
  f = file /\ err = None /\ is_Some (files w' !! file).
Proof.
  unfold AcquireLockWithContext.
  destruct (TryLock env file w) as [[locked e1] w1] eqn:Ht.
  destruct locked, e1; try discriminate; apply TryLock_file in Ht.
  - intros [= <- <- <-]. repeat split. exact Ht.
  - unfold TryLockContext. destruct (flock_TryLockContext env (trace w1) file) as [l2 e2].
    destruct l2, e2; try discriminate.
    intros [= <- <- <-]. repeat split. exact Ht.
Qed.

Lemma ReleaseLock_gone (f : Flock) (file : string) (w : World) :
  (forall tr, fs_fault env tr (OpRemove file) = None) ->
  files (ReleaseLock env (Some f) file w) !! file = None
  /\ (forall p, p <> file -> files (ReleaseLock env (Some f) file w) !! p = files w !! p)
  /\ trace (ReleaseLock env (Some f) file w) = EvFs (OpRemove file) :: EvUnlock f :: trace w.
Proof.
  intros Hr. unfold ReleaseLock.
  pose proof (Remove_gone env file (emit (EvUnlock f) w) (Hr _)) as Hg.
  pose proof (fun p Hp => Remove_other env file p (emit (EvUnlock f) w) Hp) as Ho.
  assert (Htr : trace (snd (os.Remove env file (emit (EvUnlock f) w)))
                = EvFs (OpRemove file) :: EvUnlock f :: trace w).
  { unfold os.Remove, os.call. rewrite Hr. cbn [files emit].
    destruct (files w !! file); reflexivity. }
  destruct (os.Remove env file (emit (EvUnlock f) w)) as [r w1].
  split; [exact Hg|]. split; [exact Ho | exact Htr].
Qed.

End LockFacts.

(** X6. [CleanupStaleLock] removes nothing but the lock file, and that
    one only when it is older than the TTL: a file that is missing or not
    older stays as it is, and one that is older is removed when the system
    carries out the two calls. *)
Theorem CleanupStaleLock_only_stale (env : Env) (file : string) (ttl : Duration) (w : World) :
  (forall p, p <> file ->
     files (cache.CleanupStaleLock env file ttl w) !! p = files w !! p)
  /\ (files w !! file = None -> files (cache.CleanupStaleLock env file ttl w) = files w)
  /\ (forall f, files w !! file = Some f ->
        Since env (emit (EvFs (OpStat file)) w) (modTime f) <= ttl ->
        files (cache.CleanupStaleLock env file ttl w) = files w)
  /\ (forall f, files w !! file = Some f ->
        Since env (emit (EvFs (OpStat file)) w) (modTime f) > ttl ->
        fs_fault env (trace w) (OpStat file) = None ->
        fs_fault env (EvFs (OpStat file) :: trace w) (OpRemove file) = None ->
        files (cache.CleanupStaleLock env file ttl w) = delete file (files w)).
Proof.
  unfold cache.CleanupStaleLock, os.Stat, os.call.
  destruct (fs_fault env (trace w) (OpStat file)) as [e|].
  { split; [reflexivity|]. split; [reflexivity|]. split; [reflexivity | discriminate]. }
  cbn [files emit]. destruct (files w !! file) as [f|] eqn:Hf.
  2: { split; [reflexivity|]. split; [reflexivity|]. split; discriminate. }
  destruct (Z.gtb_spec (Since env (emit (EvFs (OpStat file)) w) (modTime f)) ttl) as [Hold|Hnew].
  - pose proof (fun p Hp => Remove_other env file p (emit (EvFs (OpStat file)) w) Hp) as Ho.
    assert (Hr : fs_fault env (EvFs (OpStat file) :: trace w) (OpRemove file) = None ->
                 files (snd (os.Remove env file (emit (EvFs (OpStat file)) w)))
                 = delete file (files w)).
    { intros Hr. unfold os.Remove, os.call. cbn [trace emit]. rewrite Hr.
      cbn [files emit]. rewrite Hf. reflexivity. }
    destruct (os.Remove env file _) as [r w1]. cbn [snd] in Ho, Hr.
    split; [exact Ho|]. split; [discriminate|]. split.
    + intros f' [= <-] Hle. lia.
    + intros f' [= <-] _ _ Hrem. exact (Hr Hrem).
  - split; [reflexivity|]. split; [discriminate|]. split; [reflexivity|].
    intros f' [= <-] Hgt. lia.
Qed.

Lemma CleanupStaleLock_only_stale_witness :
  files (cache.CleanupStaleLock env_offline "test.lock" time.Hour world_old_lock)
  = delete "test.lock" (files world_old_lock).
Proof.
  apply (proj2 (proj2 (proj2 (CleanupStaleLock_only_stale env_offline "test.lock" time.Hour
                                 world_old_lock)))
           (mkFile "lock" (t_2025 - 2 * time.Hour))).
  - reflexivity.
  - vm_compute. reflexivity.
  - reflexivity.
  - reflexivity.
Defined.

(** X7. [AcquireLockWithContext] returns a lock only without an error,
    and then the lock file is on disk; it changes no other path; it asks
    for the lock a second time only when the first try reports it taken;
    and with a lock library whose second try never reports the lock as
    not taken without an error, it returns a lock or an error, never
    neither. *)
Theorem AcquireLockWithContext_outcomes (env : Env) (ctx : Context) (file : string)
    (timeout : Duration) (w : World) :
  (forall f err w',
     cache.AcquireLockWithContext env ctx file timeout w = (Some f, err, w') ->
     f = file /\ err = None /\ is_Some (files w' !! file))
  /\ (forall p, p <> file ->
        files (snd (cache.AcquireLockWithContext env ctx file timeout w)) !! p = files w !! p)
  /\ (flock_TryLock env (trace w) file <> (false, None) ->
      trace (snd (cache.AcquireLockWithContext env ctx file timeout w))
      = EvTryLock file :: trace w)
  /\ ((forall tr, flock_TryLockContext env tr file <> (false, None)) ->
      forall lk w',
        cache.AcquireLockWithContext env ctx file timeout w = (lk, None, w') ->
        lk = Some file).
Proof.
  split; [|split; [|split]].
  - intros f err w'. apply AcquireLockWithContext_held.
  - intros p. apply AcquireLockWithContext_other.
  - intros Hfirst. unfold cache.AcquireLockWithContext.
    destruct (TryLock_reports env file w) as [Hrep Htr].
    destruct (cache.TryLock env file w) as [[locked e1] w1]. cbn [fst snd] in Hrep, Htr.
    destruct locked, e1; try exact Htr.
    exfalso. apply Hfirst. symmetry. exact Hrep.
  - intros Hlib lk w'. unfold cache.AcquireLockWithContext.
    destruct (cache.TryLock env file w) as [[locked e1] w1].
    destruct locked, e1; try discriminate; [intros [= <- _]; reflexivity|].
    unfold cache.TryLockContext.
    destruct (flock_TryLockContext env (trace w1) file) as [l2 e2] eqn:H2.
    destruct l2, e2; try discriminate.
    + intros [= <- _]. reflexivity.
    + exfalso. exact (Hlib _ H2).
Qed.

(** X8. Acquire, then release: when the first try takes the lock,
    [AcquireLock] returns it; and [ReleaseLock] of a lock, on a file
    system that does not refuse the removal, unlocks it and leaves no
    lock file, and every other path as it was before the lock was
    asked for. *)
Theorem AcquireLock_then_ReleaseLock (env : Env) (file : string) (timeout : Duration)
    (w : World) :
  (forall tr, fs_fault env tr (OpRemove file) = None) ->
  (flock_TryLock env (trace w) file = (true, None) ->
   exists w1, cache.AcquireLock env file timeout w = (Some file, None, w1))
  /\ (forall f w1,
        cache.AcquireLock env file timeout w = (Some f, None, w1) ->
        let w2 := cache.ReleaseLock env (Some f) file w1 in
        files w2 !! file = None
        /\ (forall p, p <> file -> files w2 !! p = files w !! p)
        /\ trace w2 = EvFs (OpRemove file) :: EvUnlock file :: trace w1).
Proof.
  intros Hr. split.
  - intros Hfirst. unfold cache.AcquireLock, cache.AcquireLockWithContext, cache.TryLock.
    rewrite Hfirst. cbv zeta. destruct (lookup (_ : cache.Flock) _);
      eexists; reflexivity.
  - intros f w1 Ha w2. unfold cache.AcquireLock in Ha.
    destruct (AcquireLockWithContext_held env _ _ _ _ _ _ _ Ha) as (-> & _ & _).
    destruct (ReleaseLock_gone env file file w1 Hr) as (Hgone & Hother & Htr).
    split; [exact Hgone|]. split; [|exact Htr].
    intros p Hp. subst w2. rewrite (Hother p Hp).
    pose proof (AcquireLockWithContext_other env (mkContext None) file timeout w p Hp) as Ho.
    rewrite Ha in Ho. exact Ho.
Qed.

Lemma AcquireLock_then_ReleaseLock_witness :
  exists w1,
    cache.AcquireLock env_offline "test.lock" cache.LockTimeout empty_world
    = (Some "test.lock"%string, None, w1)
    /\ files (cache.ReleaseLock env_offline (Some "test.lock"%string) "test.lock" w1)
         !! "test.lock" = None.
Proof.
  destruct (AcquireLock_then_ReleaseLock env_offline "test.lock" cache.LockTimeout empty_world)
    as [Hacq Hrel]; [intros tr; reflexivity|].
  destruct (Hacq eq_refl) as [w1 Hw1]. exists w1. split; [exact Hw1|].
  exact (proj1 (Hrel _ w1 Hw1)).
Defined.

(** ** More on the conditional fetcher *)

Section FetchFacts.
Import cache app.
Variable env : Env.





End FetchFacts.


(** X10. When every full request fails in transport and the context is
    never done, [GetRequestWithRetry] sends three requests, pauses one
    second after the first and two after the second, and returns after
    the third without a pause. *)
Theorem GetRequestWithRetry_backoff (env : Env) (ctx : Context) (url : string)
    (cached : option cache.CacheEntry) (w : World) :
  (forall tr req, req_Method req = GET -> is_Ok (client_Do env tr req) = false) ->
  (forall w0, ctx_Err env ctx w0 = None) ->
  trace (snd (app.GetRequestWithRetry env ctx url cached w))
  = [EvHTTP (app.conditional GET url cached); EvSleep (2 * time.Second);
     EvHTTP (app.conditional GET url cached); EvSleep time.Second;
     EvHTTP (app.conditional GET url cached)] ++ trace w.
Proof.
  intros Hdown Hctx. unfold app.GetRequestWithRetry.
  change (Z.to_nat app.MaxRetries) with 3%nat.
  assert (Hfail : forall tr, exists e, client_Do env tr (app.conditional GET url cached) = Err e).
  { intros tr. specialize (Hdown tr _ (conditional_Method GET url cached)).
    destruct (client_Do env tr (app.conditional GET url cached)) as [r|e]; [discriminate|].
    exists e. reflexivity. }
  cbn [app.get_retry]. unfold app.Do. rewrite !Hctx.
  destruct (Hfail (trace w)) as [e1 ->].
  change (0 <? app.MaxRetries - 1) with true. cbv iota.
  destruct (Hfail (trace (Sleep (time.Second * 2 ^ 0) (emit (EvHTTP (app.conditional GET url cached)) w))))
    as [e2 ->].
  change (0 + 1 <? app.MaxRetries - 1) with true. cbv iota.
  destruct (Hfail (trace (Sleep (time.Second * 2 ^ (0 + 1))
                            (emit (EvHTTP (app.conditional GET url cached))
                               (Sleep (time.Second * 2 ^ 0)
                                  (emit (EvHTTP (app.conditional GET url cached)) w))))))
    as [e3 ->].
  change (0 + 1 + 1 <? app.MaxRetries - 1) with false. cbv iota.
  reflexivity.
Qed.

Lemma GetRequestWithRetry_backoff_witness :
  pauses (trace (snd (app.GetRequestWithRetry env_offline ctx_background
                        "http://invalid-host.local" None empty_world)))
  = [2 * time.Second; time.Second].
Proof.
  rewrite (GetRequestWithRetry_backoff env_offline ctx_background "http://invalid-host.local"
             None empty_world).
  - reflexivity.
  - intros tr req _. reflexivity.
  - intros w0. reflexivity.
Defined.

(** X11. [GetRequestWithRetry] returns a response or an error, never
    both and never neither: the response [Download] reads the status of
    is never nil. *)
Theorem GetRequestWithRetry_response_or_error (env : Env) (ctx : Context) (url : string)
    (cached : option cache.CacheEntry) (w : World) :
  match fst (app.GetRequestWithRetry env ctx url cached w) with
  | (Some _, None) | (None, Some _) => True
  | (Some _, Some _) | (None, None) => False
  end.
Proof.
  unfold app.GetRequestWithRetry.
  destruct (app.get_retry env ctx url cached (Z.to_nat app.MaxRetries) 0 None w)
    as [[r err] w'] eqn:Hg.
  apply get_retry_shape in Hg.
  destruct Hg as [(resp & -> & -> & _) | [(-> & e & -> & _) | (_ & _ & _ & Hn)]];
    [exact I | exact I | discriminate].
Qed.

(** X12. A status is final.  When the probe fails and the first full
    request is answered, [Download] sends nothing more and reads no body
    unless the status is 200: 304 gives the cached record, or an error
    when there is none; 404 and every other status give an error, with a
    cached record or without. *)
Theorem Download_status_final (env : Env) (ctx : Context) (url : string)
    (cached : option cache.CacheEntry) (w : World) (e : error) (resp : Response) :
  client_Do env (trace w) (app.conditional HEAD url cached) = Err e ->
  ctx_Err env ctx (emit (EvHTTP (app.conditional HEAD url cached)) w) = None ->
  client_Do env (EvHTTP (app.conditional HEAD url cached) :: trace w)
    (app.conditional GET url cached) = Ok resp ->
  StatusCode resp <> 200 ->
  app.Download env ctx url cached w
  = (if StatusCode resp =? 304 then
       match cached with
       | Some c => Ok (cache.Stats c, cache.ETag c, cache.LastModified c)
       | None => Err ErrNotModifiedNoCache
       end
     else if StatusCode resp =? 404 then Err (ErrNotFound url)
     else Err (ErrHTTPStatus (StatusCode resp) url),
     emit (EvHTTP (app.conditional GET url cached))
       (emit (EvHTTP (app.conditional HEAD url cached)) w)).
Proof.
  intros Hhead Hctx Hget H200.
  unfold app.Download, app.HeadRequest, app.Do. rewrite Hhead.
  assert (Hgo : app.Download_get env ctx url cached
                  (emit (EvHTTP (app.conditional HEAD url cached)) w)
                = (if StatusCode resp =? 304 then
                     match cached with
                     | Some c => Ok (cache.Stats c, cache.ETag c, cache.LastModified c)
                     | None => Err ErrNotModifiedNoCache
                     end
                   else if StatusCode resp =? 404 then Err (ErrNotFound url)
                   else Err (ErrHTTPStatus (StatusCode resp) url),
                   emit (EvHTTP (app.conditional GET url cached))
                     (emit (EvHTTP (app.conditional HEAD url cached)) w))).
  { unfold app.Download_get, app.GetRequestWithRetry.
    change (Z.to_nat app.MaxRetries) with 3%nat. cbn [app.get_retry].
    rewrite Hctx. unfold app.Do. cbn [trace emit]. rewrite Hget.
    apply Z.eqb_neq in H200. rewrite H200.
    destruct (StatusCode resp =? 304); [destruct cached; reflexivity|].
    destruct (StatusCode resp =? 404); reflexivity. }
  destruct cached; exact Hgo.
Qed.

Lemma Download_status_final_witness :
  fst (app.Download env_no_probe ctx_background "http://127.0.0.1" (Some entry_fallback)
         empty_world)
  = Err (ErrNotFound "http://127.0.0.1").
Proof.
  rewrite (Download_status_final env_no_probe ctx_background "http://127.0.0.1"
             (Some entry_fallback) empty_world (ErrExternal "HEAD not allowed")
             (mkResponse 404 EmptyString EmptyString 0 (Lines [] None)));
    [reflexivity | reflexivity | reflexivity | reflexivity | discriminate].
Defined.



(** ** The scanning loop, the line parser and the table *)

Section ScanFacts.
Import cache app.
Variable env : Env.

Lemma wrap_int_small (z : Z) : 0 <= z < 2 ^ 63 -> wrap_int z = z.
Proof.
  intros Hz. unfold wrap_int. rewrite Z.mod_small; lia.
Qed.

(** Between two multiples of 1000 the loop does not look at the context. *)
Lemma scan_unchecked (ctx : Context) (ls : list string) (lineCount : Z)
    (counts : gmap string Z) (w : World) :
  1 <= lineCount -> lineCount + Z.of_nat (length ls) <= 1000 ->
  fst (scan env ctx ls None lineCount counts w) = Ok (aggregate ls counts).
Proof.
  revert lineCount counts w. induction ls as [|line ls IH]; intros lineCount counts w Hlo Hhi;
    cbn [scan]; [reflexivity|].
  cbn [length] in Hhi.
  destruct (Z.eqb_spec (lineCount mod 1000) 0) as [Hmod|_].
  { rewrite Z.mod_small in Hmod by lia. lia. }
  rewrite wrap_int_small by lia. apply IH; lia.
Qed.

End ScanFacts.

Section NameFacts.
Import strings.

Lemma Split_no_sep (s : string) (sep : ascii) :
  Forall (fun p => contains sep p = false) (Split s sep).
Proof.
  induction s as [|c s IH]; cbn [Split].
  - constructor; [reflexivity | constructor].
  - destruct (Ascii.eqb c sep) eqn:Hc.
    + constructor; [reflexivity | exact IH].
    + destruct (Split s sep) as [|h t]; [constructor; [|constructor]|].
      * cbn [contains]. rewrite Ascii.eqb_sym, Hc. reflexivity.
      * apply Forall_cons_iff in IH as [Hh Ht]. constructor; [|exact Ht].
        cbn [contains]. rewrite Ascii.eqb_sym, Hc. exact Hh.
Qed.

Lemma isEmpty_false (s : string) : isEmpty s = false -> s <> EmptyString.
Proof. destruct s; [discriminate | discriminate]. Qed.

(** A name that the fields of a line change is one of the fields,
    trimmed and not empty. *)
Lemma fold_count_changes (ps : list string) (m : gmap string Z) (k : string) :
  fold_left count_package ps m !! k = m !! k
  \/ exists p, In p ps /\ k = TrimSpace p /\ isEmpty k = false.
Proof.
  revert m. induction ps as [|p ps IH]; intros m; cbn [fold_left]; [left; reflexivity|].
  destruct (IH (count_package m p)) as [Heq | (q & Hq & Hk & Hne)].
  - rewrite Heq. unfold count_package.
    destruct (isEmpty (TrimSpace p)) eqn:He; [left; reflexivity|].
    destruct (decide (TrimSpace p = k)) as [<-|Hne].
    + right. exists p. split; [left; reflexivity|]. split; [reflexivity | exact He].
    + left. unfold app.incr. apply lookup_insert_ne. exact Hne.
  - right. exists q. split; [right; exact Hq|]. split; assumption.
Qed.

Lemma ProcessLine_fields (line : string) :
  exists ps, (forall m, app.ProcessLine line m = fold_left count_package ps m)
             /\ Forall (fun p => contains "," p = false) ps.
Proof.
  unfold app.ProcessLine. cbv zeta.
  destruct (_ || _); [exists []; split; [reflexivity | constructor]|].
  destruct (_ =? -1); [exists []; split; [reflexivity | constructor]|].
  eexists. split; [intros m; reflexivity | apply Split_no_sep].
Qed.

Lemma ReplaceAll_removes (s : string) (old : ascii) (new : string) :
  contains old new = false -> contains old (ReplaceAll s old new) = false.
Proof.
  intros Hnew. induction s as [|c s IH]; [reflexivity|].
  cbn [ReplaceAll]. destruct (Ascii.eqb c old) eqn:Hc.
  - assert (Happ : forall a b, contains old a = false -> contains old b = false ->
                               contains old (a +:+ b) = false).
    { induction a as [|x a IHa]; intros b Ha Hb.
      - rewrite append_nil_l. exact Hb.
      - rewrite append_cons. cbn [contains] in Ha |- *.
        apply orb_false_iff in Ha as [Hx Ha]. rewrite Hx. cbn [orb]. exact (IHa b Ha Hb). }
    apply Happ; assumption.
  - cbn [contains]. rewrite Ascii.eqb_sym, Hc. exact IH.
Qed.

Lemma cleanName_no_tab (name : string) :
  contains (ascii_of_N 9) (app.cleanName name) = false.
Proof.
  unfold app.cleanName. apply contains_TrimSpace, ReplaceAll_removes. reflexivity.
Qed.

End NameFacts.

Section TableFacts.
Import cache app.

Lemma PrintTop_rows_ok (stats : list PackageStats) (n : nat) (i : nat) :
  (i + n <= length stats)%nat ->
  exists rows,
    PrintTop_rows stats n (Z.of_nat i) = Some rows
    /\ length rows = n
    /\ forall j p, (j < n)%nat -> stats !! (i + j)%nat = Some p ->
         rows !! j = Some (PrintTop_row (Z.of_nat (i + j) + 1) (cleanName (Name p)) (FileCount p)).
Proof.
  revert i. induction n as [|n IH]; intros i Hi; cbn [PrintTop_rows].
  - exists []. split; [reflexivity|]. split; [reflexivity|]. intros j p Hj. lia.
  - rewrite Nat2Z.id.
    destruct (lookup_lt_is_Some_2 stats i) as [p Hp]; [lia|]. rewrite Hp.
    destruct (IH (S i)) as (rows & Hrows & Hlen & Hrow); [lia|].
    replace (Z.of_nat i + 1) with (Z.of_nat (S i)) by lia. rewrite Hrows.
    eexists. split; [reflexivity|]. split; [cbn [length]; rewrite Hlen; reflexivity|].
    intros j q Hj Hq. destruct j as [|j].
    + rewrite Nat.add_0_r in Hq |- *. rewrite Hp in Hq. injection Hq as <-.
      cbn. replace (Z.of_nat (S i)) with (Z.of_nat i + 1) by lia. reflexivity.
    + cbn [lookup list_lookup]. replace (i + S j)%nat with (S i + j)%nat in * by lia.
      apply Hrow; [lia | exact Hq].
Qed.

End TableFacts.

(** X14. The scanning loop looks at the context before the first line and
    then once every thousand lines: a body of at most a thousand lines is
    read to its end, and aggregated in full, once the context is not done
    at its first line, whatever happens to the context afterwards. *)
Theorem scan_checks_every_thousand (env : Env) (ctx : Context) (ls : list string)
    (counts : gmap string Z) (w : World) :
  (length ls <= 1000)%nat ->
  ctx_Err env ctx (emit EvScan w) = None ->
  fst (app.scan env ctx ls None 0 counts w) = Ok (aggregate ls counts).
Proof.
  intros Hlen Hctx. destruct ls as [|line ls]; [reflexivity|].
  cbn [app.scan]. change (0 mod 1000 =? 0) with true. cbv iota. rewrite Hctx.
  change (wrap_int (0 + 1)) with 1. cbn [length] in Hlen.
  change (aggregate (line :: ls) counts) with (aggregate ls (app.ProcessLine line counts)).
  apply scan_unchecked; lia.
Qed.

Lemma scan_checks_every_thousand_witness :
  fst (app.scan env_cancel_late ctx_background
         ["bin/ls coreutils"%string; "bin/cat coreutils"%string] None 0 ∅ empty_world)
  = Ok (<["coreutils" := 2]> ∅).
Proof.
  rewrite scan_checks_every_thousand; [vm_compute; reflexivity | cbn; lia | reflexivity].
Defined.

(** X15. [ProcessLine] drops no name, and a name whose count it changes
    is not empty and holds no comma. *)
Theorem ProcessLine_names (line : string) (m : gmap string Z) (k : string) :
  (is_Some (m !! k) -> is_Some (app.ProcessLine line m !! k))
  /\ (app.ProcessLine line m !! k = m !! k
      \/ (k <> EmptyString /\ contains "," k = false
          /\ is_Some (app.ProcessLine line m !! k))).
Proof.
  split; [apply ProcessLine_keeps|].
  destruct (ProcessLine_fields line) as (ps & Hps & Hcomma). rewrite Hps.
  destruct (fold_count_changes ps m k) as [Heq | (p & Hp & -> & Hne)]; [left; exact Heq|].
  right. split; [apply isEmpty_false, Hne|]. split.
  - apply contains_TrimSpace. rewrite Forall_forall in Hcomma. apply Hcomma.
    apply list_elem_of_In. exact Hp.
  - clear Hps Hcomma. revert m. induction ps as [|q ps IH]; intros m; [destruct Hp|].
    cbn [fold_left]. destruct Hp as [-> | Hp]; [|apply IH, Hp].
    apply fold_count_keeps. unfold count_package. rewrite Hne.
    unfold app.incr. rewrite lookup_insert_eq. eexists. reflexivity.
Qed.

(** X16. Whatever the order in which the map is iterated, [SortMap]
    returns one item for each name of the map and no other, each with
    the count the map holds for it, no name twice, and the first item has
    the largest count of the map. *)
Theorem SortMap_items (m : gmap string Z) (out : list cache.PackageStats) :
  app.SortMap_returns m out ->
  length out = size m
  /\ NoDup (map cache.Name out)
  /\ (forall p, In p out <-> m !! cache.Name p = Some (cache.FileCount p))
  /\ (forall p rest k v, out = p :: rest -> m !! k = Some v -> v <= cache.FileCount p).
Proof.
  intros Hout. apply SortMap_returns_iff in Hout as [Hs Hp].
  assert (Hin : forall p, In p out <-> m !! cache.Name p = Some (cache.FileCount p)).
  { intros p. rewrite <- (Permutation_in' (eq_refl p) Hp), in_map_iff. split.
    - intros ([k v] & Hpe & Hkv). subst p. cbn [entry_of cache.Name cache.FileCount fst snd].
      apply elem_of_map_to_list, list_elem_of_In. exact Hkv.
    - intros Hm. exists (cache.Name p, cache.FileCount p). split; [destruct p; reflexivity|].
      apply list_elem_of_In, elem_of_map_to_list. exact Hm. }
  split; [|split; [|split; [exact Hin|]]].
  - rewrite <- (Permutation_length Hp), length_map. apply length_map_to_list.
  - rewrite <- Hp, map_map. cbn [entry_of cache.Name].
    apply (NoDup_fst_map_to_list m).
  - intros p rest k v -> Hkv.
    assert (Hk : In (cache.mkPackageStats k v) (p :: rest)) by (apply Hin; exact Hkv).
    apply StronglySorted_inv in Hs as [_ Hall].
    destruct Hk as [Hpk | Hk]; [subst p; cbn; lia|].
    rewrite Forall_forall in Hall. apply list_elem_of_In in Hk.
    specialize (Hall _ Hk). unfold descending in Hall. exact Hall.
Qed.

Lemma SortMap_items_witness :
  length (app.SortMap env_offline (<["low" := 5]> (<["high" := 50]> ∅))) = 2%nat
  /\ forall p rest,
       app.SortMap env_offline (<["low" := 5]> (<["high" := 50]> ∅)) = p :: rest ->
       50 <= cache.FileCount p.
Proof.
  destruct (SortMap_items (<["low" := 5]> (<["high" := 50]> ∅))
              (app.SortMap env_offline (<["low" := 5]> (<["high" := 50]> ∅))))
    as (Hlen & _ & _ & Hmax).
  - exists (map_to_list (<["low" := 5]> (<["high" := 50]> ∅))). split; reflexivity.
  - split; [exact Hlen|]. intros p rest Hout. apply (Hmax p rest "high"%string 50 Hout).
    reflexivity.
Defined.

(** X17. [PrintTop] never indexes past the statistics: it writes the
    heading, the rule and then one line for each of the first [top]
    items, all of them when there are fewer and none when [top] is
    negative, in their order, each with its rank from 1, its name with
    tabs replaced and trimmed, which holds no tab, and its count. *)
Theorem PrintTop_lines (stats : list cache.PackageStats) (top : Z) :
  exists heading rule rows,
    app.PrintTop stats top = Some (heading :: rule :: rows)
    /\ length rows = Z.to_nat (Z.min top (Z.of_nat (length stats)))
    /\ (forall j p,
          (j < length rows)%nat -> stats !! j = Some p ->
          rows !! j = Some (app.PrintTop_row (Z.of_nat j + 1) (app.cleanName (cache.Name p))
                              (cache.FileCount p))
          /\ contains (ascii_of_N 9) (app.cleanName (cache.Name p)) = false).
Proof.
  unfold app.PrintTop. cbv zeta.
  set (n := Z.to_nat (if Z.of_nat (length stats) <? top then Z.of_nat (length stats) else top)).
  assert (Hn : n = Z.to_nat (Z.min top (Z.of_nat (length stats)))).
  { subst n. destruct (Z.ltb_spec (Z.of_nat (length stats)) top); f_equal; lia. }
  destruct (PrintTop_rows_ok stats n 0) as (rows & Hrows & Hlen & Hrow); [lia|].
  change (Z.of_nat 0) with 0 in Hrows. rewrite Hrows.
  eexists _, _, rows. split; [reflexivity|]. split; [lia|].
  intros j p Hj Hp. split; [|apply cleanName_no_tab].
  apply (Hrow j p); [lia | exact Hp].
Qed.

Lemma PrintTop_lines_witness :
  exists heading rule,
    app.PrintTop [cache.mkPackageStats "pkg1" 100] 5
    = Some [heading; rule; app.PrintTop_row 1 "pkg1" 100].
Proof.
  destruct (PrintTop_lines [cache.mkPackageStats "pkg1" 100] 5)
    as (heading & rule & rows & Hp & Hlen & Hrow).
  exists heading, rule. rewrite Hp.
  destruct rows as [|row [|row' rows]]; [discriminate Hlen | | discriminate Hlen].
  destruct (Hrow O (cache.mkPackageStats "pkg1" 100)) as [Hr _];
    [cbn; lia | reflexivity|].
  injection Hr as ->. reflexivity.
Defined.

(** ** More on the orchestrator *)

Section RunFacts.
Import cache app.
Context `{Codec}.
Variable env : Env.

Lemma resolve_recent (cfg : Config) (ctx : Context) (c : CacheEntry) (w : World) :
  recent env cfg (Some c) w = true ->
  resolve env cfg ctx (Some c) w = (Ok (Stats c), w).
Proof.
  intros Hr. unfold resolve. unfold recent in Hr. rewrite Hr. reflexivity.
Qed.

Lemma load_existing_forced (cfg : Config) (w : World) :
  ForceRefresh cfg = true -> load_existing env cfg w = (None, w).
Proof. intros Hf. unfold load_existing. rewrite Hf. reflexivity. Qed.

Lemma AnalyzeWithCache_unlocks (cfg : Config) (ctx : Context) (w w1 : World) (f : Flock) :
  acquire env cfg ctx w = (Some f, None, w1) ->
  exists w2, snd (AnalyzeWithCache env cfg ctx w) = ReleaseLock env (Some f) (lockFile cfg) w2.
Proof.
  intros Ha. unfold AnalyzeWithCache. rewrite Ha.
  destruct (load_existing env cfg w1) as [cached w2].
  destruct (resolve env cfg ctx cached w2) as [result w3].
  exists w3. reflexivity.
Qed.

End RunFacts.

(** X18. Inside the short cache window nothing is fetched: when the
    lock is taken and the record that is loaded is younger than the
    window, [AnalyzeWithCache] returns the items of the record, sends no
    request and writes no file; it only releases the lock. *)
Theorem AnalyzeWithCache_recent `{cache.Codec} (env : Env) (cfg : app.Config) (ctx : Context)
    (w w1 w2 : World) (lk : option cache.Flock) (c : cache.CacheEntry) :
  app.acquire env cfg ctx w = (lk, None, w1) ->
  app.load_existing env cfg w1 = (Some c, w2) ->
  recent env cfg (Some c) w2 = true ->
  app.AnalyzeWithCache env cfg ctx w
  = (Ok (cache.Stats c), cache.ReleaseLock env lk (app.lockFile cfg) w2).
Proof.
  intros Ha Hl Hr. unfold app.AnalyzeWithCache. rewrite Ha, Hl.
  rewrite (resolve_recent env cfg ctx c w2 Hr). reflexivity.
Qed.

Lemma AnalyzeWithCache_recent_witness :
  app.AnalyzeWithCache env_offline cfg_amd64 ctx_background world_fresh
  = (Ok [cache.mkPackageStats "pkg1" 15],
     cache.ReleaseLock env_offline (Some (app.lockFile cfg_amd64)) (app.lockFile cfg_amd64)
       (snd (app.load_existing env_offline cfg_amd64
               (snd (app.acquire env_offline cfg_amd64 ctx_background world_fresh))))).
Proof.
  pose (w := world_fresh).
  pose (w1 := snd (app.acquire env_offline cfg_amd64 ctx_background w)).
  pose (w2 := snd (app.load_existing env_offline cfg_amd64 w1)).
  assert (Ha : app.acquire env_offline cfg_amd64 ctx_background w
               = (Some (app.lockFile cfg_amd64), None, w1)) by (vm_compute; reflexivity).
  assert (Hl : app.load_existing env_offline cfg_amd64 w1 = (Some entry_pkg1, w2))
    by (vm_compute; reflexivity).
  assert (Hr : recent env_offline cfg_amd64 (Some entry_pkg1) w2 = true)
    by (vm_compute; reflexivity).
  exact (AnalyzeWithCache_recent (H := gojson.codec) env_offline cfg_amd64 ctx_background
           w w1 w2 (Some (app.lockFile cfg_amd64)) entry_pkg1 Ha Hl Hr).
Defined.


(** X19. With a forced refresh the cache file is not read and a failed
    download is not made up for: once the lock is taken, the invocation
    returns what [Download] without a cached record returns, its items
    or its error. *)
Theorem AnalyzeWithCache_forced `{cache.Codec} (env : Env) (cfg : app.Config) (ctx : Context)
    (w w1 : World) (lk : option cache.Flock) :
  app.ForceRefresh cfg = true ->
  app.acquire env cfg ctx w = (lk, None, w1) ->
  fst (app.AnalyzeWithCache env cfg ctx w)
  = match fst (app.Download env (app.download_ctx env cfg ctx w1) (app.url_of cfg) None w1) with
    | Ok (stats, _, _) => Ok stats
    | Err e => Err e
    end.
Proof.
  intros Hf Ha.
  rewrite (AnalyzeWithCache_locked env cfg ctx w w1 w1 lk None Ha (load_existing_forced env cfg w1 Hf)).
  apply resolve_None.
Qed.

Lemma AnalyzeWithCache_forced_witness :
  fst (app.AnalyzeWithCache env_offline cfg_forced ctx_background world_fresh)
  = Err (ErrExternal "dial tcp: lookup invalid-host.local: no such host").
Proof.
  pose (cfg := cfg_forced).
  pose (w := world_fresh).
  pose (w1 := snd (app.acquire env_offline cfg ctx_background w)).
  assert (Ha : app.acquire env_offline cfg ctx_background w
               = (Some (app.lockFile cfg), None, w1)) by (vm_compute; reflexivity).
  refine (eq_trans (AnalyzeWithCache_forced (H := gojson.codec) env_offline cfg ctx_background
                      w w1 (Some (app.lockFile cfg)) eq_refl Ha) _).
  vm_compute. reflexivity.
Defined.


(** X20. The lock does not outlive the invocation: when the lock is
    taken, whatever the cache and the remote do, [AnalyzeWithCache] ends
    by unlocking it and removing the lock file, and on a file system that
    does not refuse the removal no lock file is left. *)
Theorem AnalyzeWithCache_releases_lock `{cache.Codec} (env : Env) (cfg : app.Config)
    (ctx : Context) (w w1 : World) (f : cache.Flock) :
  app.acquire env cfg ctx w = (Some f, None, w1) ->
  (forall tr, fs_fault env tr (OpRemove (app.lockFile cfg)) = None) ->
  files (snd (app.AnalyzeWithCache env cfg ctx w)) !! app.lockFile cfg = None
  /\ exists tr, trace (snd (app.AnalyzeWithCache env cfg ctx w))
                = EvFs (OpRemove (app.lockFile cfg)) :: EvUnlock f :: tr.
Proof.
  intros Ha Hr. destruct (AnalyzeWithCache_unlocks env cfg ctx w w1 f Ha) as [w2 ->].
  destruct (ReleaseLock_gone env f (app.lockFile cfg) w2 Hr) as (Hgone & _ & Htr).
  split; [exact Hgone|]. exists (trace w2). exact Htr.
Qed.

Lemma AnalyzeWithCache_releases_lock_witness :
  files (snd (app.AnalyzeWithCache env_offline cfg_amd64 ctx_background empty_world))
    !! app.lockFile cfg_amd64 = None.
Proof.
  pose (w1 := snd (app.acquire env_offline cfg_amd64 ctx_background empty_world)).
  assert (Ha : app.acquire env_offline cfg_amd64 ctx_background empty_world
               = (Some (app.lockFile cfg_amd64), None, w1)) by (vm_compute; reflexivity).
  exact (proj1 (AnalyzeWithCache_releases_lock (H := gojson.codec) env_offline cfg_amd64
                  ctx_background empty_world w1 (app.lockFile cfg_amd64) Ha
                  (fun tr => eq_refl))).
Defined.

